(** * Event-streaming pipeline: consumer loop, producer and retrying cache client

    Shallow embedding of
      - [src/app/services/kafka_consumer.py]      (BackendKafkaConsumer)
      - [src/adapter/services/kafka_consumer.py]  (AIOKafkaConsumerImplementation)
      - [src/adapter/services/kafka_producer.py]  (AIOKafkaProducerImplementation)
      - [src/adapter/services/cache_backend.py]   (RetryingRedis, RedisCacheBackend)

    Coroutines are modelled sequentially: one coroutine runs from call to
    return, every [await] is an atomic call into the outside world.  The
    outside world (broker client, redis client, handlers, audit sink, clock)
    is an abstract state [Env] with one transition function per call.
    Exceptions are values; every exception of the model is an instance of
    Python's [Exception] (task cancellation and interpreter exit, which derive
    from [BaseException] only, are outside the model).  Exception messages are
    dropped, the [raise ... from e] cause is kept. *)

From Stdlib Require Import ZArith List String Bool Lia Ascii QArith.
From Stdlib Require Strings.Byte DecimalString.
Import ListNotations.
Open Scope string_scope.
Open Scope list_scope.
Open Scope Z_scope.

(* ===================================================================== *)
(** ** Python exceptions, results and the state-and-exception monad      *)
(* ===================================================================== *)

Module Py.

(** Exception classes the code names, with the library classes between
    them and [Exception]. *)
Inductive builtin : Type :=
| Exception
| KeyError | AttributeError | TypeError | ValueError
| UnicodeDecodeError | UnicodeEncodeError | JSONDecodeError
| OSError | ConnectionResetError
| KafkaError | KafkaTimeoutError | KafkaConnectionError
| RedisError | RedisConnectionError | RedisTimeoutError
(* src/app/services/kafka_consumer.py, lines 10-22 *)
| CriticalException | SkippableException | InvalidMessageException
(* src/app/services/kafka_producer.py, line 7 *)
| KafkaPublishMessageFailed.

Scheme Equality for builtin.

(** Method resolution order of each class: the class and its ancestors. *)
Definition mro (b : builtin) : list builtin :=
  match b with
  | Exception => [Exception]
  | KeyError => [KeyError; Exception]
  | AttributeError => [AttributeError; Exception]
  | TypeError => [TypeError; Exception]
  | ValueError => [ValueError; Exception]
  | UnicodeDecodeError => [UnicodeDecodeError; ValueError; Exception]
  | UnicodeEncodeError => [UnicodeEncodeError; ValueError; Exception]
  | JSONDecodeError => [JSONDecodeError; ValueError; Exception]
  | OSError => [OSError; Exception]
  | ConnectionResetError => [ConnectionResetError; OSError; Exception]
  | KafkaError => [KafkaError; Exception]
  | KafkaTimeoutError => [KafkaTimeoutError; KafkaError; Exception]
  | KafkaConnectionError => [KafkaConnectionError; KafkaError; Exception]
  | RedisError => [RedisError; Exception]
  | RedisConnectionError => [RedisConnectionError; RedisError; Exception]
  | RedisTimeoutError => [RedisTimeoutError; RedisError; Exception]
  | CriticalException => [CriticalException; Exception]
  | SkippableException => [SkippableException; Exception]
  | InvalidMessageException =>
      [InvalidMessageException; SkippableException; Exception]
  | KafkaPublishMessageFailed => [KafkaPublishMessageFailed; Exception]
  end.

(** A class is one of the above or a subclass a caller defined. *)
Inductive cls : Type :=
| Builtin (b : builtin)
| Subclass (name : string) (base : cls).

Fixpoint root (c : cls) : builtin :=
  match c with
  | Builtin b => b
  | Subclass _ base => root base
  end.

(** An exception instance: its class, and the cause when it was raised
    [from] another exception. *)
Inductive exn : Type :=
| Exn (c : cls)
| ExnFrom (c : cls) (cause : exn).

Definition exn_cls (e : exn) : cls :=
  match e with Exn c => c | ExnFrom c _ => c end.

Definition exn_cause (e : exn) : option exn :=
  match e with Exn _ => None | ExnFrom _ k => Some k end.

Definition new (b : builtin) : exn := Exn (Builtin b).
Definition new_from (b : builtin) (cause : exn) : exn :=
  ExnFrom (Builtin b) cause.

(** [isinstance(e, t)] for a class [t] named in the source. *)
Definition isinstance (e : exn) (t : builtin) : bool :=
  existsb (builtin_beq t) (mro (root (exn_cls e))).

(** [isinstance(e, (t1, t2, ...))], the test of an [except (..)] clause. *)
Definition isinstance_any (e : exn) (ts : list builtin) : bool :=
  existsb (isinstance e) ts.

Inductive result (A : Type) : Type :=
| Ok (a : A)
| Raise (e : exn).
Arguments Ok {A} a.
Arguments Raise {A} e.

(** A computation over a state [S] that returns or raises; the state
    changes made before a raise are kept, as in Python. *)
Definition M (S A : Type) : Type := S -> result A * S.

Definition ret {S A} (a : A) : M S A := fun s => (Ok a, s).
Definition raise {S A} (e : exn) : M S A := fun s => (Raise e, s).

Definition bind {S A B} (m : M S A) (k : A -> M S B) : M S B :=
  fun s =>
    match m s with
    | (Ok a, s1) => k a s1
    | (Raise e, s1) => (Raise e, s1)
    end.

(** [try: m  except: h e] *)
Definition catch {S A} (m : M S A) (h : exn -> M S A) : M S A :=
  fun s =>
    match m s with
    | (Ok a, s1) => (Ok a, s1)
    | (Raise e, s1) => h e s1
    end.

(** [try: m  finally: f] *)
Definition finally {S A} (m : M S A) (f : M S unit) : M S A :=
  fun s =>
    match m s with
    | (r, s1) =>
        match f s1 with
        | (Ok _, s2) => (r, s2)
        | (Raise e, s2) => (Raise e, s2)
        end
    end.

(** The outcome of [m] as a value: what a [try] statement inspects. *)
Definition attempt {S A} (m : M S A) : M S (result A) :=
  fun s => let '(r, s1) := m s in (Ok r, s1).

Definition get {S} : M S S := fun s => (Ok s, s).
Definition modify {S} (f : S -> S) : M S unit := fun s => (Ok tt, f s).

(** Logging levels; [logger.exception] logs at [ERROR]. *)
Inductive level : Type := DEBUG | INFO | WARNING | ERROR.

(** A [datetime]: microseconds since the epoch, in UTC. *)
Definition datetime : Type := Z.

(** A [bytes] object. *)
Definition bytes : Type := list Init.Byte.byte.

(** Python values that travel through the pipeline: what [json.loads]
    returns, what a payload holds, what a header carries.  A [str] is kept
    as its UTF-8 encoding; a [dict] keeps insertion order. *)
#[local] Unset Elimination Schemes.
Inductive pyval : Type :=
| PNone
| PBool (b : bool)
| PInt (n : Z)
| PFloat (q : Q)
| PStr (s : string)
| PBytes (b : bytes)
| PList (l : list pyval)
| PDict (d : list (string * pyval))
| PDatetime (t : datetime)
| PObject (type_name : string).
#[local] Set Elimination Schemes.

(** [bytes.decode("utf-8")]: the strict decoder accepts the well-formed
    sequences of the Unicode standard (no overlong forms, no surrogates,
    nothing above U+10FFFF). *)
Definition in_range (lo hi : N) (b : Init.Byte.byte) : bool :=
  let n := Strings.Byte.to_N b in ((lo <=? n) && (n <=? hi))%N.

Fixpoint utf8_valid (l : bytes) : bool :=
  match l with
  | [] => true
  | b0 :: r0 =>
      if in_range 0 127 b0 then utf8_valid r0
      else if in_range 194 223 b0 then
        match r0 with
        | b1 :: r1 => in_range 128 191 b1 && utf8_valid r1
        | _ => false
        end
      else if in_range 224 239 b0 then
        match r0 with
        | b1 :: b2 :: r2 =>
            (if in_range 224 224 b0 then in_range 160 191 b1
             else if in_range 237 237 b0 then in_range 128 159 b1
             else in_range 128 191 b1)
            && in_range 128 191 b2 && utf8_valid r2
        | _ => false
        end
      else if in_range 240 244 b0 then
        match r0 with
        | b1 :: b2 :: b3 :: r3 =>
            (if in_range 240 240 b0 then in_range 144 191 b1
             else if in_range 244 244 b0 then in_range 128 143 b1
             else in_range 128 191 b1)
            && in_range 128 191 b2 && in_range 128 191 b3 && utf8_valid r3
        | _ => false
        end
      else false
  end.

Definition utf8_decode (b : bytes) : result string :=
  if utf8_valid b then Ok (string_of_list_byte b)
  else Raise (new UnicodeDecodeError).

(** [str.encode("utf-8")].  A [str] is kept as the bytes of its UTF-8
    encoding.  A [str] that holds a lone surrogate has no such encoding:
    it is kept as the bytes the surrogate would take (three bytes from
    [ed a0 80] on), which the strict codec refuses. *)
Definition utf8_encode (s : string) : result bytes :=
  let b := list_byte_of_string s in
  if utf8_valid b then Ok b else Raise (new UnicodeEncodeError).

(** Truth value of an object, as [if x], [not x] and [x or y] use it. *)
Definition truthy (v : pyval) : bool :=
  match v with
  | PNone => false
  | PBool b => b
  | PInt n => negb (n =? 0)
  | PFloat q => negb (Qeq_bool q 0)
  | PStr s => negb (String.eqb s "")
  | PBytes b => match b with [] => false | _ => true end
  | PList l => match l with [] => false | _ => true end
  | PDict d => match d with [] => false | _ => true end
  | PDatetime _ => true
  | PObject _ => true
  end.

(** [d.get(key)] on the items of a dict. *)
Fixpoint dict_get {V : Type} (d : list (string * V)) (key : string)
  : option V :=
  match d with
  | [] => None
  | (k, v) :: rest => if String.eqb k key then Some v else dict_get rest key
  end.

(** [d[key] = v]: replaces the value in place or appends a new item. *)
Fixpoint dict_set {V : Type} (d : list (string * V)) (key : string) (v : V)
  : list (string * V) :=
  match d with
  | [] => [(key, v)]
  | (k, w) :: rest =>
      if String.eqb k key then (k, v) :: rest
      else (k, w) :: dict_set rest key v
  end.

(** [v.get(key)] on any object: only a dict has the method; a missing
    key gives [None]. *)
Definition py_get (v : pyval) (key : string) : result pyval :=
  match v with
  | PDict d => Ok (match dict_get d key with Some x => x | None => PNone end)
  | _ => Raise (new AttributeError)
  end.

(** [dict(pairs)]: a later pair with the same key overrides an earlier. *)
Definition dict_of_pairs {V : Type} (pairs : list (string * V))
  : list (string * V) :=
  fold_left (fun d kv => dict_set d (fst kv) (snd kv)) pairs [].

End Py.

Import Py.

Declare Scope py_scope.
Delimit Scope py_scope with py.
Notation "x <- m ;; k" := (bind m (fun x => k))
  (at level 61, m at next level, right associativity) : py_scope.
Notation "m ;;; k" := (bind m (fun _ => k))
  (at level 61, right associativity) : py_scope.

Open Scope py_scope.

(* ===================================================================== *)
(** ** Retrying cache client (src/adapter/services/cache_backend.py)     *)
(* ===================================================================== *)

Module Cache.
Section RetryingRedis.

(** The redis server and connection as seen through the client library. *)
Variable Env : Type.
(** What a command replies. *)
Variable Reply : Type.
(** [redis.asyncio.Redis.execute_command], the method [RetryingRedis]
    overrides and calls through [super()]. *)
Variable super_execute_command :
  list string -> Env -> result Reply * Env.
(** The passing of [asyncio.sleep]. *)
Variable asyncio_sleep : Z -> Env -> Env.

(** What a call does to the outside, in order. *)
Inductive action : Type :=
| Exec (args : list string)          (* awaited super().execute_command *)
| Sleep (seconds : Z)                (* asyncio.sleep(backoff) *)
| LogWarning (attempt remaining backoff : Z)
| LogException.

(** Attributes set by [RetryingRedis.__init__]. *)
Record client : Type := mkClient {
  _retry_count : Z;
  _max_retries : Z
}.

Record state : Type := mkState {
  self : client;
  env : Env;
  trace : list action
}.

(** [__init__] (lines 11-15). *)
Definition init : client := {| _retry_count := 0; _max_retries := 3 |}.

Definition emit (a : action) : M state unit :=
  modify (fun s => {| self := self s; env := env s; trace := trace s ++ [a] |}).

Definition set_retry_count (n : Z) : M state unit :=
  modify (fun s =>
    {| self := {| _retry_count := n; _max_retries := _max_retries (self s) |};
       env := env s; trace := trace s |}).

Definition sleep (seconds : Z) : M state unit :=
  modify (fun s =>
    {| self := self s; env := asyncio_sleep seconds (env s);
       trace := trace s ++ [Sleep seconds] |}).

Definition call_super (args : list string) : M state Reply :=
  fun s =>
    let '(r, env1) := super_execute_command args (env s) in
    (r, {| self := self s; env := env1; trace := trace s ++ [Exec args] |}).

(** The value of a call: the server's reply or Python's [False]. *)
Inductive value : Type :=
| Value (r : Reply)
| PyFalse.

(** The classes of the [except] clause at lines 22-26. *)
Definition transient : list builtin :=
  [RedisConnectionError; RedisTimeoutError; RedisError].

(** The [while True] loop of [execute_command] (lines 19-37); [None] when
    [fuel] iterations were not enough. *)
Fixpoint execute_command_loop (fuel : nat) (args : list string)
  : M state (option value) :=
  match fuel with
  | O => ret None
  | S fuel' =>
      r <- catch (v <- call_super args ;; ret (Some v)) (fun e =>
             if isinstance_any e transient then ret None else raise e) ;;
      match r with
      | Some v => ret (Some (Value v))
      | None =>
          s <- get ;;
          set_retry_count (_retry_count (self s) + 1) ;;;
          s <- get ;;
          let rc := _retry_count (self s) in
          let mx := _max_retries (self s) in
          if mx <? rc then
            emit LogException ;;; ret (Some PyFalse)
          else
            let backoff := 2 ^ (rc - 1) in
            emit (LogWarning rc (mx - rc) backoff) ;;;
            sleep backoff ;;;
            execute_command_loop fuel' args
      end
  end.

(** [RetryingRedis.execute_command] (lines 17-37).  The loop runs at most
    [_max_retries + 1] times, see [execute_command_loop_fuel]. *)
Definition execute_command (args : list string) : M state (option value) :=
  set_retry_count 0 ;;;
  s <- get ;;
  execute_command_loop (S (Z.to_nat (_max_retries (self s)))) args.


(** The call [self.redis_client.delete(key)] of [RedisCacheBackend.delete]
    (line 64), which redis-py sends as the command [DEL key]. *)
Definition delete (key : string) : M state (option value) :=
  execute_command ["DEL"; key].

Definition sleeps (tr : list action) : list Z :=
  flat_map (fun a => match a with Sleep d => [d] | _ => [] end) tr.

Definition execs (tr : list action) : list (list string) :=
  flat_map (fun a => match a with Exec c => [c] | _ => [] end) tr.

(** The backend raises one of the caught classes on every call. *)
Definition always_transient : Prop :=
  forall args e0, exists e e1,
    super_execute_command args e0 = (Raise e, e1) /\
    isinstance_any e transient = true.

(** Delays [2^(k-1)] for the retries [k = from+1 .. from+n]. *)
Definition backoff_schedule (from : Z) (n : nat) : list Z :=
  map (fun k => 2 ^ (from + Z.of_nat k - 1)) (seq 1 n).


(** *** Properties of the retry loop *)

Lemma backoff_schedule_cons (from : Z) (n : nat) :
  backoff_schedule from (S n) = 2 ^ from :: backoff_schedule (from + 1) n.
Proof.
  unfold backoff_schedule.
  cbn [seq map]. f_equal.
  - f_equal. lia.
  - rewrite <- seq_shift, map_map. apply map_ext. intros k. f_equal. lia.
Qed.

Lemma redis_sleeps_app (a b : list action) : sleeps (a ++ b) = sleeps a ++ sleeps b.
Proof. unfold sleeps. apply flat_map_app. Qed.

Lemma redis_execs_app (a b : list action) : execs (a ++ b) = execs a ++ execs b.
Proof. unfold execs. apply flat_map_app. Qed.


(** The fuel [execute_command] passes to its loop is enough whatever the
    backend does: the call returns a value or raises, it never runs out. *)
Lemma execute_command_loop_fuel :
  forall (fuel : nat) (args : list string) (s : state),
    0 <= _retry_count (self s) ->
    (Z.to_nat (_max_retries (self s) - _retry_count (self s)) < fuel)%nat ->
    fst (execute_command_loop fuel args s) <> Ok None.
Proof.
  induction fuel as [|fuel IH]; intros args s Hrc Hfuel; [lia|].
  destruct s as [[rc mx] e0 tr]. cbn [self _retry_count _max_retries] in *.
  cbn [execute_command_loop].
  unfold bind at 1. unfold catch, bind at 1, call_super. cbn [env self trace].
  destruct (super_execute_command args e0) as [[v|e] e1].
  - cbn. discriminate.
  - destruct (isinstance_any e transient); [|cbn; discriminate].
    unfold ret at 1.
    unfold bind, get, set_retry_count, emit, sleep, modify.
    cbn [self _retry_count _max_retries env trace].
    destruct (mx <? rc + 1) eqn:Hlt; [cbn; discriminate|].
    apply Z.ltb_ge in Hlt. apply IH; cbn; lia.
Qed.

(** [execute_command] never runs out of fuel. *)
Lemma execute_command_fuel :
  forall (args : list string) (s : state),
    fst (execute_command args s) <> Ok None.
Proof.
  intros args [[rc mx] e0 tr].
  unfold execute_command, bind, set_retry_count, get, modify.
  cbn [self _retry_count _max_retries env trace].
  apply execute_command_loop_fuel; cbn; lia.
Qed.



(** *** The retry loop against any backend *)

(** How a call can end: with the server's reply, with [False], or with an
    exception of none of the classes of the [except] clause. *)
Definition settled (r : result (option value)) : Prop :=
  (exists v, r = Ok (Some (Value v))) \/
  r = Ok (Some PyFalse) \/
  (exists e, r = Raise e /\ isinstance_any e transient = false).

(** The backend fails [n] times with a caught class, the sleeps of the
    retries [rc+1 .. rc+n] in between, and then replies [v]. *)
Fixpoint fails_then_replies (n : nat) (rc : Z) (args : list string)
    (v : Reply) (w : Env) : Prop :=
  match n with
  | O => exists w', super_execute_command args w = (Ok v, w')
  | S n' =>
      exists e w',
        super_execute_command args w = (Raise e, w') /\
        isinstance_any e transient = true /\
        fails_then_replies n' (rc + 1) args v (asyncio_sleep (2 ^ rc) w')
  end.

(** [str(expire)] of an [int]. *)
Definition str_of_int (n : Z) : string :=
  DecimalString.NilZero.string_of_int (Z.to_int n).

(** [RedisCacheBackend.set] (lines 55-60).  [expire] is [None] or an
    [int]; [if expire] is false for [None] and for [0].  redis-py sends
    [setex(key, expire, data)] as [SETEX key expire data] and
    [set(key, data)] as [SET key data], both through [execute_command];
    the awaited value is dropped and the method returns [None]. *)
Definition set_ (key : string) (data : bytes) (expire : option Z)
  : M state (option unit) :=
  let truthy_expire := match expire with Some t => negb (t =? 0) | None => false end in
  r <- (if truthy_expire
        then execute_command
               ["SETEX"; key; str_of_int (match expire with Some t => t | None => 0 end);
                string_of_list_byte data]
        else execute_command ["SET"; key; string_of_list_byte data]) ;;
  ret (match r with Some _ => Some tt | None => None end).

(** [RedisCacheBackend.delete] (lines 62-64): the awaited value of
    [self.redis_client.delete(key)] is dropped, the method returns
    [None]. *)
Definition backend_delete (key : string) : M state (option unit) :=
  r <- delete key ;;
  ret (match r with Some _ => Some tt | None => None end).

(** Whatever the backend does, the loop ends after at most the remaining
    retries, having executed the same command each time and slept the
    backoffs in between. *)
Lemma execute_command_loop_bounded :
  forall (fuel : nat) (args : list string) (s : state),
    (Z.to_nat (_max_retries (self s) - _retry_count (self s)) < fuel)%nat ->
    exists (m : nat) (r : result (option value)) (s' : state),
      execute_command_loop fuel args s = (r, s') /\
      (m <= Z.to_nat (_max_retries (self s) - _retry_count (self s)))%nat /\
      settled r /\
      (r = Ok (Some PyFalse) ->
       m = Z.to_nat (_max_retries (self s) - _retry_count (self s))) /\
      sleeps (trace s') =
        sleeps (trace s) ++ backoff_schedule (_retry_count (self s)) m /\
      execs (trace s') = execs (trace s) ++ repeat args (S m).
Proof.
  induction fuel as [|fuel IH]; intros args s Hfuel; [lia|].
  destruct s as [[rc mx] e0 tr]. cbn [self _retry_count _max_retries trace] in *.
  cbn [execute_command_loop].
  unfold bind at 1. unfold catch, bind at 1, call_super. cbn [env self trace].
  destruct (super_execute_command args e0) as [[v|e] e1].
  - exists O. do 2 eexists. split; [reflexivity|]. cbn [trace].
    split; [lia|]. split; [left; eauto|]. split; [discriminate|].
    rewrite redis_sleeps_app, redis_execs_app. cbn. rewrite !app_nil_r. auto.
  - destruct (isinstance_any e transient) eqn:Hcls.
    + unfold ret at 1.
      unfold bind, get, set_retry_count, emit, sleep, modify.
      cbn [self _retry_count _max_retries env trace].
      destruct (mx <? rc + 1) eqn:Hlt.
      * apply Z.ltb_lt in Hlt.
        exists O. do 2 eexists. split; [reflexivity|]. cbn [trace].
        split; [lia|]. split; [right; left; reflexivity|]. split; [lia|].
        rewrite !redis_sleeps_app, !redis_execs_app. cbn.
        rewrite !app_nil_r. auto.
      * apply Z.ltb_ge in Hlt.
        match goal with |- context [execute_command_loop fuel args ?st] =>
          destruct (IH args st) as (m & r & s' & Hrun & Hm & Hr & Hf & Hsl & Hex) end.
        { cbn. lia. }
        cbn [self _retry_count _max_retries trace] in Hm, Hf, Hsl, Hex.
        exists (S m), r, s'. split; [exact Hrun|].
        split; [lia|]. split; [exact Hr|]. split; [intros H; specialize (Hf H); lia|].
        rewrite backoff_schedule_cons. split.
        -- rewrite Hsl. rewrite !redis_sleeps_app. cbn.
           replace (rc + 1 - 1) with rc by lia.
           rewrite !app_nil_r. rewrite <- app_assoc. reflexivity.
        -- rewrite Hex. rewrite !redis_execs_app. cbn.
           rewrite !app_nil_r. rewrite <- app_assoc. reflexivity.
    + exists O. do 2 eexists. split; [reflexivity|]. cbn [trace].
      split; [lia|]. split; [right; right; eauto|]. split; [discriminate|].
      rewrite redis_sleeps_app, redis_execs_app. cbn. rewrite !app_nil_r. auto.
Qed.

(** Every exception of the redis family is an instance of one of the
    caught classes. *)
Lemma redis_error_is_transient (e : exn) :
  isinstance_any e transient = false -> isinstance e RedisError = false.
Proof.
  unfold transient. cbn [isinstance_any]. 
  intros H. apply Bool.orb_false_iff in H as [_ H].
  apply Bool.orb_false_iff in H as [_ H].
  apply Bool.orb_false_iff in H as [H _]. exact H.
Qed.

(** The loop recovers when the backend replies after [n] failures, as
    long as [n] retries are left. *)
Lemma execute_command_loop_recovers :
  forall (fuel n : nat) (args : list string) (v : Reply) (s : state),
    (n < fuel)%nat ->
    _retry_count (self s) + Z.of_nat n <= _max_retries (self s) ->
    fails_then_replies n (_retry_count (self s)) args v (env s) ->
    exists s',
      execute_command_loop fuel args s = (Ok (Some (Value v)), s') /\
      _retry_count (self s') = _retry_count (self s) + Z.of_nat n /\
      sleeps (trace s') =
        sleeps (trace s) ++ backoff_schedule (_retry_count (self s)) n /\
      execs (trace s') = execs (trace s) ++ repeat args (S n).
Proof.
  induction fuel as [|fuel IH]; intros n args v s Hfuel Hleft Hw; [lia|].
  destruct s as [[rc mx] e0 tr]. cbn [self _retry_count _max_retries trace env] in *.
  cbn [execute_command_loop].
  unfold bind at 1. unfold catch, bind at 1, call_super. cbn [env self trace].
  destruct n as [|n]; cbn [fails_then_replies] in Hw.
  - destruct Hw as (w' & Hcall). rewrite Hcall.
    eexists. split; [reflexivity|]. cbn [self _retry_count trace].
    split; [lia|].
    rewrite redis_sleeps_app, redis_execs_app. cbn. rewrite !app_nil_r. auto.
  - destruct Hw as (e & w' & Hcall & Hcls & Hrest). rewrite Hcall, Hcls.
    unfold ret at 1.
    unfold bind, get, set_retry_count, emit, sleep, modify.
    cbn [self _retry_count _max_retries env trace].
    replace (mx <? rc + 1) with false by (symmetry; apply Z.ltb_ge; lia).
    replace (rc + 1 - 1) with rc by lia.
    match goal with |- context [execute_command_loop fuel args ?st] =>
      destruct (IH n args v st) as (s' & Hrun & Hrc & Hsl & Hex) end.
    + lia.
    + cbn. lia.
    + cbn. exact Hrest.
    + cbn [self _retry_count _max_retries trace] in Hrc, Hsl, Hex.
      exists s'. split; [exact Hrun|]. split; [lia|].
      rewrite backoff_schedule_cons. split.
      * rewrite Hsl. rewrite !redis_sleeps_app. cbn.
        rewrite !app_nil_r. rewrite <- app_assoc. reflexivity.
      * rewrite Hex. rewrite !redis_execs_app. cbn.
        rewrite !app_nil_r. rewrite <- app_assoc. reflexivity.
Qed.

(** [execute_command] resets the counter and enters the loop with enough
    fuel. *)
Lemma execute_command_bounded_aux :
  forall (args : list string) (s : state),
    exists (m : nat) (r : result (option value)) (s' : state),
      execute_command args s = (r, s') /\
      (m <= Z.to_nat (_max_retries (self s)))%nat /\
      settled r /\
      (r = Ok (Some PyFalse) -> m = Z.to_nat (_max_retries (self s))) /\
      sleeps (trace s') = sleeps (trace s) ++ backoff_schedule 0 m /\
      execs (trace s') = execs (trace s) ++ repeat args (S m).
Proof.
  intros args [[rc mx] e0 tr].
  unfold execute_command, bind, set_retry_count, get, modify.
  cbn [self _retry_count _max_retries env trace].
  destruct (execute_command_loop_bounded (S (Z.to_nat mx)) args
              {| self := {| _retry_count := 0; _max_retries := mx |};
                 env := e0; trace := tr |})
    as (m & r & s' & Hrun & Hm & Hr & Hf & Hsl & Hex).
  - cbn. lia.
  - cbn [self _retry_count _max_retries trace] in *.
    rewrite Z.sub_0_r in Hm, Hf. exists m, r, s'. auto 6.
Qed.

(** X1.  Whatever the backend does, one command of the cache client ends:
    it executes the same command [m + 1] times for some
    [m <= _max_retries], sleeps [1, 2, 4, ...] seconds before the [m]
    retries, and ends with the server's reply, with [False] (only after
    all [_max_retries] retries), or with an exception of none of the
    caught classes. *)
Theorem cache_command_retries_are_bounded :
  forall (args : list string) (s : state),
    exists (m : nat) (r : result (option value)) (s' : state),
      execute_command args s = (r, s') /\
      (m <= Z.to_nat (_max_retries (self s)))%nat /\
      settled r /\
      (r = Ok (Some PyFalse) -> m = Z.to_nat (_max_retries (self s))) /\
      sleeps (trace s') = sleeps (trace s) ++ backoff_schedule 0 m /\
      execs (trace s') = execs (trace s) ++ repeat args (S m).
Proof. exact execute_command_bounded_aux. Qed.

(** X2.  A command of the cache client never raises an exception of the
    redis family: what it raises is no instance of [RedisError], of
    redis' [ConnectionError] or of redis' [TimeoutError]. *)
Theorem cache_command_never_raises_redis_error :
  forall (args : list string) (s s' : state) (e : exn),
    execute_command args s = (Raise e, s') ->
    isinstance e RedisError = false /\
    isinstance e RedisConnectionError = false /\
    isinstance e RedisTimeoutError = false.
Proof.
  intros args s s' e Hrun.
  destruct (execute_command_bounded_aux args s)
    as (m & r & s1 & Hrun1 & _ & Hr & _).
  rewrite Hrun in Hrun1. injection Hrun1 as <- <-.
  destruct Hr as [(v & Hv)|[Hf|(e' & He & Hcls)]]; try discriminate.
  injection He as <-.
  unfold transient in Hcls. cbn [isinstance_any] in Hcls.
  apply Bool.orb_false_iff in Hcls as [H1 Hcls].
  apply Bool.orb_false_iff in Hcls as [H2 Hcls].
  apply Bool.orb_false_iff in Hcls as [H3 _]. auto.
Qed.

(** X3.  When the backend fails [n <= _max_retries] times with a caught
    class and then replies, the command returns that reply after [n + 1]
    executions and sleeps of [1, 2, ..., 2^(n-1)] seconds. *)
Theorem cache_command_recovers_within_retries :
  forall (n : nat) (args : list string) (v : Reply) (s : state),
    Z.of_nat n <= _max_retries (self s) ->
    fails_then_replies n 0 args v (env s) ->
    exists s',
      execute_command args s = (Ok (Some (Value v)), s') /\
      _retry_count (self s') = Z.of_nat n /\
      sleeps (trace s') = sleeps (trace s) ++ backoff_schedule 0 n /\
      execs (trace s') = execs (trace s) ++ repeat args (S n).
Proof.
  intros n args v [[rc mx] e0 tr] Hn Hw.
  cbn [self _retry_count _max_retries env trace] in *.
  unfold execute_command, bind, set_retry_count, get, modify.
  cbn [self _retry_count _max_retries env trace].
  destruct (execute_command_loop_recovers (S (Z.to_nat mx)) n args v
              {| self := {| _retry_count := 0; _max_retries := mx |};
                 env := e0; trace := tr |})
    as (s' & Hrun & Hrc & Hsl & Hex).
  - lia.
  - cbn. lia.
  - cbn. exact Hw.
  - cbn [self _retry_count _max_retries trace] in *.
    exists s'. auto.
Qed.

(** X4.  [set] and [delete] of the cache backend hide a redis failure
    from their caller: whatever the backend does, they either return
    [None], the same after a reply as after the retries were used up, or
    raise an exception that is no [RedisError]. *)
Theorem cache_writes_hide_redis_failure :
  forall (key : string) (data : bytes) (expire : option Z) (s : state),
    (exists r s',
       set_ key data expire s = (r, s') /\
       (r = Ok (Some tt) \/
        exists e, r = Raise e /\ isinstance e RedisError = false)) /\
    (exists r s',
       backend_delete key s = (r, s') /\
       (r = Ok (Some tt) \/
        exists e, r = Raise e /\ isinstance e RedisError = false)).
Proof.
  assert (Hdrop : forall args s,
    exists r s',
      (r0 <- execute_command args ;;
       ret (match r0 with Some _ => Some tt | None => None end)) s = (r, s') /\
      (r = Ok (Some tt) \/
       exists e, r = Raise e /\ isinstance e RedisError = false)).
  { intros args s.
    destruct (execute_command_bounded_aux args s)
      as (m & r & s1 & Hrun & _ & Hr & _).
    unfold bind. rewrite Hrun.
    destruct Hr as [(v & ->)|[->|(e & -> & Hcls)]].
    - do 2 eexists. split; [reflexivity|]. left. reflexivity.
    - do 2 eexists. split; [reflexivity|]. left. reflexivity.
    - do 2 eexists. split; [reflexivity|]. right. exists e. split; [reflexivity|].
      apply redis_error_is_transient. exact Hcls. }
  intros key data expire s. split.
  - unfold set_.
    destruct (match expire with Some t => negb (t =? 0) | None => false end);
      apply Hdrop.
  - unfold backend_delete, delete. apply Hdrop.
Qed.


End RetryingRedis.


Definition no_sleep (seconds : Z) (calls : nat) : nat := calls.



(** A call that the client library rejects before it reaches the server. *)
Definition misused (args : list string) (calls : nat)
  : result unit * nat :=
  (Raise (new TypeError), S calls).

(** A server that drops the first two connections and then answers. *)
Definition recovering (args : list string) (calls : nat)
  : result unit * nat :=
  if (calls <? 2)%nat then (Raise (new RedisConnectionError), S calls)
  else (Ok tt, S calls).

(** A [TypeError] of the library leaves the client after one execution. *)
Lemma cache_command_never_raises_redis_error_witness :
  execute_command nat unit misused no_sleep ["GET"]
    {| self := init; env := O; trace := [] |} =
    (Raise (new TypeError),
     {| self := init; env := 1%nat; trace := [Exec ["GET"]] |}) /\
  isinstance (new TypeError) RedisError = false /\
  isinstance (new TypeError) RedisConnectionError = false /\
  isinstance (new TypeError) RedisTimeoutError = false.
Proof.
  split; [reflexivity|].
  apply (cache_command_never_raises_redis_error nat unit misused no_sleep
           ["GET"] {| self := init; env := O; trace := [] |}
           {| self := init; env := 1%nat; trace := [Exec ["GET"]] |}).
  reflexivity.
Defined.

(** Two dropped connections: three executions, sleeps of 1 and 2 seconds,
    then the reply. *)
Lemma cache_command_recovers_within_retries_witness :
  exists s',
    execute_command nat unit recovering no_sleep ["GET"; "user:1"]
      {| self := init; env := O; trace := [] |} = (Ok (Some (Value unit tt)), s') /\
    _retry_count (self nat s') = 2 /\
    sleeps (trace nat s') = [1; 2] /\
    execs (trace nat s') = [["GET"; "user:1"]; ["GET"; "user:1"]; ["GET"; "user:1"]].
Proof.
  apply (cache_command_recovers_within_retries nat unit recovering no_sleep
           2 ["GET"; "user:1"] tt {| self := init; env := O; trace := [] |}).
  - simpl. lia.
  - simpl. repeat (eexists; repeat split).
Defined.


End Cache.

(* ===================================================================== *)
(** ** Producer (src/adapter/services/kafka_producer.py)                 *)
(* ===================================================================== *)

Module Producer.
Section AIOKafkaProducerImplementation.

(** The broker, the connection and the clock. *)
Variable Env : Type.

(** [constant.MAX_RETRY] and [constant.RETRY_DELAY]: the module [constant]
    is not part of the sources, its values are parameters. *)
Variable MAX_RETRY : Z.
Variable RETRY_DELAY : Z.

(** What [AIOKafkaProducer.send] resolves to. *)
Record record_metadata : Type := mkMetadata {
  md_topic : string;
  md_partition : Z;
  md_offset : Z
}.

(** The transport: [AIOKafkaProducer.start], [.stop], and [.send] together
    with the wait for its future. *)
Variable producer_start : Env -> result unit * Env.
Variable producer_stop : Env -> result unit * Env.
Variable producer_send :
  string -> bytes -> option bytes -> Env -> result record_metadata * Env.
(** [datetime.now(tz=timezone.utc)] and the passing of [asyncio.sleep]. *)
Variable now : Env -> datetime * Env.
Variable asyncio_sleep : Z -> Env -> Env.
(** [json.dumps(obj, default=hook)] and [datetime.isoformat]. *)
Variable json_dumps : pyval -> (pyval -> result pyval) -> result string.
Variable isoformat : datetime -> string.

Inductive action : Type :=
| Start
| Stop
| Send (topic : string) (value : bytes) (key : option bytes)
| Sleep (seconds : Z)
| Log (lvl : level) (template : string).

(** Attributes set by [__init__] (lines 48-63). *)
Record producer : Type := mkProducer {
  __topic : string;
  __max_retry : Z;
  __delay : Z;
  __started : bool
}.

Record state : Type := mkState {
  self : producer;
  env : Env;
  trace : list action
}.

Definition init (topic : string) : producer :=
  {| __topic := topic; __max_retry := MAX_RETRY; __delay := RETRY_DELAY;
     __started := false |}.

Definition emit (a : action) : M state unit :=
  modify (fun s => {| self := self s; env := env s; trace := trace s ++ [a] |}).

Definition set_started (b : bool) : M state unit :=
  modify (fun s =>
    {| self := {| __topic := __topic (self s);
                  __max_retry := __max_retry (self s);
                  __delay := __delay (self s);
                  __started := b |};
       env := env s; trace := trace s |}).

(** A call into the outside world, recorded in the trace. *)
Definition call {A} (a : action) (f : Env -> result A * Env) : M state A :=
  fun s =>
    let '(r, env1) := f (env s) in
    (r, {| self := self s; env := env1; trace := trace s ++ [a] |}).

(** [json_serial] (lines 16-20). *)
Definition json_serial (obj : pyval) : result pyval :=
  match obj with
  | PDatetime t => Ok (PStr (isoformat t))
  | _ => Raise (new TypeError)
  end.

(** [start] (lines 65-70). *)
Definition start : M state unit :=
  s <- get ;;
  if negb (__started (self s)) then
    call Start producer_start ;;;
    set_started true ;;;
    emit (Log INFO "Kafka producer started")
  else ret tt.

(** [stop] (lines 72-77). *)
Definition stop : M state unit :=
  s <- get ;;
  if __started (self s) then
    call Stop producer_stop ;;;
    set_started false ;;;
    emit (Log INFO "Kafka producer stopped")
  else ret tt.

(** The envelope built at lines 106-110. *)
Definition envelope (event_type : option string)
  (payload : option (list (string * pyval))) (issued_at : datetime) : pyval :=
  PDict [("event_type", PStr (match event_type with
                              | Some t => if String.eqb t "" then "" else t
                              | None => ""
                              end));
         ("payload", PDict (match payload with
                            | Some (kv :: d) => kv :: d
                            | _ => []
                            end));
         ("issued_at", PDatetime issued_at)].

(** [key.encode("utf-8") if key else None] (line 112); the encoding
    raises [UnicodeEncodeError] on a key that holds a lone surrogate. *)
Definition key_formatted (key : option string) : result (option bytes) :=
  match key with
  | Some k =>
      if String.eqb k "" then Ok None
      else match utf8_encode k with
           | Ok b => Ok (Some b)
           | Raise e => Raise e
           end
  | None => Ok None
  end.

(** The classes of the first [except] clause (line 134). *)
Definition transient : list builtin :=
  [KafkaTimeoutError; KafkaConnectionError; ConnectionResetError].

(** The body of the [try] (lines 115-132). *)
Definition send_once (message : pyval) (key : option bytes) : M state unit :=
  s <- get ;;
  match json_dumps message json_serial with
  | Raise e => raise e
  | Ok text =>
      let message_value := list_byte_of_string text in
      call (Send (__topic (self s)) message_value key)
           (producer_send (__topic (self s)) message_value key) ;;;
      emit (Log DEBUG "Message sent to topic %s partition %d offset %d")
  end.

(** The [while True] loop of [publish] (lines 105-152); [None] when [fuel]
    iterations were not enough.  The key is encoded in every turn, before
    the [try]: an error of the encoding leaves [publish] as it is.  The
    text of [json.dumps] is ASCII ([ensure_ascii] is left at its default),
    so its encoding at line 115 does not fail. *)
Fixpoint publish_loop (fuel : nat) (event_type : option string)
  (payload : option (list (string * pyval))) (key : option string)
  (issued_at : datetime) (retry_count : Z) : M state (option unit) :=
  match fuel with
  | O => ret None
  | S fuel' =>
      let message := envelope event_type payload issued_at in
      match key_formatted key with
      | Raise e => raise e
      | Ok key_formatted =>
          r <- attempt (send_once message key_formatted) ;;
          match r with
          | Ok _ => ret (Some tt)
          | Raise e =>
              s <- get ;;
              if isinstance_any e transient then
                if __max_retry (self s) <=? retry_count then
                  emit (Log ERROR "Send message failed after %d retries - %s - %s") ;;;
                  raise (new_from KafkaPublishMessageFailed e)
                else
                  emit (Log WARNING "Send message failed - %s - %s") ;;;
                  let retry_count := retry_count + 1 in
                  emit (Log WARNING "Retry %d/%d in %d seconds for message - %s") ;;;
                  call (Sleep (__delay (self s)))
                       (fun w => (Ok tt, asyncio_sleep (__delay (self s)) w)) ;;;
                  publish_loop fuel' event_type payload key issued_at retry_count
              else
                emit (Log ERROR "Send message failed with unexpected error - %s - %s") ;;;
                raise (new_from KafkaPublishMessageFailed e)
          end
      end
  end.

(** [publish] (lines 79-152).  The loop runs at most [__max_retry + 1]
    times, see [publish_loop_fuel]. *)
Definition publish (event_type : option string)
  (payload : option (list (string * pyval))) (key : option string)
  (issued_at : option datetime) : M state (option unit) :=
  s <- get ;;
  (if negb (__started (self s)) then start else ret tt) ;;;
  let retry_count := 0 in
  issued_at <- match issued_at with
               | Some t => ret t
               | None => fun s =>
                   let '(t, env1) := now (env s) in
                   (Ok t, {| self := self s; env := env1; trace := trace s |})
               end ;;
  s <- get ;;
  publish_loop (S (Z.to_nat (__max_retry (self s))))
    event_type payload key issued_at retry_count.

Definition sends (tr : list action) : list (string * bytes * option bytes) :=
  flat_map (fun a => match a with Send t v k => [(t, v, k)] | _ => [] end) tr.

Definition sleeps (tr : list action) : list Z :=
  flat_map (fun a => match a with Sleep d => [d] | _ => [] end) tr.

(** The send fails with one of the retried classes whatever is sent and
    whatever state the broker is in. *)
Definition always_transient : Prop :=
  forall topic value key w, exists x w',
    producer_send topic value key w = (Raise x, w') /\
    isinstance_any x transient = true.

(** From the broker state [w], the next [n] sends of the same record fail
    with a retried class (a sleep of [delay] follows each), and the one
    after them is acknowledged. *)
Fixpoint fails_then_succeeds (n : nat) (delay : Z) (topic : string)
  (value : bytes) (key : option bytes) (w : Env) : Prop :=
  match n with
  | O => exists md w', producer_send topic value key w = (Ok md, w')
  | S n' =>
      exists x w',
        producer_send topic value key w = (Raise x, w') /\
        isinstance_any x transient = true /\
        fails_then_succeeds n' delay topic value key (asyncio_sleep delay w')
  end.

(** The broker state in which [publish] makes its first send: after the
    lazy start and after the clock was read for a missing [issued_at]. *)
Definition at_first_send (s : state) (issued_at : option datetime)
  (t : datetime) (w : Env) : Prop :=
  exists w1,
    ((__started (self s) = true /\ w1 = env s) \/
     (__started (self s) = false /\ producer_start (env s) = (Ok tt, w1))) /\
    match issued_at with
    | Some t0 => t = t0 /\ w = w1
    | None => now w1 = (t, w)
    end.

(** *** Properties of the publish loop *)

Ltac mrun :=
  repeat progress
    (unfold bind, attempt, catch, ret, raise, get, modify, emit, call,
       set_started in *;
     cbn [self env trace __topic __max_retry __delay __started fst snd negb]
       in *).

Lemma kafka_sends_app (a b : list action) : sends (a ++ b) = sends a ++ sends b.
Proof. unfold sends. apply flat_map_app. Qed.

Lemma kafka_sleeps_app (a b : list action) : sleeps (a ++ b) = sleeps a ++ sleeps b.
Proof. unfold sleeps. apply flat_map_app. Qed.

Lemma repeat_snoc {A} (x : A) (n : nat) : repeat x n ++ [x] = x :: repeat x n.
Proof. induction n as [|n IH]; cbn; [reflexivity|]. rewrite IH. reflexivity. Qed.


(** The fuel [publish] passes to its loop is enough whatever the broker
    does: the loop returns or raises, it never runs out. *)
Lemma publish_loop_fuel :
  forall (fuel : nat) event_type payload key issued_at (c : Z) (s : state),
    (Z.to_nat (__max_retry (self s) - c) < fuel)%nat ->
    fst (publish_loop fuel event_type payload key issued_at c s) <> Ok None.
Proof.
  induction fuel as [|fuel IH];
    intros event_type payload key issued_at c s Hfuel; [lia|].
  destruct s as [[topic mx delay started] w tr]. mrun.
  cbn [publish_loop].
  destruct (key_formatted key) as [kf|e]; [|cbn; discriminate].
  unfold send_once. mrun.
  destruct (json_dumps _ json_serial) as [text|e]; mrun.
  - destruct (producer_send _ _ _ w) as [[md|e] w']; mrun.
    + discriminate.
    + destruct (isinstance_any e transient); mrun; [|discriminate].
      destruct (mx <=? c) eqn:Hle; mrun; [discriminate|].
      apply Z.leb_gt in Hle. apply IH. cbn. lia.
  - destruct (isinstance_any e transient); mrun; [|discriminate].
    destruct (mx <=? c) eqn:Hle; mrun; [discriminate|].
    apply Z.leb_gt in Hle. apply IH. cbn. lia.
Qed.

(** With [c] retries already made and [n] failures ahead that the retry
    budget covers, the loop returns after [n + 1] sends of the same record
    and [n] sleeps of the fixed delay. *)
Lemma publish_loop_recovers :
  forall (n fuel : nat) event_type payload key issued_at text kf (c : Z)
         (s : state),
    json_dumps (envelope event_type payload issued_at) json_serial = Ok text ->
    key_formatted key = Ok kf ->
    fails_then_succeeds n (__delay (self s)) (__topic (self s))
      (list_byte_of_string text) kf (env s) ->
    c + Z.of_nat n <= __max_retry (self s) ->
    (n < fuel)%nat ->
    exists s',
      publish_loop fuel event_type payload key issued_at c s =
        (Ok (Some tt), s') /\
      sends (trace s') =
        sends (trace s) ++
        repeat (__topic (self s), list_byte_of_string text, kf)
               (S n) /\
      sleeps (trace s') = sleeps (trace s) ++ repeat (__delay (self s)) n.
Proof.
  induction n as [|n IH];
    intros fuel event_type payload key issued_at text kf c s Hdumps Hkey Hsched
           Hc Hfuel;
    (destruct fuel as [|fuel]; [lia|]);
    destruct s as [[topic mx delay started] w tr]; mrun;
    cbn [fails_then_succeeds] in Hsched.
  - destruct Hsched as (md & w' & Hsend).
    cbn [publish_loop]. rewrite Hkey. unfold send_once. mrun.
    rewrite Hdumps. mrun. rewrite Hsend. mrun.
    eexists. split; [reflexivity|]. cbn [trace repeat].
    rewrite !kafka_sends_app, !kafka_sleeps_app. cbn. rewrite !app_nil_r.
    split; reflexivity.
  - destruct Hsched as (x & w' & Hsend & Hcls & Hrest).
    cbn [publish_loop]. rewrite Hkey. unfold send_once. mrun.
    rewrite Hdumps. mrun. rewrite Hsend. mrun. rewrite Hcls. mrun.
    assert (Hle : (mx <=? c) = false) by (apply Z.leb_gt; lia).
    rewrite Hle. mrun.
    match goal with |- context [publish_loop fuel _ _ _ _ _ ?st] =>
      destruct (IH fuel event_type payload key issued_at text kf (c + 1) st
                  Hdumps Hkey)
        as (s' & Hrun & Hse & Hsl) end.
    + exact Hrest.
    + cbn. lia.
    + lia.
    + cbn [self __topic __max_retry __delay trace] in Hse, Hsl.
      exists s'. split; [exact Hrun|]. split.
      * rewrite Hse. rewrite !kafka_sends_app. cbn. rewrite !app_nil_r.
        rewrite <- app_assoc. reflexivity.
      * rewrite Hsl. rewrite !kafka_sleeps_app. cbn. rewrite !app_nil_r.
        rewrite <- app_assoc. reflexivity.
Qed.

(** [publish] up to its loop: the lazy start and the clock read add no
    send and no sleep and leave the configuration as it was. *)
Lemma publish_enters_loop :
  forall event_type payload key issued_at (s : state) t w,
    at_first_send s issued_at t w ->
    exists s1,
      publish event_type payload key issued_at s =
        publish_loop (S (Z.to_nat (__max_retry (self s))))
          event_type payload key t 0 s1 /\
      env s1 = w /\
      __topic (self s1) = __topic (self s) /\
      __max_retry (self s1) = __max_retry (self s) /\
      __delay (self s1) = __delay (self s) /\
      sends (trace s1) = sends (trace s) /\
      sleeps (trace s1) = sleeps (trace s).
Proof.
  intros event_type payload key issued_at [[topic mx delay started] w0 tr] t w
         (w1 & Hstart & Hclock).
  mrun. unfold publish, start. mrun.
  destruct Hstart as [[Hs Hw]|[Hs Hw]]; subst started; mrun.
  - subst w1. destruct issued_at as [t0|]; mrun.
    + destruct Hclock as [-> ->]. eexists. split; [reflexivity|].
      cbn. repeat split; reflexivity.
    + rewrite Hclock. mrun. eexists. split; [reflexivity|].
      cbn. repeat split; reflexivity.
  - rewrite Hw. mrun. destruct issued_at as [t0|]; mrun.
    + destruct Hclock as [-> ->]. eexists. split; [reflexivity|].
      cbn [self env trace __topic __max_retry __delay].
      rewrite !kafka_sends_app, !kafka_sleeps_app. cbn. rewrite !app_nil_r.
      repeat split; reflexivity.
    + rewrite Hclock. mrun. eexists. split; [reflexivity|].
      cbn [self env trace __topic __max_retry __delay].
      rewrite !kafka_sends_app, !kafka_sleeps_app. cbn. rewrite !app_nil_r.
      repeat split; reflexivity.
Qed.

(** [publish] never runs out of fuel. *)
Lemma publish_fuel :
  forall event_type payload key issued_at (s : state),
    fst (publish event_type payload key issued_at s) <> Ok None.
Proof.
  intros event_type payload key issued_at [[topic mx delay started] w tr].
  unfold publish, start. mrun.
  destruct started; mrun.
  - destruct issued_at as [t|]; mrun.
    + apply publish_loop_fuel. cbn. lia.
    + destruct (now w) as [t w1]. mrun. apply publish_loop_fuel. cbn. lia.
  - destruct (producer_start w) as [[u|e] w1]; mrun; [|discriminate].
    destruct issued_at as [t|]; mrun.
    + apply publish_loop_fuel. cbn. lia.
    + destruct (now w1) as [t w2]. mrun. apply publish_loop_fuel. cbn. lia.
Qed.


(** C6 (amended).  When the first [N] sends fail with a timeout, connection or
    connection-reset error and the next one is acknowledged, with
    [N < __max_retry], [publish] returns; it slept [N] times, each time the
    fixed delay, and all [N + 1] sends carried the same record: the
    serialised envelope of [event_type], [payload] and the [issued_at]
    fixed on entry, under the same key.  The producer is started or
    starts, the envelope serialises, and the key is missing, empty or
    encodes as UTF-8. *)
Theorem publish_returns_after_transient_failures :
  forall (N : nat) event_type payload key issued_at (s : state) t w text kf,
    at_first_send s issued_at t w ->
    json_dumps (envelope event_type payload t) json_serial = Ok text ->
    key_formatted key = Ok kf ->
    fails_then_succeeds N (__delay (self s)) (__topic (self s))
      (list_byte_of_string text) kf w ->
    Z.of_nat N < __max_retry (self s) ->
    exists s',
      publish event_type payload key issued_at s = (Ok (Some tt), s') /\
      sleeps (trace s') = sleeps (trace s) ++ repeat (__delay (self s)) N /\
      sends (trace s') =
        sends (trace s) ++
        repeat (__topic (self s), list_byte_of_string text, kf)
               (S N).
Proof.
  intros N event_type payload key issued_at s t w text kf Hfirst Hdumps Hkey
         Hsched HN.
  destruct (publish_enters_loop event_type payload key issued_at s t w Hfirst)
    as (s1 & Hpub & Henv & Htopic & Hmx & Hdelay & Hse & Hsl).
  destruct (publish_loop_recovers N (S (Z.to_nat (__max_retry (self s))))
              event_type payload key t text kf 0 s1 Hdumps Hkey)
    as (s' & Hrun & Hse' & Hsl').
  - rewrite Henv, Htopic, Hdelay. exact Hsched.
  - rewrite Hmx. lia.
  - lia.
  - rewrite Htopic, Hdelay, Hse, Hsl in *.
    exists s'. rewrite Hpub. auto.
Qed.

(** *** The publish loop against any broker *)

(** Whatever the broker answers, the loop ends after at most the retries
    that are left: every send carries the same record, a sleep of the
    fixed delay lies between two sends, and the loop returns or raises
    [KafkaPublishMessageFailed]; it gives up on a retried class only when
    no retry is left. *)
Lemma publish_loop_bounded :
  forall (fuel : nat) event_type payload key issued_at text kf (c : Z)
         (s : state),
    json_dumps (envelope event_type payload issued_at) json_serial = Ok text ->
    key_formatted key = Ok kf ->
    (Z.to_nat (__max_retry (self s) - c) < fuel)%nat ->
    exists (m : nat) (r : result (option unit)) (s' : state),
      publish_loop fuel event_type payload key issued_at c s = (r, s') /\
      (m <= Z.to_nat (__max_retry (self s) - c))%nat /\
      (r = Ok (Some tt) \/
       exists x, r = Raise (new_from KafkaPublishMessageFailed x) /\
                 (isinstance_any x transient = true ->
                  m = Z.to_nat (__max_retry (self s) - c))) /\
      self s' = self s /\
      sends (trace s') =
        sends (trace s) ++
        repeat (__topic (self s), list_byte_of_string text, kf)
               (S m) /\
      sleeps (trace s') = sleeps (trace s) ++ repeat (__delay (self s)) m.
Proof.
  induction fuel as [|fuel IH];
    intros event_type payload key issued_at text kf c s Hdumps Hkey Hfuel;
    [lia|].
  destruct s as [[topic mx delay started] w tr]. mrun.
  cbn [publish_loop]. rewrite Hkey. unfold send_once. mrun.
  rewrite Hdumps. mrun.
  destruct (producer_send topic (list_byte_of_string text) kf w)
    as [[md|x] w'] eqn:Hsend; mrun.
  - exists O. do 2 eexists. split; [reflexivity|]. split; [lia|].
    split; [left; reflexivity|]. split; [reflexivity|].
    cbn [trace repeat]. rewrite !kafka_sends_app, !kafka_sleeps_app. cbn.
    rewrite !app_nil_r. split; reflexivity.
  - destruct (isinstance_any x transient) eqn:Hcls; mrun.
    + destruct (mx <=? c) eqn:Hle; mrun.
      * apply Z.leb_le in Hle.
        exists O. do 2 eexists. split; [reflexivity|]. split; [lia|].
        split; [right; exists x; split; [reflexivity|intros _; lia]|].
        split; [reflexivity|].
        cbn [trace repeat]. rewrite !kafka_sends_app, !kafka_sleeps_app. cbn.
        rewrite !app_nil_r. split; reflexivity.
      * apply Z.leb_gt in Hle.
        match goal with |- context [publish_loop fuel _ _ _ _ _ ?st] =>
          destruct (IH event_type payload key issued_at text kf (c + 1) st Hdumps
                      Hkey)
            as (m & r & s' & Hrun & Hm & Hr & Hself & Hse & Hsl) end.
        { cbn. lia. }
        cbn [self __topic __max_retry __delay trace] in Hm, Hr, Hself, Hse, Hsl.
        exists (S m), r, s'. split; [exact Hrun|]. split; [lia|].
        split.
        { destruct Hr as [Hr|(x' & Hr & Hx')]; [left; exact Hr|].
          right. exists x'. split; [exact Hr|]. intros H. specialize (Hx' H). lia. }
        split; [exact Hself|]. split.
        -- rewrite Hse. rewrite !kafka_sends_app. cbn. rewrite !app_nil_r.
           rewrite <- app_assoc. reflexivity.
        -- rewrite Hsl. rewrite !kafka_sleeps_app. cbn. rewrite !app_nil_r.
           rewrite <- app_assoc. reflexivity.
    + exists O. do 2 eexists. split; [reflexivity|]. split; [lia|].
      split; [right; exists x; split; [reflexivity|congruence]|].
      split; [reflexivity|].
      cbn [trace repeat]. rewrite !kafka_sends_app, !kafka_sleeps_app. cbn.
      rewrite !app_nil_r. split; reflexivity.
Qed.

(** X5.  On a producer that is started or starts, with an envelope that
    serialises and a key that is missing, empty or encodes as UTF-8:
    whatever the broker answers to the sends, [publish] ends after at most
    [__max_retry + 1] sends: all of them carry the same record, a sleep of
    the fixed delay lies between two of them, and the call returns or
    raises [KafkaPublishMessageFailed]; when it gives up on a timeout,
    connection or connection-reset error, all [__max_retry] retries were
    made. *)
Theorem publish_stays_within_retry_budget :
  forall event_type payload key issued_at (s : state) t w text kf,
    at_first_send s issued_at t w ->
    json_dumps (envelope event_type payload t) json_serial = Ok text ->
    key_formatted key = Ok kf ->
    exists (m : nat) (r : result (option unit)) (s' : state),
      publish event_type payload key issued_at s = (r, s') /\
      (m <= Z.to_nat (__max_retry (self s)))%nat /\
      (r = Ok (Some tt) \/
       exists x, r = Raise (new_from KafkaPublishMessageFailed x) /\
                 (isinstance_any x transient = true ->
                  m = Z.to_nat (__max_retry (self s)))) /\
      sends (trace s') =
        sends (trace s) ++
        repeat (__topic (self s), list_byte_of_string text, kf)
               (S m) /\
      sleeps (trace s') = sleeps (trace s) ++ repeat (__delay (self s)) m.
Proof.
  intros event_type payload key issued_at s t w text kf Hfirst Hdumps Hkey.
  destruct (publish_enters_loop event_type payload key issued_at s t w Hfirst)
    as (s1 & Hpub & _ & Htopic & Hmx & Hdelay & Hse & Hsl).
  destruct (publish_loop_bounded (S (Z.to_nat (__max_retry (self s))))
              event_type payload key t text kf 0 s1 Hdumps Hkey)
    as (m & r & s' & Hrun & Hm & Hr & _ & Hse' & Hsl').
  - rewrite Hmx, Z.sub_0_r. lia.
  - rewrite Hmx, Z.sub_0_r, Htopic, Hdelay, Hse, Hsl in *.
    exists m, r, s'. rewrite Hpub. auto 6.
Qed.

(** X6.  The last retry counts.  On a producer that is started or
    starts, with an envelope that serialises and a key that is missing,
    empty or encodes as UTF-8: when the first [N <= __max_retry] sends
    fail with a retried class and the next one is acknowledged, [publish]
    returns after [N + 1] sends and [N] sleeps. *)
Theorem publish_returns_when_the_last_retry_succeeds :
  forall (N : nat) event_type payload key issued_at (s : state) t w text kf,
    at_first_send s issued_at t w ->
    json_dumps (envelope event_type payload t) json_serial = Ok text ->
    key_formatted key = Ok kf ->
    fails_then_succeeds N (__delay (self s)) (__topic (self s))
      (list_byte_of_string text) kf w ->
    Z.of_nat N <= __max_retry (self s) ->
    exists s',
      publish event_type payload key issued_at s = (Ok (Some tt), s') /\
      sleeps (trace s') = sleeps (trace s) ++ repeat (__delay (self s)) N /\
      sends (trace s') =
        sends (trace s) ++
        repeat (__topic (self s), list_byte_of_string text, kf)
               (S N).
Proof.
  intros N event_type payload key issued_at s t w text kf Hfirst Hdumps Hkey
         Hsched HN.
  destruct (publish_enters_loop event_type payload key issued_at s t w Hfirst)
    as (s1 & Hpub & Henv & Htopic & Hmx & Hdelay & Hse & Hsl).
  destruct (publish_loop_recovers N (S (Z.to_nat (__max_retry (self s))))
              event_type payload key t text kf 0 s1 Hdumps Hkey)
    as (s' & Hrun & Hse' & Hsl').
  - rewrite Henv, Htopic, Hdelay. exact Hsched.
  - rewrite Hmx. lia.
  - lia.
  - rewrite Htopic, Hdelay, Hse, Hsl in *.
    exists s'. rewrite Hpub. auto.
Qed.

(** X7.  A send error of none of the retried classes is not retried.
    On a producer that is started or starts, with an envelope that
    serialises and a key that is missing, empty or encodes as UTF-8: when
    the first send raises such an error, [publish] raises
    [KafkaPublishMessageFailed] from it after this one send, without a
    sleep. *)
Theorem publish_wraps_unexpected_error_without_retry :
  forall event_type payload key issued_at (s : state) t w text kf x w',
    at_first_send s issued_at t w ->
    json_dumps (envelope event_type payload t) json_serial = Ok text ->
    key_formatted key = Ok kf ->
    producer_send (__topic (self s)) (list_byte_of_string text)
      kf w = (Raise x, w') ->
    isinstance_any x transient = false ->
    exists s',
      publish event_type payload key issued_at s =
        (Raise (new_from KafkaPublishMessageFailed x), s') /\
      env s' = w' /\
      sends (trace s') =
        sends (trace s) ++
        [(__topic (self s), list_byte_of_string text, kf)] /\
      sleeps (trace s') = sleeps (trace s).
Proof.
  intros event_type payload key issued_at s t w text kf x w' Hfirst Hdumps Hkey
         Hsend Hcls.
  destruct (publish_enters_loop event_type payload key issued_at s t w Hfirst)
    as (s1 & Hpub & Henv & Htopic & Hmx & Hdelay & Hse & Hsl).
  rewrite Hpub. destruct s1 as [[topic1 mx1 delay1 started1] w1 tr1]. mrun.
  subst w1 topic1. cbn [publish_loop]. rewrite Hkey. unfold send_once. mrun.
  rewrite Hdumps. mrun. rewrite Hsend. mrun. rewrite Hcls. mrun.
  eexists. split; [reflexivity|]. cbn [env trace].
  rewrite !kafka_sends_app, !kafka_sleeps_app, Hse, Hsl. cbn.
  rewrite !app_nil_r. auto.
Qed.

(** X8.  An envelope that does not serialise is never sent.  On a
    producer that is started or starts, with a key that is missing, empty
    or encodes as UTF-8: when [json.dumps] raises an error of none of the
    retried classes (as its [TypeError] and [ValueError] are), [publish]
    raises [KafkaPublishMessageFailed] from that error, without a send and
    without a sleep. *)
Theorem publish_rejects_unserialisable_message :
  forall event_type payload key issued_at (s : state) t w e kf,
    at_first_send s issued_at t w ->
    key_formatted key = Ok kf ->
    json_dumps (envelope event_type payload t) json_serial = Raise e ->
    isinstance_any e transient = false ->
    exists s',
      publish event_type payload key issued_at s =
        (Raise (new_from KafkaPublishMessageFailed e), s') /\
      env s' = w /\
      sends (trace s') = sends (trace s) /\
      sleeps (trace s') = sleeps (trace s).
Proof.
  intros event_type payload key issued_at s t w e kf Hfirst Hkey Hdumps Hcls.
  destruct (publish_enters_loop event_type payload key issued_at s t w Hfirst)
    as (s1 & Hpub & Henv & Htopic & Hmx & Hdelay & Hse & Hsl).
  rewrite Hpub. destruct s1 as [[topic1 mx1 delay1 started1] w1 tr1]. mrun.
  subst w1. cbn [publish_loop]. rewrite Hkey. unfold send_once. mrun.
  rewrite Hdumps. mrun. rewrite Hcls. mrun.
  eexists. split; [reflexivity|]. cbn [env trace].
  rewrite !kafka_sends_app, !kafka_sleeps_app, Hse, Hsl. cbn.
  rewrite !app_nil_r. auto.
Qed.

(** X9.  When the lazy start of an unstarted producer fails, [publish]
    raises that error as it is, not wrapped in
    [KafkaPublishMessageFailed]; nothing is sent and the producer stays
    unstarted, so that the next [publish] starts it again. *)
Theorem publish_start_failure_is_not_wrapped :
  forall event_type payload key issued_at (s : state) e w',
    __started (self s) = false ->
    producer_start (env s) = (Raise e, w') ->
    publish event_type payload key issued_at s =
      (Raise e, {| self := self s; env := w'; trace := trace s ++ [Start] |}).
Proof.
  intros event_type payload key issued_at [[topic mx delay started] w tr] e w'
         Hs Hstart.
  mrun. subst started. unfold publish, start. mrun. rewrite Hstart. mrun.
  reflexivity.
Qed.

(** X10.  [start] and [stop] are idempotent: two calls in a row behave
    as one, so that the transport is started, or stopped, once. *)
Theorem producer_start_stop_idempotent :
  forall s : state,
    (start ;;; start) s = start s /\ (stop ;;; stop) s = stop s.
Proof.
  intros [[topic mx delay started] w tr]. unfold start, stop. mrun.
  destruct started; mrun.
  - split; [reflexivity|].
    destruct (producer_stop w) as [[u|e] w1]; mrun; reflexivity.
  - split; [|reflexivity].
    destruct (producer_start w) as [[u|e] w1]; mrun; reflexivity.
Qed.


(** The loop depends on the event type and the payload through the
    envelope, and on the key through its encoding. *)
Lemma publish_loop_ext :
  forall (fuel : nat) event_type payload key event_type' payload' key'
         issued_at (c : Z) (s : state),
    envelope event_type payload issued_at =
      envelope event_type' payload' issued_at ->
    key_formatted key = key_formatted key' ->
    publish_loop fuel event_type payload key issued_at c s =
      publish_loop fuel event_type' payload' key' issued_at c s.
Proof.
  induction fuel as [|fuel IH];
    intros event_type payload key event_type' payload' key' issued_at c s
           Henv Hkey; [reflexivity|].
  cbn [publish_loop]. rewrite Henv, Hkey.
  destruct (key_formatted key') as [kf|e0] eqn:Hkey'; [|reflexivity]. mrun.
  destruct (send_once _ _ s) as [[u|e] s1]; mrun; [reflexivity|].
  destruct (isinstance_any e transient); mrun; [|reflexivity].
  destruct (__max_retry (self s1) <=? c); mrun; [reflexivity|].
  apply IH; [assumption|congruence].
Qed.

(** X26.  A missing event type, payload or key is published as an empty
    one: [publish(None, None, None)] sends what
    [publish("", {}, "")] sends, an envelope with the event type [""]
    and the payload [{}], without a key. *)
Theorem publish_treats_missing_as_empty :
  forall (issued_at : option datetime) (s : state),
    publish None None None issued_at s =
      publish (Some "") (Some []) (Some "") issued_at s /\
    (forall t, envelope None None t =
               PDict [("event_type", PStr ""); ("payload", PDict []);
                      ("issued_at", PDatetime t)]) /\
    key_formatted None = Ok None.
Proof.
  intros issued_at [[topic mx delay started] w tr]. split; [|split; reflexivity].
  unfold publish, start. mrun.
  destruct started; mrun.
  - destruct issued_at as [t|]; mrun.
    + apply publish_loop_ext; reflexivity.
    + destruct (now w) as [t w1]. mrun. apply publish_loop_ext; reflexivity.
  - destruct (producer_start w) as [[u|e] w1]; mrun; [|reflexivity].
    destruct issued_at as [t|]; mrun.
    + apply publish_loop_ext; reflexivity.
    + destruct (now w1) as [t w2]. mrun. apply publish_loop_ext; reflexivity.
Qed.



(** The only error of the key's encoding. *)
Lemma key_formatted_raises (key : option string) (e : exn) :
  key_formatted key = Raise e -> e = new UnicodeEncodeError.
Proof.
  unfold key_formatted, utf8_encode. destruct key as [k|]; [|discriminate].
  destruct (String.eqb k ""); [discriminate|].
  destruct (utf8_valid (list_byte_of_string k)); [discriminate|].
  intros H. injection H as <-. reflexivity.
Qed.

(** X27.  A key that does not encode as UTF-8 is met before the [try]:
    on a producer that is started or starts, [publish] raises the
    [UnicodeEncodeError] of the encoding as it is, not wrapped in
    [KafkaPublishMessageFailed], without a send and without a sleep,
    whatever the envelope and the broker. *)
Theorem publish_raises_encoding_error_of_the_key :
  forall event_type payload key issued_at (s : state) t w e,
    at_first_send s issued_at t w ->
    key_formatted key = Raise e ->
    exists s',
      publish event_type payload key issued_at s = (Raise e, s') /\
      e = new UnicodeEncodeError /\
      env s' = w /\
      sends (trace s') = sends (trace s) /\
      sleeps (trace s') = sleeps (trace s).
Proof.
  intros event_type payload key issued_at s t w e Hfirst Hkey.
  destruct (publish_enters_loop event_type payload key issued_at s t w Hfirst)
    as (s1 & Hpub & Henv & Htopic & Hmx & Hdelay & Hse & Hsl).
  rewrite Hpub. cbn [publish_loop]. rewrite Hkey.
  exists s1. split; [reflexivity|].
  split; [exact (key_formatted_raises _ _ Hkey)|]. auto.
Qed.

End AIOKafkaProducerImplementation.

(** *** Concrete brokers for the examples *)

(** Stands for [json.dumps] in the examples, which do not depend on the
    text it returns. *)
Definition stub_dumps (v : pyval) (hook : pyval -> result pyval)
  : result string := Ok "{}".

Definition stub_isoformat (t : datetime) : string := "1970-01-01T00:00:00".

(** A broker that counts the sends it receives, and a clock that stands
    still. *)
Definition broker_start (w : nat) : result unit * nat := (Ok tt, w).
Definition clock (w : nat) : datetime * nat := (0, w).
Definition no_sleep (d : Z) (w : nat) : nat := w.


(** Drops the connection for the first [k] sends, then acknowledges. *)
Definition flaky (k : nat) (topic : string) (value : bytes)
  (key : option bytes) (w : nat) : result record_metadata * nat :=
  if (w <? k)%nat then (Raise (new KafkaConnectionError), S w)
  else (Ok {| md_topic := topic; md_partition := 0; md_offset := Z.of_nat w |},
        S w).

(** A producer as [__init__] builds it with [MAX_RETRY = 3] and
    [RETRY_DELAY = 1], before its first use. *)
Definition fresh : state nat :=
  {| self := init 3 1 "events"; env := O; trace := [] |}.

Definition payload_u1 : option (list (string * pyval)) :=
  Some [("id", PStr "u1")].




Lemma publish_returns_after_transient_failures_witness :
  exists s',
    publish nat broker_start (flaky 2) clock no_sleep stub_dumps
      stub_isoformat (Some "user.created") payload_u1 (Some "u1") None fresh =
      (Ok (Some tt), s') /\
    sleeps (trace nat s') = [1; 1] /\
    sends (trace nat s') =
      repeat ("events", list_byte_of_string "{}",
              Some (list_byte_of_string "u1")) 3.
Proof.
  destruct (publish_returns_after_transient_failures nat broker_start
              (flaky 2) clock no_sleep stub_dumps stub_isoformat
              2 (Some "user.created") payload_u1 (Some "u1") None fresh
              0 O "{}" (Some (list_byte_of_string "u1")))
    as (s' & Hrun & Hsl & Hse).
  - exists O. split; [right; split; reflexivity | reflexivity].
  - reflexivity.
  - reflexivity.
  - simpl. do 2 eexists. split; [reflexivity|]. split; [reflexivity|].
    do 2 eexists. split; [reflexivity|]. split; [reflexivity|].
    do 2 eexists. reflexivity.
  - simpl. lia.
  - exists s'. split; [exact Hrun|]. rewrite Hsl, Hse. split; reflexivity.
Defined.

(** A broker that refuses the record: [KafkaError] is none of the retried
    classes. *)
Definition refusing (topic : string) (value : bytes) (key : option bytes)
  (w : nat) : result record_metadata * nat :=
  (Raise (new KafkaError), S w).

(** No broker to connect to. *)
Definition start_refused (w : nat) : result unit * nat :=
  (Raise (new KafkaConnectionError), w).

(** Stands for [json.dumps] on an envelope that holds a [bytes] value:
    the hook is asked for it. *)
Definition dumps_bytes (v : pyval) (hook : pyval -> result pyval)
  : result string :=
  match hook (PBytes []) with
  | Ok _ => Ok "{}"
  | Raise e => Raise e
  end.

Lemma fresh_at_first_send (start_ : nat -> result unit * nat) :
  start_ O = (Ok tt, O) ->
  at_first_send nat start_ clock fresh None 0 O.
Proof.
  intros H. exists O. split; [right; split; [reflexivity|exact H] | reflexivity].
Qed.

(** With [MAX_RETRY = 3] and a broker that fails five times in a row. *)
Lemma publish_stays_within_retry_budget_witness :
  exists (m : nat) (r : result (option unit)) (s' : state nat),
    publish nat broker_start (flaky 5) clock no_sleep stub_dumps
      stub_isoformat (Some "user.created") payload_u1 (Some "u1") None fresh =
      (r, s') /\
    (m <= 3)%nat /\
    (r = Ok (Some tt) \/
     exists x, r = Raise (new_from KafkaPublishMessageFailed x) /\
               (isinstance_any x transient = true -> m = 3%nat)) /\
    sends (trace nat s') =
      repeat ("events", list_byte_of_string "{}",
              Some (list_byte_of_string "u1")) (S m) /\
    sleeps (trace nat s') = repeat 1 m.
Proof.
  exact (publish_stays_within_retry_budget nat broker_start (flaky 5) clock
           no_sleep stub_dumps stub_isoformat
           (Some "user.created") payload_u1 (Some "u1") None fresh 0 O "{}"
           (Some (list_byte_of_string "u1"))
           (fresh_at_first_send broker_start eq_refl) eq_refl eq_refl).
Defined.

(** With [MAX_RETRY = 3], three failures and then an acknowledgement. *)
Lemma publish_returns_when_the_last_retry_succeeds_witness :
  exists s',
    publish nat broker_start (flaky 3) clock no_sleep stub_dumps
      stub_isoformat (Some "user.created") payload_u1 (Some "u1") None fresh =
      (Ok (Some tt), s') /\
    sleeps (trace nat s') = [1; 1; 1] /\
    sends (trace nat s') =
      repeat ("events", list_byte_of_string "{}",
              Some (list_byte_of_string "u1")) 4.
Proof.
  apply (publish_returns_when_the_last_retry_succeeds nat broker_start
           (flaky 3) clock no_sleep stub_dumps stub_isoformat
           3 (Some "user.created") payload_u1 (Some "u1") None fresh 0 O "{}"
           (Some (list_byte_of_string "u1"))
           (fresh_at_first_send broker_start eq_refl) eq_refl eq_refl).
  - simpl. do 2 eexists. split; [reflexivity|]. split; [reflexivity|].
    do 2 eexists. split; [reflexivity|]. split; [reflexivity|].
    do 2 eexists. split; [reflexivity|]. split; [reflexivity|].
    do 2 eexists. reflexivity.
  - simpl. lia.
Defined.

Lemma publish_wraps_unexpected_error_without_retry_witness :
  exists s',
    publish nat broker_start refusing clock no_sleep stub_dumps
      stub_isoformat (Some "user.created") payload_u1 (Some "u1") None fresh =
      (Raise (new_from KafkaPublishMessageFailed (new KafkaError)), s') /\
    env nat s' = 1%nat /\
    sends (trace nat s') =
      [("events", list_byte_of_string "{}", Some (list_byte_of_string "u1"))] /\
    sleeps (trace nat s') = [].
Proof.
  exact (publish_wraps_unexpected_error_without_retry nat broker_start
           refusing clock no_sleep stub_dumps stub_isoformat
           (Some "user.created") payload_u1 (Some "u1") None fresh 0 O "{}"
           (Some (list_byte_of_string "u1")) (new KafkaError) 1%nat
           (fresh_at_first_send broker_start eq_refl) eq_refl eq_refl eq_refl
           eq_refl).
Defined.

Lemma publish_rejects_unserialisable_message_witness :
  exists s',
    publish nat broker_start (flaky 0) clock no_sleep dumps_bytes
      stub_isoformat (Some "user.created") (Some [("raw", PBytes [])])
      None None fresh =
      (Raise (new_from KafkaPublishMessageFailed (new TypeError)), s') /\
    env nat s' = O /\
    sends (trace nat s') = [] /\
    sleeps (trace nat s') = [].
Proof.
  exact (publish_rejects_unserialisable_message nat broker_start
           (flaky 0) clock no_sleep dumps_bytes stub_isoformat
           (Some "user.created") (Some [("raw", PBytes [])]) None None fresh
           0 O (new TypeError) None
           (fresh_at_first_send broker_start eq_refl) eq_refl eq_refl eq_refl).
Defined.

Lemma publish_start_failure_is_not_wrapped_witness :
  publish nat start_refused (flaky 0) clock no_sleep stub_dumps
    stub_isoformat (Some "user.created") payload_u1 (Some "u1") None fresh =
    (Raise (new KafkaConnectionError),
     {| self := init 3 1 "events"; env := O; trace := [Start] |}).
Proof.
  exact (publish_start_failure_is_not_wrapped nat start_refused (flaky 0)
           clock no_sleep stub_dumps stub_isoformat
           (Some "user.created") payload_u1 (Some "u1") None fresh
           (new KafkaConnectionError) O eq_refl eq_refl).
Defined.


(** A key that holds the lone surrogate U+D800. *)
Definition lone_surrogate : string :=
  string_of_list_byte [Init.Byte.xed; Init.Byte.xa0; Init.Byte.x80].

(** C6 as stated fails: against a broker that acknowledges the first send
    (no transient failure, and three retries allowed), [publish] with a
    key that does not encode as UTF-8 does not return: it raises
    [UnicodeEncodeError] and sends nothing. *)
Lemma publish_raises_on_a_key_that_does_not_encode :
  let r := publish nat broker_start (flaky 0) clock no_sleep stub_dumps
             stub_isoformat (Some "user.created") payload_u1
             (Some lone_surrogate) None fresh in
  (forall topic value key w, exists md w',
     flaky 0 topic value key w = (Ok md, w')) /\
  0 < __max_retry (self nat fresh) /\
  fst r = Raise (new UnicodeEncodeError) /\
  fst r <> Ok (Some tt) /\
  sends (trace nat (snd r)) = [].
Proof.
  cbv zeta. split; [intros; do 2 eexists; reflexivity|].
  split; [reflexivity|]. vm_compute. repeat split; discriminate.
Qed.

Lemma publish_raises_encoding_error_of_the_key_witness :
  exists s',
    publish nat broker_start (flaky 0) clock no_sleep stub_dumps
      stub_isoformat (Some "user.created") payload_u1 (Some lone_surrogate)
      None fresh = (Raise (new UnicodeEncodeError), s') /\
    new UnicodeEncodeError = new UnicodeEncodeError /\
    env nat s' = O /\
    sends (trace nat s') = [] /\
    sleeps (trace nat s') = [].
Proof.
  exact (publish_raises_encoding_error_of_the_key nat broker_start (flaky 0)
           clock no_sleep stub_dumps stub_isoformat
           (Some "user.created") payload_u1 (Some lone_surrogate) None fresh
           0 O (new UnicodeEncodeError)
           (fresh_at_first_send broker_start eq_refl) eq_refl).
Defined.


(** *** The health check of the producer
    (src/api/routes/health_check.py, [check_kafka], lines 56-87) *)

Section HealthCheck.

Variable Env : Type.
Variable producer_start : Env -> result unit * Env.
Variable producer_stop : Env -> result unit * Env.
(** [time.time()], in seconds. *)
Variable time : Env -> Q * Env.
(** The truth value of [cluster_metadata.brokers] (lines 63-66); reading
    the attributes may raise. *)
Variable brokers : Env -> result bool * Env.
(** [isinstance(e, asyncio.TimeoutError)]: the class [asyncio.wait_for]
    raises when the ten seconds are over, which cancels the start. *)
Variable is_timeout : exn -> bool.

#[local] Arguments self {Env} _.
#[local] Arguments env {Env} _.
#[local] Arguments trace {Env} _.
#[local] Arguments emit {Env} _ _.
#[local] Arguments call {Env A} _ _ _.
#[local] Arguments set_started {Env} _ _.

(** A read of the outside world that leaves no action on the trace. *)
Definition observe {A} (f : Env -> result A * Env) : M (state Env) A :=
  fun s =>
    let '(r, env1) := f (env s) in
    (r, {| self := self s; env := env1; trace := trace s |}).

Ltac hrun :=
  repeat progress
    (unfold bind, catch, finally, ret, raise, get, modify, emit, call,
       set_started in *;
     cbn [self env trace __topic __max_retry __delay __started fst snd negb]
       in *).

(** [check_kafka] (lines 56-87).  The [start] under [asyncio.wait_for]
    is the awaited call of the transport, which returns, raises or is
    cancelled with the timeout error. *)
Definition check_kafka : M (state Env) (bool * Q) :=
  finally
    (catch
       (start_ <- observe (fun w => let '(t, w1) := time w in (Ok t, w1)) ;;
        start Env producer_start ;;;
        has_brokers <- observe brokers ;;
        if negb has_brokers then
          emit (Log ERROR "Kafka health check failed: No brokers available") ;;;
          ret (false, 0%Q)
        else
          now_ <- observe (fun w => let '(t, w1) := time w in (Ok t, w1)) ;;
          let latency := ((now_ - start_) * 1000)%Q in
          stop Env producer_stop ;;;
          ret (true, latency))
       (fun e =>
          if is_timeout e then
            emit (Log ERROR "Kafka health check timed out after 10 seconds") ;;;
            ret (false, 0%Q)
          else
            emit (Log ERROR "Kafka health check failed: {e}") ;;;
            ret (false, 0%Q)))
    (catch (stop Env producer_stop) (fun e =>
       emit (Log WARNING
               "Error stopping Kafka client during health check: {e}"))).

Definition starts (tr : list action) : nat :=
  List.length (filter (fun a => match a with Start => true | _ => false end) tr).

Definition stops (tr : list action) : nat :=
  List.length (filter (fun a => match a with Stop => true | _ => false end) tr).

Lemma starts_app (a b : list action) : starts (a ++ b) = (starts a + starts b)%nat.
Proof. unfold starts. rewrite filter_app, length_app. reflexivity. Qed.

Lemma stops_app (a b : list action) : stops (a ++ b) = (stops a + stops b)%nat.
Proof. unfold stops. rewrite filter_app, length_app. reflexivity. Qed.

(** X23.  [check_kafka] never raises: it returns a verdict and a
    latency, the latency [0] with the verdict [False].  It starts the
    transport at most once and stops it at most twice.  With the verdict
    [True] the producer is left stopped and the transport was stopped
    exactly once, although [stop] is called twice; the producer is left
    started only when the transport refused to stop. *)
Theorem check_kafka_never_raises :
  forall s : state Env,
    exists (ok : bool) (latency : Q) (s' : state Env) (t : list action),
      check_kafka s = (Ok (ok, latency), s') /\
      trace s' = trace s ++ t /\
      (ok = false -> latency = 0%Q) /\
      (starts t <= 1)%nat /\ (stops t <= 2)%nat /\
      (ok = true -> __started (self s') = false /\ stops t = 1%nat) /\
      (__started (self s') = true ->
       (1 <= stops t)%nat /\
       exists w e w', producer_stop w = (Raise e, w')).
Proof.
  intros [[topic mx delay started] w tr].
  unfold check_kafka, finally, catch, observe, start, stop.
  repeat
    (hrun;
     match goal with
     | |- context [time ?w] => destruct (time w) as [? ?]
     | |- context [producer_start ?w] =>
         destruct (producer_start w) as [[[]|?] ?] eqn:?
     | |- context [producer_stop ?w] =>
         destruct (producer_stop w) as [[[]|?] ?] eqn:?
     | |- context [brokers ?w] => destruct (brokers w) as [[[|]|?] ?] eqn:?
     | |- context [is_timeout ?e] => destruct (is_timeout e)
     | |- context [if negb ?b then _ else _] => destruct b
     | |- context [if ?b then _ else _] => destruct b
     end);
    hrun;
    do 4 eexists;
    (split; [reflexivity|]);
    (split; [cbn [trace]; rewrite <- ?app_assoc; reflexivity|]);
    cbn [self __started];
    (split; [intros; first [reflexivity|discriminate]|]);
    (split; [cbn; lia|]);
    (split; [cbn; lia|]);
    (split; [intros; first [discriminate|split; reflexivity]|]);
    intros; first [discriminate|split; [cbn; lia|eauto]].
Qed.

End HealthCheck.


End Producer.

(* ===================================================================== *)
(** ** Consumer loop (src/app/services/kafka_consumer.py and
       src/adapter/services/kafka_consumer.py)                           *)
(* ===================================================================== *)

Module Consumer.
Section Consumer.

(** The broker, the handlers' stores, the audit sink. *)
Variable Env : Type.

(** [constant.TIMEOUT_LISTENER] and [constant.MAX_RECORD]: the module
    [constant] is not part of the sources, its values are parameters. *)
Variable TIMEOUT_LISTENER : Z.
Variable MAX_RECORD : Z.

(** aiokafka's [TopicPartition] and the fields of a [ConsumerRecord] the
    code reads.  A tombstone record has no value. *)
Record topic_partition : Type := mkTP {
  tp_topic : string;
  tp_partition : Z
}.

Record consumer_record : Type := mkRecord {
  r_value : option bytes;
  r_key : option bytes;
  r_offset : Z;
  r_headers : list (string * pyval)
}.

(** What [getmany] returns: the items of a dict from partitions to the
    records fetched for them. *)
Definition batch : Type := list (topic_partition * list consumer_record).

(** The transport: [AIOKafkaConsumer.start], [.stop], [.getmany] and
    [.commit]; [json.loads]; the passing of [asyncio.sleep]. *)
Variable consumer_start : Env -> result unit * Env.
Variable consumer_stop : Env -> result unit * Env.
Variable consumer_getmany : Z -> Z -> Env -> result batch * Env.
Variable consumer_commit : topic_partition -> Z -> Env -> result unit * Env.
Variable json_loads : string -> result pyval.
Variable asyncio_sleep : Q -> Env -> Env.

(** The audit sink ([event_root_mapper_service]):
    [create_header()] and
    [save_header(header, payload, topic, event_type, issued_at)]. *)
Record service : Type := mkService {
  create_header : Env -> result pyval * Env;
  save_header :
    pyval -> pyval -> string -> pyval -> pyval -> Env -> result unit * Env
}.

(** The attributes of a consumer object.  A name with two leading
    underscores is private to the class whose body mentions it: Python
    stores [self.__started] written in [AIOKafkaConsumerImplementation] as
    [_AIOKafkaConsumerImplementation__started], and reads [self.__started]
    written in [BackendKafkaConsumer] from [_BackendKafkaConsumer__started].
    These are different attributes; the second family is set by no code of
    the repository and is absent ([None] below) unless something else binds
    it.

    A filter returns nothing and may edit the event it is given: its model
    returns the contents of the event after the call.  Edits made in place
    by the handler or the callbacks are not tracked. *)
Record consumer : Type := mkConsumer {
  (* bound by AIOKafkaConsumerImplementation.__init__, lines 53-66 *)
  impl__topic : string;
  impl__group_id : string;
  handlers : pyval -> Env -> result unit * Env;
  _filters : list (pyval -> Env -> result pyval * Env);
  _before_handle_callback : option (pyval -> Env -> result pyval * Env);
  _after_handle_callback : option (pyval -> Env -> result unit * Env);
  impl__event_root_mapper_service : option service;
  _mongo_connected : bool;
  stopped : bool;
  _body : pyval;
  _headers : pyval;
  impl__started : bool;
  (* read by BackendKafkaConsumer.listen and ._create_header *)
  base__started : option bool;
  base__event_root_mapper_service : option (option service);
  base__topic : option string
}.

(** What an iteration does to the outside, in order. *)
Inductive action : Type :=
| Start
| Stop
| Poll
| Commit (tp : topic_partition) (next_offset : Z)
| Filter (event : pyval)
| BeforeHandle (event : pyval)
| Handle (event : pyval)
| AfterHandle (event : pyval)
| CreateHeader
| SaveHeader (header payload : pyval) (topic : string)
             (event_type issued_at : pyval)
| Sleep (seconds : Q)
| Log (lvl : level) (template : string).

Record state : Type := mkState {
  self : consumer;
  env : Env;
  trace : list action
}.

(** [AIOKafkaConsumerImplementation.__init__] (lines 27-84). *)
Definition init (topic group_id : string)
  (handlers : pyval -> Env -> result unit * Env)
  (filters : option (list (pyval -> Env -> result pyval * Env)))
  (before_handle_callback : option (pyval -> Env -> result pyval * Env))
  (after_handle_callback : option (pyval -> Env -> result unit * Env))
  (event_root_mapper_service : option service) : consumer :=
  {| impl__topic := topic;
     impl__group_id := group_id;
     handlers := handlers;
     _filters := match filters with Some (f :: fs) => f :: fs | _ => [] end;
     _before_handle_callback := before_handle_callback;
     _after_handle_callback := after_handle_callback;
     impl__event_root_mapper_service := event_root_mapper_service;
     _mongo_connected :=
       match event_root_mapper_service with Some _ => true | None => false end;
     stopped := false;
     _body := PDict [];
     _headers := PDict [];
     impl__started := false;
     base__started := None;
     base__event_root_mapper_service := None;
     base__topic := None |}.

Definition with_self (f : consumer -> consumer) : M state unit :=
  modify (fun s => {| self := f (self s); env := env s; trace := trace s |}).

Definition set_started (b : bool) (c : consumer) : consumer :=
  {| impl__topic := impl__topic c; impl__group_id := impl__group_id c;
     handlers := handlers c; _filters := _filters c;
     _before_handle_callback := _before_handle_callback c;
     _after_handle_callback := _after_handle_callback c;
     impl__event_root_mapper_service := impl__event_root_mapper_service c;
     _mongo_connected := _mongo_connected c; stopped := stopped c;
     _body := _body c; _headers := _headers c;
     impl__started := b;
     base__started := base__started c;
     base__event_root_mapper_service := base__event_root_mapper_service c;
     base__topic := base__topic c |}.

Definition set_headers (h : pyval) (c : consumer) : consumer :=
  {| impl__topic := impl__topic c; impl__group_id := impl__group_id c;
     handlers := handlers c; _filters := _filters c;
     _before_handle_callback := _before_handle_callback c;
     _after_handle_callback := _after_handle_callback c;
     impl__event_root_mapper_service := impl__event_root_mapper_service c;
     _mongo_connected := _mongo_connected c; stopped := stopped c;
     _body := _body c; _headers := h;
     impl__started := impl__started c;
     base__started := base__started c;
     base__event_root_mapper_service := base__event_root_mapper_service c;
     base__topic := base__topic c |}.

Definition emit (a : action) : M state unit :=
  modify (fun s => {| self := self s; env := env s; trace := trace s ++ [a] |}).

(** A call into the outside world, recorded in the trace. *)
Definition call {A} (a : action) (f : Env -> result A * Env) : M state A :=
  fun s =>
    let '(r, env1) := f (env s) in
    (r, {| self := self s; env := env1; trace := trace s ++ [a] |}).

(** A pure step that returns or raises. *)
Definition lift {A} (r : result A) : M state A := fun s => (r, s).

(** [start] (adapter, lines 96-101). *)
Definition start : M state unit :=
  s <- get ;;
  if negb (impl__started (self s)) then
    call Start consumer_start ;;;
    with_self (set_started true) ;;;
    emit (Log INFO "Kafka consumer started for topic: %s")
  else ret tt.

(** [stop] (adapter, lines 103-108). *)
Definition stop : M state unit :=
  s <- get ;;
  if impl__started (self s) then
    call Stop consumer_stop ;;;
    with_self (set_started false) ;;;
    emit (Log INFO "Kafka consumer stopped")
  else ret tt.

(** [_filter_event] (adapter, lines 110-113). *)
Fixpoint run_filters (filters : list (pyval -> Env -> result pyval * Env))
  (event : pyval) : M state pyval :=
  match filters with
  | [] => ret event
  | event_filter :: rest =>
      event <- call (Filter event) (event_filter event) ;;
      run_filters rest event
  end.

Definition _filter_event (event : pyval) : M state pyval :=
  s <- get ;;
  run_filters (_filters (self s)) event.

(** The dict [_get_new_event] returns when it has a record; the empty
    dict it returns otherwise is [None] below. *)
Record meta_data : Type := mkMeta {
  m_offset : option Z;
  m_key : option string;
  m_topic_partition : option topic_partition
}.

Record polled : Type := mkPolled {
  p_event : pyval;
  p_meta_data : option meta_data;
  p_headers : list (string * pyval)
}.

(** The inner [try] of [_get_new_event] (lines 130-142), up to its log
    line: the decoded message, with the record's key added when it is a
    structured event, the decoded key, and whether the key was added. *)
Definition decode_record (record : consumer_record)
  : result (pyval * option string * bool) :=
  match r_value record with
  | None => Raise (new AttributeError)
  | Some body =>
      match utf8_decode body with
      | Raise e => Raise e
      | Ok text =>
          match json_loads text with
          | Raise e => Raise e
          | Ok message =>
              match
                match r_key record with
                | Some (b :: k) =>
                    match utf8_decode (b :: k) with
                    | Ok s => Ok (Some s)
                    | Raise e => Raise e
                    end
                | _ => Ok None
                end
              with
              | Raise e => Raise e
              | Ok key =>
                  let key_value :=
                    match key with Some k => PStr k | None => PNone end in
                  match message with
                  | PDict d =>
                      match dict_get d "event_type", dict_get d "payload" with
                      | Some _, Some _ =>
                          Ok (PDict (dict_set d "key" key_value), key, true)
                      | _, _ => Ok (message, key, false)
                      end
                  | _ => Ok (message, key, false)
                  end
              end
          end
      end
  end.

(** The first partition of the batch that has records, with its first
    record (lines 124-128). *)
Fixpoint first_record (items : batch)
  : option (topic_partition * consumer_record) :=
  match items with
  | [] => None
  | (tp, []) :: rest => first_record rest
  | (tp, record :: _) :: _ => Some (tp, record)
  end.

(** [_get_new_event] (adapter, lines 115-162). *)
Definition _get_new_event : M state (option polled) :=
  catch
    (message_batch <-
       call Poll (consumer_getmany TIMEOUT_LISTENER MAX_RECORD) ;;
     match first_record message_batch with
     | None => ret None
     | Some (topic_partition, record) =>
         match decode_record record with
         | Raise e =>
             if isinstance_any e [UnicodeDecodeError; JSONDecodeError] then
               emit (Log ERROR "DECODING ERROR: %s - EXCEPTIONS: %s") ;;;
               ret None
             else raise e
         | Ok (message, key, added) =>
             (if added
              then emit (Log DEBUG "Added Kafka message key to event: %s")
              else ret tt) ;;;
             ret (Some {| p_event := message;
                          p_meta_data := Some
                            {| m_offset := Some (r_offset record);
                               m_key := key;
                               m_topic_partition := Some topic_partition |};
                          p_headers := r_headers record |})
         end
     end)
    (fun e => emit (Log ERROR "Error getting new event: %s") ;;; ret None).

(** [_commit_event] (adapter, lines 164-180). *)
Definition _commit_event (event : polled) : M state unit :=
  catch
    (let event_metadata :=
       match p_meta_data event with
       | Some m => m
       | None => {| m_offset := None; m_key := None;
                    m_topic_partition := None |}
       end in
     match m_topic_partition event_metadata, m_offset event_metadata with
     | Some topic_partition, Some offset =>
         call (Commit topic_partition (offset + 1))
              (consumer_commit topic_partition (offset + 1)) ;;;
         emit (Log INFO "EVENT COMMITTED")
     | _, _ =>
         emit (Log ERROR
           "CANNOT COMMIT EVENT %s. MISSING FIELD TOPIC_PARTITION OR OFFSET")
     end)
    (fun e => emit (Log ERROR "Error committing event: %s")).

(** The loop of [_decode_headers] over the three trace keys
    (app, lines 103-109). *)
Fixpoint decode_keys (keys : list string) (headers result_ : list (string * pyval))
  : result (list (string * pyval)) :=
  match keys with
  | [] => Ok result_
  | key :: rest =>
      match dict_get headers key with
      | None => decode_keys rest headers result_
      | Some (PBytes header_value) =>
          match utf8_decode header_value with
          | Ok text => decode_keys rest headers (dict_set result_ key (PStr text))
          | Raise e => Raise e
          end
      | Some header_value =>
          decode_keys rest headers (dict_set result_ key header_value)
      end
  end.

(** [_decode_headers] (app, lines 95-111). *)
Definition _decode_headers (headers : list (string * pyval))
  : result (list (string * pyval)) :=
  match headers with
  | [] => Ok []
  | _ => decode_keys ["root_id"; "parent_id"; "event_id"] headers []
  end.

(** [_create_header] (app, lines 67-93).  [headers] is the record's header
    list. *)
Definition _create_header (headers : list (string * pyval)) : M state unit :=
  decoded_headers <-
    match _decode_headers (dict_of_pairs headers) with
    | Ok d => ret d
    | Raise ke =>
        if isinstance ke KeyError
        then raise (new_from InvalidMessageException ke)
        else raise ke
    end ;;
  catch
    (s <- get ;;
     log_header <-
       (if negb (_mongo_connected (self s)) then ret (PDict decoded_headers)
        else
          (* [not log_header and self.__event_root_mapper_service]: the
             attribute is looked up only when no header was decoded *)
          creator <-
            match decoded_headers with
            | [] =>
                match base__event_root_mapper_service (self s) with
                | None => raise (new AttributeError)
                | Some svc => ret svc
                end
            | _ => ret None
            end ;;
          match creator with
          | Some svc => call CreateHeader (create_header svc)
          | None =>
              root_id <- lift (py_get (PDict decoded_headers) "root_id") ;;
              parent_id <- lift (py_get (PDict decoded_headers) "parent_id") ;;
              event_id <- lift (py_get (PDict decoded_headers) "event_id") ;;
              ret (PDict [("root_id", root_id); ("parent_id", parent_id);
                          ("event_id", event_id)])
          end) ;;
     with_self (set_headers log_header) ;;;
     emit (Log INFO "Create header %s"))
    (fun e =>
       emit (Log ERROR "Error: %s when create header") ;;;
       raise (new_from InvalidMessageException e)).

(** The body of the [try] of [_handle_event] (adapter, lines 185-202),
    with the optional transform of lines 189-190 first.  The body returns
    the contents of the event object it was given, as the filters left
    it. *)
Definition before_handle (event : pyval) : M state pyval :=
  s <- get ;;
  match _before_handle_callback (self s) with
  | Some callback => call (BeforeHandle event) (callback event)
  | None => ret event
  end.

Definition handle_event_body (event : pyval) : M state pyval :=
  filtered <- _filter_event event ;;
  event <- before_handle filtered ;;
  event_type <- lift (py_get event "event_type") ;;
  (if negb (truthy event_type)
   then raise (new InvalidMessageException) else ret tt) ;;;
  s <- get ;;
  call (Handle event) (handlers (self s) event) ;;;
  s <- get ;;
  match _after_handle_callback (self s) with
  | Some callback => call (AfterHandle event) (callback event)
  | None => ret tt
  end ;;;
  ret filtered.

(** [_handle_event] (adapter, lines 182-212). *)
Definition _handle_event (event : pyval) : M state pyval :=
  catch (handle_event_body event) (fun e =>
    if isinstance e SkippableException then
      emit (Log INFO "EVENT SKIPPED BECAUSE %s") ;;; raise e
    else if isinstance e CriticalException then
      emit (Log ERROR "CRITICAL ERROR ON EVENT %s: %s") ;;; raise e
    else
      emit (Log ERROR "Unexpected error handling event %s: %s") ;;;
      raise (new_from CriticalException e)).

(** The body of the [try] of [listen] (app, lines 130-137). *)
Definition listen_try (event : polled) : M state pyval :=
  let event_data := p_event event in
  let headers := p_headers event in
  emit (Log INFO "RETRIEVED EVENT: %s, headers %s") ;;;
  _create_header headers ;;;
  emit (Log INFO "HANDLING EVENT") ;;;
  _handle_event event_data.

(** The [else] of that [try] (app, lines 148-160). *)
Definition listen_else (event : polled) (event_data : pyval) : M state unit :=
  s <- get ;;
  match base__event_root_mapper_service (self s) with
  | None => raise (new AttributeError)
  | Some None => ret tt
  | Some (Some svc) =>
      payload <- lift (py_get event_data "payload") ;;
      topic <- match base__topic (self s) with
               | None => raise (new AttributeError)
               | Some t => ret t
               end ;;
      event_type <- lift (py_get event_data "event_type") ;;
      issued_at <- lift (py_get event_data "issued_at") ;;
      call (SaveHeader (_headers (self s)) payload topic event_type issued_at)
           (save_header svc (_headers (self s)) payload topic event_type
              issued_at) ;;;
      emit (Log INFO "Saved header %s to mongo")
  end ;;;
  _commit_event event.

(** The [except] and [else] clauses of that [try] (app, lines 139-160),
    on the outcome [r] of its body. *)
Definition listen_outcome (event : polled) (r : result pyval) : M state unit :=
  match r with
  | Raise e =>
      if isinstance e SkippableException then
        emit (Log INFO "EVENT SKIPPED BECAUSE %s") ;;;
        _commit_event event
      else if isinstance e CriticalException then
        emit (Log ERROR "CRITICAL ERROR ON EVENT %s: %s") ;;;
        raise e
      else raise e
  | Ok event_data => listen_else event event_data
  end.

(** What [listen] does with a polled event (app, lines 126-163); the
    [audit_id] it draws first is not used. *)
Definition listen_event (event : polled) : M state unit :=
  emit (Log INFO "RETRIEVED EVENT: %s") ;;;
  finally
    (r <- attempt (listen_try event) ;; listen_outcome event r)
    (emit (Log INFO "Finished event")).

(** One turn of the [while] loop of [listen] (app, lines 121-163). *)
Definition listen_body : M state unit :=
  event <- _get_new_event ;;
  match event with
  | None =>
      call (Sleep (1 # 10)) (fun w => (Ok tt, asyncio_sleep (1 # 10) w))
  | Some event => listen_event event
  end.

(** The [while not self.stopped] loop (app, lines 120-163); [None] when
    [fuel] turns were not enough to see the flag or an exception. *)
Fixpoint listen_loop (fuel : nat) : M state (option unit) :=
  match fuel with
  | O => ret None
  | S fuel' =>
      s <- get ;;
      if stopped (self s) then ret (Some tt)
      else listen_body ;;; listen_loop fuel'
  end.

(** [listen] (app, lines 113-163), for at most [fuel] turns of its loop. *)
Definition listen (fuel : nat) : M state (option unit) :=
  s <- get ;;
  match base__started (self s) with
  | None => raise (new AttributeError)
  | Some started =>
      (if negb started then start else ret tt) ;;;
      emit (Log INFO "LISTENING EVENT...") ;;;
      listen_loop fuel
  end.

(** Projections of a trace: the commits requested, the events the
    handler was called with, the events the filters were called with. *)
Definition commits (tr : list action) : list (topic_partition * Z) :=
  flat_map (fun a => match a with Commit tp o => [(tp, o)] | _ => [] end) tr.

Definition handled (tr : list action) : list pyval :=
  flat_map (fun a => match a with Handle ev => [ev] | _ => [] end) tr.

Definition filtered_events (tr : list action) : list pyval :=
  flat_map (fun a => match a with Filter ev => [ev] | _ => [] end) tr.

(** The iteration at state [s] polls [record] from partition [tp]: the
    poll returns a batch whose first partition with records is [tp], with
    [record] first, and leaves the outside world in [w]. *)
Definition polls (s : state) (tp : topic_partition) (record : consumer_record)
  (w : Env) : Prop :=
  exists message_batch,
    consumer_getmany TIMEOUT_LISTENER MAX_RECORD (env s) = (Ok message_batch, w) /\
    first_record message_batch = Some (tp, record).

(** The dict [_get_new_event] builds for a decoded record
    (adapter, lines 148-156). *)
Definition polled_event (tp : topic_partition) (record : consumer_record)
  (message : pyval) (key : option string) : polled :=
  {| p_event := message;
     p_meta_data := Some {| m_offset := Some (r_offset record);
                            m_key := key;
                            m_topic_partition := Some tp |};
     p_headers := r_headers record |}.

(** A state with more actions on its trace. *)
Definition after (s : state) (w : Env) (t : list action) : state :=
  {| self := self s; env := w; trace := trace s ++ t |}.

(** The log line [_get_new_event] writes when it added the record's key
    to a structured event (adapter, line 140). *)
Definition key_log (added : bool) : list action :=
  if added then [Log DEBUG "Added Kafka message key to event: %s"] else [].

(** The state in which the [try] of [listen] starts on a record just
    polled. *)
Definition at_try (s : state) (w : Env) (added : bool) : state :=
  after s w (Poll :: key_log added ++ [Log INFO "RETRIEVED EVENT: %s"]).

(** The audit step of [listen] (app, lines 150-158) returns: the
    attributes it reads are bound, and either no sink is configured or
    [save_header] returns; the outside world is left in [w]. *)
Definition audit_returns (s : state) (event_data : pyval) (w : Env) : Prop :=
  match base__event_root_mapper_service (self s) with
  | None => False
  | Some None => w = env s
  | Some (Some svc) =>
      exists payload topic event_type issued_at,
        py_get event_data "payload" = Ok payload /\
        base__topic (self s) = Some topic /\
        py_get event_data "event_type" = Ok event_type /\
        py_get event_data "issued_at" = Ok issued_at /\
        save_header svc (_headers (self s)) payload topic event_type issued_at
          (env s) = (Ok tt, w)
  end.

(** Modelled from the spec: the poll of the broker client, which is not
    part of the sources.  A record that was polled and whose offset was
    not committed is "re-delivered on next poll at the same offset"
    (4.2, step 3), "given no external offset advance" (8): a poll that is
    followed by nothing but the passing of time is answered by the same
    batch again. *)
Definition redelivers_uncommitted : Prop :=
  forall (w w1 : Env) (message_batch : batch) (seconds : Q),
    consumer_getmany TIMEOUT_LISTENER MAX_RECORD w = (Ok message_batch, w1) ->
    exists w2,
      consumer_getmany TIMEOUT_LISTENER MAX_RECORD (asyncio_sleep seconds w1) =
        (Ok message_batch, w2).

(** The value of [record] is not UTF-8, or is UTF-8 and not JSON. *)
Definition undecodable (record : consumer_record) : Prop :=
  exists body,
    r_value record = Some body /\
    (utf8_decode body = Raise (new UnicodeDecodeError) \/
     exists text e,
       utf8_decode body = Ok text /\
       json_loads text = Raise e /\
       isinstance e JSONDecodeError = true).

(** The stage of an iteration an action belongs to; the logs that belong
    to none are [None]. *)
Definition stage (a : action) : option nat :=
  match a with
  | Poll => Some 0%nat
  | Log ERROR "DECODING ERROR: %s - EXCEPTIONS: %s" => Some 1%nat
  | CreateHeader => Some 2%nat
  | Log INFO "Create header %s" => Some 2%nat
  | Log ERROR "Error: %s when create header" => Some 2%nat
  | Filter _ => Some 3%nat
  | BeforeHandle _ => Some 4%nat
  | Handle _ => Some 5%nat
  | AfterHandle _ => Some 6%nat
  | SaveHeader _ _ _ _ _ => Some 7%nat
  | Commit _ _ => Some 8%nat
  | _ => None
  end.

Definition stages (tr : list action) : list nat :=
  flat_map (fun a => match stage a with Some p => [p] | None => [] end) tr.

(** [ps] never steps back, starting no lower than [lo]. *)
Fixpoint ascending (lo : nat) (ps : list nat) : bool :=
  match ps with
  | [] => true
  | p :: rest => (lo <=? p)%nat && ascending p rest
  end.

(** The staged actions of [tr] come in order and lie between [lo] and
    [hi]. *)
Definition within (lo hi : nat) (tr : list action) : Prop :=
  ascending lo (stages tr) = true /\
  Forall (fun p => (p <= hi)%nat) (stages tr).

(** Whatever [m] does, it only adds actions satisfying [P] to the trace. *)
Definition emits {A} (P : list action -> Prop) (m : M state A) : Prop :=
  forall s r s', m s = (r, s') -> exists t, trace s' = trace s ++ t /\ P t.

(** *** Traces and stages *)

Ltac mrun :=
  repeat progress
    (unfold bind, attempt, catch, finally, ret, raise, get, modify, emit,
       call, lift, with_self in *;
     cbn [self env trace fst snd negb m_offset m_key m_topic_partition
          p_event p_meta_data p_headers] in *).

Lemma stages_app (a b : list action) : stages (a ++ b) = stages a ++ stages b.
Proof. unfold stages. apply flat_map_app. Qed.

Lemma commits_app (a b : list action) : commits (a ++ b) = commits a ++ commits b.
Proof. unfold commits. apply flat_map_app. Qed.

Lemma handled_app (a b : list action) : handled (a ++ b) = handled a ++ handled b.
Proof. unfold handled. apply flat_map_app. Qed.

Lemma filtered_events_app (a b : list action) :
  filtered_events (a ++ b) = filtered_events a ++ filtered_events b.
Proof. unfold filtered_events. apply flat_map_app. Qed.

Lemma ascending_weaken (lo lo' : nat) (ps : list nat) :
  (lo' <= lo)%nat -> ascending lo ps = true -> ascending lo' ps = true.
Proof.
  destruct ps as [|p rest]; cbn; [reflexivity|].
  intros Hle H. apply andb_true_iff in H as [H1 H2].
  apply Nat.leb_le in H1. apply andb_true_iff. split; [|exact H2].
  apply Nat.leb_le. lia.
Qed.

Lemma ascending_app (lo mid : nat) (ps qs : list nat) :
  (lo <= mid)%nat ->
  ascending lo ps = true -> Forall (fun p => (p <= mid)%nat) ps ->
  ascending mid qs = true ->
  ascending lo (ps ++ qs) = true.
Proof.
  revert lo. induction ps as [|p rest IH]; intros lo Hle Hps Hall Hqs; cbn.
  - apply ascending_weaken with mid; assumption.
  - cbn in Hps. apply andb_true_iff in Hps as [H1 H2].
    inversion Hall as [|? ? Hp Hrest]; subst.
    apply andb_true_iff. split; [exact H1|].
    apply IH; assumption.
Qed.

Lemma ascending_bound (lo : nat) (ps : list nat) :
  ascending lo ps = true -> Forall (fun p => (lo <= p)%nat) ps.
Proof.
  revert lo. induction ps as [|p rest IH]; intros lo H; [constructor|].
  cbn in H. apply andb_true_iff in H as [H1 H2]. apply Nat.leb_le in H1.
  constructor; [exact H1|].
  eapply Forall_impl; [|apply IH; exact H2]. cbn. intros; lia.
Qed.

Lemma within_nil (lo hi : nat) : within lo hi [].
Proof. split; [reflexivity|constructor]. Qed.

Lemma within_unstaged (lo hi : nat) (a : action) :
  stage a = None -> within lo hi [a].
Proof. intros H. unfold within, stages. cbn. rewrite H. cbn. split; [reflexivity|constructor]. Qed.

Lemma within_staged (lo hi p : nat) (a : action) :
  stage a = Some p -> (lo <= p <= hi)%nat -> within lo hi [a].
Proof.
  intros H Hp. unfold within, stages. cbn. rewrite H. cbn. split.
  - rewrite andb_true_r. apply Nat.leb_le. lia.
  - constructor; [lia|constructor].
Qed.

Lemma within_weaken (lo hi lo' hi' : nat) (t : list action) :
  (lo' <= lo)%nat -> (hi <= hi')%nat -> within lo hi t -> within lo' hi' t.
Proof.
  intros H1 H2 [Ha Hb]. split.
  - eapply ascending_weaken; eassumption.
  - eapply Forall_impl; [|exact Hb]. cbn. intros; lia.
Qed.

Lemma within_app (lo mid hi : nat) (t1 t2 : list action) :
  (lo <= mid <= hi)%nat ->
  within lo mid t1 -> within mid hi t2 -> within lo hi (t1 ++ t2).
Proof.
  intros Hm [Ha1 Hb1] [Ha2 Hb2]. unfold within. rewrite stages_app. split.
  - apply ascending_app with mid; try assumption. lia.
  - apply Forall_app. split; [|exact Hb2].
    eapply Forall_impl; [|exact Hb1]. cbn. intros; lia.
Qed.

(** Below the stage of the commit there is no commit, below that of the
    handler no handler call, below that of the filters no filter call. *)
Lemma within_no_commit (lo hi : nat) (t : list action) :
  within lo hi t -> (hi < 8)%nat -> commits t = [].
Proof.
  intros [_ Hb] Hhi. induction t as [|a t IH]; [reflexivity|].
  change (a :: t) with ([a] ++ t) in *.
  rewrite stages_app in Hb. apply Forall_app in Hb as [Ha Ht].
  rewrite commits_app, (IH Ht), app_nil_r.
  destruct a; try reflexivity.
  cbn in Ha. inversion Ha; subst. lia.
Qed.

Lemma within_no_handle (lo hi : nat) (t : list action) :
  within lo hi t -> (hi < 5)%nat -> handled t = [].
Proof.
  intros [_ Hb] Hhi. induction t as [|a t IH]; [reflexivity|].
  change (a :: t) with ([a] ++ t) in *.
  rewrite stages_app in Hb. apply Forall_app in Hb as [Ha Ht].
  rewrite handled_app, (IH Ht), app_nil_r.
  destruct a; try reflexivity.
  cbn in Ha. inversion Ha; subst. lia.
Qed.

Lemma within_no_filter_after (lo hi : nat) (t : list action) :
  within lo hi t -> (3 < lo)%nat -> filtered_events t = [].
Proof.
  intros [Ha _] Hlo. apply ascending_bound in Ha.
  induction t as [|a t IH]; [reflexivity|].
  change (a :: t) with ([a] ++ t) in *.
  rewrite stages_app in Ha. apply Forall_app in Ha as [Ha Ht].
  rewrite filtered_events_app, (IH Ht), app_nil_r.
  destruct a; try reflexivity.
  cbn in Ha. inversion Ha; subst. lia.
Qed.

Lemma emits_ret {A} (lo hi : nat) (a : A) : emits (within lo hi) (ret a).
Proof.
  intros s r s' H. mrun. inversion H; subst.
  exists []. rewrite app_nil_r. split; [reflexivity|apply within_nil].
Qed.

Lemma emits_raise {A} (lo hi : nat) (e : exn) :
  emits (within lo hi) (raise (A := A) e).
Proof.
  intros s r s' H. mrun. inversion H; subst.
  exists []. rewrite app_nil_r. split; [reflexivity|apply within_nil].
Qed.

Lemma emits_lift {A} (lo hi : nat) (x : result A) :
  emits (within lo hi) (lift x).
Proof.
  intros s r s' H. mrun. inversion H; subst.
  exists []. rewrite app_nil_r. split; [reflexivity|apply within_nil].
Qed.

Lemma emits_with_self (lo hi : nat) (f : consumer -> consumer) :
  emits (within lo hi) (with_self f).
Proof.
  intros s r s' H. mrun. inversion H; subst.
  exists []. cbn. rewrite app_nil_r. split; [reflexivity|apply within_nil].
Qed.

Lemma emits_emit (lo hi : nat) (a : action) :
  within lo hi [a] -> emits (within lo hi) (emit a).
Proof.
  intros Ha s r s' H. mrun. inversion H; subst.
  exists [a]. split; [reflexivity|exact Ha].
Qed.

Lemma emits_call {A} (lo hi : nat) (a : action) (f : Env -> result A * Env) :
  within lo hi [a] -> emits (within lo hi) (call a f).
Proof.
  intros Ha s r s' H. mrun. destruct (f (env s)) as [x w]. inversion H; subst.
  exists [a]. split; [reflexivity|exact Ha].
Qed.

Lemma emits_weaken {A} (lo hi lo' hi' : nat) (m : M state A) :
  (lo' <= lo)%nat -> (hi <= hi')%nat ->
  emits (within lo hi) m -> emits (within lo' hi') m.
Proof.
  intros H1 H2 Hm s r s' H. destruct (Hm s r s' H) as (t & Ht & Hw).
  exists t. split; [exact Ht|]. eapply within_weaken; eassumption.
Qed.

Lemma emits_bind {A B} (lo mid hi : nat) (m : M state A) (k : A -> M state B) :
  (lo <= mid <= hi)%nat ->
  emits (within lo mid) m ->
  (forall a, emits (within mid hi) (k a)) ->
  emits (within lo hi) (bind m k).
Proof.
  intros Hmid Hm Hk s r s' H. unfold bind in H.
  destruct (m s) as [[a|e] s1] eqn:Em.
  - destruct (Hm _ _ _ Em) as (t1 & Ht1 & Hw1).
    destruct (Hk a _ _ _ H) as (t2 & Ht2 & Hw2).
    exists (t1 ++ t2). rewrite Ht2, Ht1, app_assoc. split; [reflexivity|].
    apply within_app with mid; assumption.
  - inversion H; subst.
    destruct (Hm _ _ _ Em) as (t1 & Ht1 & Hw1).
    exists t1. split; [exact Ht1|].
    apply within_weaken with lo mid; [lia|lia|exact Hw1].
Qed.

(** Reading the state first changes nothing. *)
Lemma emits_get_bind {A} (lo hi : nat) (k : state -> M state A) :
  (forall s, emits (within lo hi) (k s)) ->
  emits (within lo hi) (bind get k).
Proof.
  intros Hk s r s' H. unfold bind, get in H. exact (Hk s s r s' H).
Qed.

Lemma emits_catch {A} (lo mid hi : nat) (m : M state A) (h : exn -> M state A) :
  (lo <= mid <= hi)%nat ->
  emits (within lo mid) m ->
  (forall e, emits (within mid hi) (h e)) ->
  emits (within lo hi) (catch m h).
Proof.
  intros Hmid Hm Hh s r s' H. unfold catch in H.
  destruct (m s) as [[a|e] s1] eqn:Em.
  - inversion H; subst.
    destruct (Hm _ _ _ Em) as (t1 & Ht1 & Hw1).
    exists t1. split; [exact Ht1|].
    apply within_weaken with lo mid; [lia|lia|exact Hw1].
  - destruct (Hm _ _ _ Em) as (t1 & Ht1 & Hw1).
    destruct (Hh e _ _ _ H) as (t2 & Ht2 & Hw2).
    exists (t1 ++ t2). rewrite Ht2, Ht1, app_assoc. split; [reflexivity|].
    apply within_app with mid; assumption.
Qed.

Lemma emits_attempt {A} (lo hi : nat) (m : M state A) :
  emits (within lo hi) m -> emits (within lo hi) (attempt m).
Proof.
  intros Hm s r s' H. unfold attempt in H.
  destruct (m s) as [x s1] eqn:Em. inversion H; subst.
  exact (Hm _ _ _ Em).
Qed.

Lemma emits_finally {A} (lo mid hi : nat) (m : M state A) (f : M state unit) :
  (lo <= mid <= hi)%nat ->
  emits (within lo mid) m ->
  emits (within mid hi) f ->
  emits (within lo hi) (finally m f).
Proof.
  intros Hmid Hm Hf s r s' H. unfold finally in H.
  destruct (m s) as [x s1] eqn:Em.
  destruct (f s1) as [[u|e] s2] eqn:Ef; inversion H; subst;
    destruct (Hm _ _ _ Em) as (t1 & Ht1 & Hw1);
    destruct (Hf _ _ _ Ef) as (t2 & Ht2 & Hw2);
    exists (t1 ++ t2); rewrite Ht2, Ht1, app_assoc;
    (split; [reflexivity|]); apply within_app with mid; assumption.
Qed.

(** An unstaged log fits anywhere. *)
Lemma emits_log (lo hi : nat) (lvl : level) (template : string) :
  stage (Log lvl template) = None ->
  emits (within lo hi) (emit (Log lvl template)).
Proof. intros H. apply emits_emit, within_unstaged, H. Qed.

Ltac staged :=
  first
    [ apply emits_ret
    | apply emits_raise
    | apply emits_lift
    | apply emits_with_self
    | apply emits_log; reflexivity
    | apply emits_emit; eapply within_staged; [reflexivity | lia]
    | apply emits_call;
      first [ apply within_unstaged; reflexivity
            | eapply within_staged; [reflexivity | lia] ]
    | apply emits_attempt ].

Ltac then_at n := apply emits_bind with (mid := n); [lia | | intros ?].

(** *** The stages of each method *)

Lemma _get_new_event_stages : emits (within 0 1) _get_new_event.
Proof.
  unfold _get_new_event.
  apply emits_catch with (mid := 1%nat); [lia | | intros e].
  - then_at 0%nat; [staged|].
    destruct (first_record a) as [[tp record]|]; [|staged].
    destruct (decode_record record) as [[[message key] added]|e].
    { then_at 0%nat; [destruct added; staged | staged]. }
    destruct (isinstance_any e _); [|staged].
    then_at 1%nat; staged.
  - then_at 1%nat; staged.
Qed.

Lemma _commit_event_stages (event : polled) :
  emits (within 8 8) (_commit_event event).
Proof.
  unfold _commit_event.
  apply emits_catch with (mid := 8%nat); [lia | | intros e; staged].
  destruct (m_topic_partition _) as [tp|]; [|staged].
  destruct (m_offset _) as [offset|]; [|staged].
  then_at 8%nat; staged.
Qed.

Lemma run_filters_stages (filters : list (pyval -> Env -> result pyval * Env))
  (event : pyval) : emits (within 3 3) (run_filters filters event).
Proof.
  revert event. induction filters as [|f rest IH]; intros event; cbn.
  - staged.
  - then_at 3%nat; [staged|]. apply IH.
Qed.

Lemma _create_header_stages (headers : list (string * pyval)) :
  emits (within 2 2) (_create_header headers).
Proof.
  unfold _create_header. then_at 2%nat.
  - destruct (_decode_headers _) as [d|ke]; [staged|].
    destruct (isinstance ke KeyError); staged.
  - apply emits_catch with (mid := 2%nat); [lia | | intros e].
    + apply emits_get_bind. intros s. then_at 2%nat.
      * destruct (negb _); [staged|]. then_at 2%nat.
        { destruct a; [|staged].
          destruct (base__event_root_mapper_service _); staged. }
        { destruct a0 as [svc|]; [staged|].
          then_at 2%nat; [staged|]. then_at 2%nat; [staged|].
          then_at 2%nat; staged. }
      * then_at 2%nat; staged.
    + then_at 2%nat; staged.
Qed.

Lemma handle_event_body_stages (event : pyval) :
  emits (within 3 6) (handle_event_body event).
Proof.
  unfold handle_event_body, _filter_event.
  then_at 3%nat.
  { apply emits_get_bind. intros s. apply run_filters_stages. }
  then_at 4%nat.
  { unfold before_handle. apply emits_get_bind. intros s.
    destruct (_before_handle_callback _); staged. }
  then_at 4%nat; [staged|]. then_at 4%nat.
  { destruct (negb _); staged. }
  apply emits_get_bind. intros s1. then_at 5%nat; [staged|].
  apply emits_get_bind. intros s2. then_at 6%nat; [|staged].
  destruct (_after_handle_callback _); staged.
Qed.

Lemma _handle_event_stages (event : pyval) :
  emits (within 3 6) (_handle_event event).
Proof.
  unfold _handle_event.
  apply emits_catch with (mid := 6%nat); [lia | | intros e].
  - apply handle_event_body_stages.
  - destruct (isinstance e SkippableException); [then_at 6%nat; staged|].
    destruct (isinstance e CriticalException); then_at 6%nat; staged.
Qed.

Lemma listen_try_stages (event : polled) :
  emits (within 2 6) (listen_try event).
Proof.
  unfold listen_try.
  then_at 2%nat; [staged|]. then_at 2%nat; [apply _create_header_stages|].
  then_at 3%nat; [staged|].
  apply emits_weaken with 3%nat 6%nat; [lia|lia|apply _handle_event_stages].
Qed.

Lemma listen_else_stages (event : polled) (event_data : pyval) :
  emits (within 7 8) (listen_else event event_data).
Proof.
  unfold listen_else. apply emits_get_bind. intros s. then_at 8%nat.
  - destruct (base__event_root_mapper_service _) as [[svc|]|]; try staged.
    then_at 7%nat; [staged|]. then_at 7%nat.
    { destruct (base__topic _); staged. }
    then_at 7%nat; [staged|]. then_at 7%nat; [staged|].
    then_at 7%nat; staged.
  - apply _commit_event_stages.
Qed.

Lemma listen_outcome_stages (event : polled) (r : result pyval) :
  emits (within 7 8) (listen_outcome event r).
Proof.
  destruct r as [event_data|e]; cbn [listen_outcome].
  - apply listen_else_stages.
  - destruct (isinstance e SkippableException).
    + then_at 8%nat; [staged|apply _commit_event_stages].
    + destruct (isinstance e CriticalException); [then_at 8%nat; staged|staged].
Qed.

Lemma listen_event_stages (event : polled) :
  emits (within 2 8) (listen_event event).
Proof.
  unfold listen_event. then_at 2%nat; [staged|].
  apply emits_finally with (mid := 8%nat); [lia | | staged].
  then_at 6%nat.
  - apply emits_attempt, listen_try_stages.
  - apply emits_weaken with 7%nat 8%nat; [lia|lia|apply listen_outcome_stages].
Qed.

Lemma listen_body_stages : emits (within 0 8) listen_body.
Proof.
  unfold listen_body. then_at 1%nat; [apply _get_new_event_stages|].
  destruct a as [event|]; [|staged].
  apply emits_weaken with 2%nat 8%nat; [lia|lia|apply listen_event_stages].
Qed.

(** *** The steps of an iteration *)

Lemma _commit_event_commits :
  forall (event : polled) (tp : topic_partition) (offset : Z)
         (key : option string) (s : state),
    p_meta_data event =
      Some {| m_offset := Some offset; m_key := key;
              m_topic_partition := Some tp |} ->
    exists w l,
      _commit_event event s = (Ok tt, after s w [Commit tp (offset + 1); l]) /\
      stage l = None.
Proof.
  intros event tp offset key s Hmeta.
  unfold _commit_event. rewrite Hmeta. mrun.
  destruct (consumer_commit tp (offset + 1) (env s)) as [[u|e] w] eqn:Hc; mrun.
  - exists w, (Log INFO "EVENT COMMITTED"). unfold after. cbn.
    rewrite <- app_assoc. destruct u. split; reflexivity.
  - exists w, (Log ERROR "Error committing event: %s"). unfold after. cbn.
    rewrite <- app_assoc. split; reflexivity.
Qed.

Lemma _get_new_event_record :
  forall (s : state) tp record w message key added,
    polls s tp record w ->
    decode_record record = Ok (message, key, added) ->
    _get_new_event s =
      (Ok (Some (polled_event tp record message key)),
       after s w (Poll :: key_log added)).
Proof.
  intros s tp record w message key added (message_batch & Hpoll & Hfirst) Hdec.
  unfold _get_new_event. mrun. rewrite Hpoll. mrun.
  rewrite Hfirst, Hdec. destruct added; mrun; unfold after; cbn.
  - rewrite <- app_assoc. reflexivity.
  - reflexivity.
Qed.

Lemma _get_new_event_decode_error :
  forall (s : state) tp record w e,
    polls s tp record w ->
    decode_record record = Raise e ->
    isinstance_any e [UnicodeDecodeError; JSONDecodeError] = true ->
    _get_new_event s =
      (Ok None,
       after s w [Poll; Log ERROR "DECODING ERROR: %s - EXCEPTIONS: %s"]).
Proof.
  intros s tp record w e (message_batch & Hpoll & Hfirst) Hdec Hcls.
  unfold _get_new_event. mrun. rewrite Hpoll. mrun.
  rewrite Hfirst, Hdec, Hcls. mrun. unfold after.
  rewrite <- app_assoc. reflexivity.
Qed.

Lemma _get_new_event_poll_raises :
  forall (s : state) e w,
    consumer_getmany TIMEOUT_LISTENER MAX_RECORD (env s) = (Raise e, w) ->
    _get_new_event s =
      (Ok None, after s w [Poll; Log ERROR "Error getting new event: %s"]).
Proof.
  intros s e w Hpoll. unfold _get_new_event. mrun. rewrite Hpoll. mrun.
  unfold after. rewrite <- app_assoc. reflexivity.
Qed.

Lemma _get_new_event_empty :
  forall (s : state) message_batch w,
    consumer_getmany TIMEOUT_LISTENER MAX_RECORD (env s) = (Ok message_batch, w) ->
    first_record message_batch = None ->
    _get_new_event s = (Ok None, after s w [Poll]).
Proof.
  intros s message_batch w Hpoll Hfirst.
  unfold _get_new_event. mrun. rewrite Hpoll. mrun. rewrite Hfirst.
  reflexivity.
Qed.

(** [_get_new_event] returns on every state. *)
Lemma _get_new_event_returns :
  forall s : state, exists event s', _get_new_event s = (Ok event, s').
Proof.
  intros s. unfold _get_new_event. mrun.
  destruct (consumer_getmany _ _ (env s)) as [[message_batch|e] w]; mrun;
    [|eauto].
  destruct (first_record message_batch) as [[tp record]|]; [|eauto].
  destruct (decode_record record) as [[[message key] added]|e].
  - destruct added; mrun; eauto.
  - destruct (isinstance_any e _); mrun; eauto.
Qed.

Lemma listen_body_none :
  forall (s s1 : state),
    _get_new_event s = (Ok None, s1) ->
    listen_body s =
      (Ok tt, after s1 (asyncio_sleep (1 # 10) (env s1)) [Sleep (1 # 10)]).
Proof. intros s s1 H. unfold listen_body. mrun. rewrite H. reflexivity. Qed.

Lemma listen_body_some :
  forall (s s1 : state) (event : polled),
    _get_new_event s = (Ok (Some event), s1) ->
    listen_body s = listen_event event s1.
Proof. intros s s1 event H. unfold listen_body. mrun. rewrite H. reflexivity. Qed.

Lemma listen_loop_continues :
  forall (fuel : nat) (s s' : state),
    stopped (self s) = false ->
    listen_body s = (Ok tt, s') ->
    listen_loop (S fuel) s = listen_loop fuel s'.
Proof.
  intros fuel s s' Hrun Hbody. cbn [listen_loop]. mrun.
  rewrite Hrun, Hbody. reflexivity.
Qed.

Lemma listen_loop_raises :
  forall (fuel : nat) (s s' : state) (e : exn),
    stopped (self s) = false ->
    listen_body s = (Raise e, s') ->
    listen_loop (S fuel) s = (Raise e, s').
Proof.
  intros fuel s s' e Hrun Hbody. cbn [listen_loop]. mrun.
  rewrite Hrun, Hbody. reflexivity.
Qed.

Lemma after_after (s : state) (w w' : Env) (t t' : list action) :
  after (after s w t) w' t' = after s w' (t ++ t').
Proof. unfold after. cbn. rewrite app_assoc. reflexivity. Qed.

(** The event was handled without an exception and the audit step
    returns: one commit, after everything else. *)
Lemma listen_event_returns :
  forall (event : polled) tp offset key (s : state) event_data s2 w3,
    p_meta_data event =
      Some {| m_offset := Some offset; m_key := key;
              m_topic_partition := Some tp |} ->
    listen_try event (after s (env s) [Log INFO "RETRIEVED EVENT: %s"]) =
      (Ok event_data, s2) ->
    audit_returns s2 event_data w3 ->
    exists w4 t_audit l,
      listen_event event s =
        (Ok tt,
         after s2 w4
           (t_audit ++ [Commit tp (offset + 1); l; Log INFO "Finished event"])) /\
      stage l = None /\ commits t_audit = [] /\ handled t_audit = [].
Proof.
  intros event tp offset key s event_data s2 w3 Hmeta Htry Haudit.
  unfold listen_event. unfold bind at 1. unfold emit at 1, modify.
  unfold finally. unfold bind at 1. unfold attempt.
  change {| self := self s; env := env s;
            trace := trace s ++ [Log INFO "RETRIEVED EVENT: %s"] |}
    with (after s (env s) [Log INFO "RETRIEVED EVENT: %s"]).
  rewrite Htry. cbn [listen_outcome].
  unfold listen_else. unfold bind at 1. unfold get at 1.
  unfold audit_returns in Haudit.
  destruct (base__event_root_mapper_service (self s2)) as [[svc|]|];
    [| |contradiction].
  - destruct Haudit as (payload & topic & event_type & issued_at &
                        Hp & Ht & Het & Hi & Hsave).
    rewrite Hp, Ht, Het, Hi.
    unfold bind at 1. unfold bind at 1. unfold lift at 1.
    unfold bind at 1. unfold ret at 1. unfold bind at 1. unfold lift at 1.
    unfold bind at 1. unfold lift at 1. unfold bind at 1. unfold call at 1.
    rewrite Hsave. unfold emit at 1, modify. cbn [self env trace].
    match goal with |- context [_commit_event event ?st] =>
      destruct (_commit_event_commits event tp offset key st Hmeta)
        as (w4 & l & Hc & Hl); rewrite Hc end.
    exists w4, [SaveHeader (_headers (self s2)) payload topic event_type issued_at;
                Log INFO "Saved header %s to mongo"], l.
    unfold emit, modify, after. cbn [self env trace].
    rewrite <- !app_assoc. cbn [app]. repeat split; [exact Hl].
  - subst w3. unfold bind at 1. unfold ret at 1.
    destruct (_commit_event_commits event tp offset key s2 Hmeta)
      as (w4 & l & Hc & Hl). rewrite Hc.
    exists w4, [], l.
    unfold emit, modify, after. cbn [self env trace].
    rewrite <- !app_assoc. cbn [app]. repeat split; [exact Hl].
Qed.

(** The handling raised a skippable exception: it is logged, the offset
    is committed and the iteration ends normally. *)
Lemma listen_event_skips :
  forall (event : polled) tp offset key (s : state) e s2,
    p_meta_data event =
      Some {| m_offset := Some offset; m_key := key;
              m_topic_partition := Some tp |} ->
    listen_try event (after s (env s) [Log INFO "RETRIEVED EVENT: %s"]) =
      (Raise e, s2) ->
    isinstance e SkippableException = true ->
    exists w4 l,
      listen_event event s =
        (Ok tt,
         after s2 w4
           [Log INFO "EVENT SKIPPED BECAUSE %s"; Commit tp (offset + 1); l;
            Log INFO "Finished event"]) /\
      stage l = None.
Proof.
  intros event tp offset key s e s2 Hmeta Htry Hskip.
  unfold listen_event. unfold bind at 1. unfold emit at 1, modify.
  unfold finally. unfold bind at 1. unfold attempt.
  change {| self := self s; env := env s;
            trace := trace s ++ [Log INFO "RETRIEVED EVENT: %s"] |}
    with (after s (env s) [Log INFO "RETRIEVED EVENT: %s"]).
  rewrite Htry. cbn [listen_outcome]. rewrite Hskip.
  unfold bind at 1. unfold emit at 1, modify.
  match goal with |- context [_commit_event event ?st] =>
    destruct (_commit_event_commits event tp offset key st Hmeta)
      as (w4 & l & Hc & Hl); rewrite Hc end.
  exists w4, l. unfold emit, modify, after. cbn [self env trace].
  rewrite <- !app_assoc. cbn [app]. split; [reflexivity|exact Hl].
Qed.

(** The handling raised anything else: the exception leaves the
    iteration, and nothing but logging happens on its way. *)
Lemma listen_event_propagates :
  forall (event : polled) (s : state) e s2,
    listen_try event (after s (env s) [Log INFO "RETRIEVED EVENT: %s"]) =
      (Raise e, s2) ->
    isinstance e SkippableException = false ->
    exists t,
      listen_event event s = (Raise e, after s2 (env s2) t) /\
      commits t = [] /\ handled t = [].
Proof.
  intros event s e s2 Htry Hskip.
  unfold listen_event. unfold bind at 1. unfold emit at 1, modify.
  unfold finally. unfold bind at 1. unfold attempt.
  change {| self := self s; env := env s;
            trace := trace s ++ [Log INFO "RETRIEVED EVENT: %s"] |}
    with (after s (env s) [Log INFO "RETRIEVED EVENT: %s"]).
  rewrite Htry. cbn [listen_outcome]. rewrite Hskip.
  destruct (isinstance e CriticalException).
  - exists [Log ERROR "CRITICAL ERROR ON EVENT %s: %s"; Log INFO "Finished event"].
    mrun. unfold after. cbn [self env trace].
    rewrite <- !app_assoc. repeat split.
  - exists [Log INFO "Finished event"]. mrun. repeat split.
Qed.

(** *** The handler step *)

Lemma skippable_not_critical (e : exn) :
  isinstance e SkippableException = true ->
  isinstance e CriticalException = false.
Proof.
  unfold isinstance. destruct (root (exn_cls e)); cbn; congruence.
Qed.

Lemma _handle_event_ok :
  forall (event : pyval) (s s1 : state) (d : pyval),
    handle_event_body event s = (Ok d, s1) ->
    _handle_event event s = (Ok d, s1).
Proof. intros event s s1 d H. unfold _handle_event, catch. rewrite H. reflexivity. Qed.

(** What leaves [_handle_event] when its body raises [e]: [e] itself when
    it is skippable or critical, a [CriticalException] raised from [e]
    otherwise; one log line is written. *)
Definition classified (e : exn) : exn :=
  if isinstance e SkippableException then e
  else if isinstance e CriticalException then e
  else new_from CriticalException e.

Lemma _handle_event_raises :
  forall (event : pyval) (s s1 : state) (e : exn),
    handle_event_body event s = (Raise e, s1) ->
    exists l,
      stage l = None /\
      _handle_event event s = (Raise (classified e), after s1 (env s1) [l]).
Proof.
  intros event s s1 e H. unfold _handle_event, catch, classified. rewrite H.
  destruct (isinstance e SkippableException).
  - exists (Log INFO "EVENT SKIPPED BECAUSE %s"). split; reflexivity.
  - destruct (isinstance e CriticalException).
    + exists (Log ERROR "CRITICAL ERROR ON EVENT %s: %s"). split; reflexivity.
    + exists (Log ERROR "Unexpected error handling event %s: %s").
      split; reflexivity.
Qed.

Lemma classified_not_skippable (e : exn) :
  isinstance e SkippableException = false ->
  isinstance (classified e) CriticalException = true /\
  isinstance (classified e) SkippableException = false.
Proof.
  intros H. unfold classified. rewrite H.
  destruct (isinstance e CriticalException) eqn:Hc; [auto|].
  split; reflexivity.
Qed.

(** When the body returns, the handler was called, once, and whatever
    else happened was no handler call. *)
Lemma handle_event_body_calls_handler :
  forall (event : pyval) (s s1 : state) (d : pyval),
    handle_event_body event s = (Ok d, s1) ->
    exists t1 t2 ev,
      trace s1 = trace s ++ t1 ++ Handle ev :: t2 /\
      handled t1 = [] /\ handled t2 = [].
Proof.
  intros event s s1 d H. unfold handle_event_body in H.
  unfold bind at 1 in H.
  destruct (_filter_event event s) as [[filtered|e] sf] eqn:Hf;
    [|discriminate].
  destruct (run_filters_stages (_filters (self s)) event s (Ok filtered) sf)
    as (tf & Htf & Hwf).
  { unfold _filter_event, bind, get in Hf. exact Hf. }
  unfold bind at 1 in H.
  destruct (before_handle filtered sf) as [[ev|e] sb] eqn:Hb; [|discriminate].
  assert (Hsb : exists tb, trace sb = trace sf ++ tb /\ handled tb = []).
  { unfold before_handle in Hb. mrun.
    destruct (_before_handle_callback (self sf)) as [callback|].
    - mrun. destruct (callback filtered (env sf)) as [[x|x] wb];
        inversion Hb; subst. exists [BeforeHandle filtered]. split; reflexivity.
    - inversion Hb; subst. exists []. rewrite app_nil_r. split; reflexivity. }
  destruct Hsb as (tb & Htb & Hhb).
  mrun. destruct (py_get ev "event_type") as [event_type|e]; [|discriminate].
  destruct (truthy event_type); mrun; [|discriminate].
  destruct (handlers (self sb) ev (env sb)) as [[u|e] wh]; [|discriminate].
  mrun.
  destruct (_after_handle_callback (self sb)) as [callback|]; mrun.
  - destruct (callback ev wh) as [[u'|e] wa]; [|discriminate].
    inversion H; subst. cbn [trace].
    exists (tf ++ tb), [AfterHandle ev], ev. rewrite Htb, Htf.
    rewrite <- !app_assoc. cbn [app]. split; [reflexivity|].
    rewrite handled_app, Hhb, (within_no_handle 3 3 tf Hwf) by lia.
    split; reflexivity.
  - inversion H; subst. cbn [trace].
    exists (tf ++ tb), [], ev. rewrite Htb, Htf.
    rewrite <- !app_assoc. cbn [app]. split; [reflexivity|].
    rewrite handled_app, Hhb, (within_no_handle 3 3 tf Hwf) by lia.
    split; reflexivity.
Qed.

(** An event that, after the filters and the optional transform, is a
    dict without [event_type] is rejected before the handler is called. *)
Lemma handle_event_body_untyped :
  forall (event filtered : pyval) (d : list (string * pyval))
         (s s1 s2 : state),
    _filter_event event s = (Ok filtered, s1) ->
    before_handle filtered s1 = (Ok (PDict d), s2) ->
    dict_get d "event_type" = None ->
    handle_event_body event s = (Raise (new InvalidMessageException), s2) /\
    exists t, trace s2 = trace s ++ t /\ within 3 4 t.
Proof.
  intros event filtered d s s1 s2 Hf Hb Hd. split.
  - unfold handle_event_body. unfold bind at 1. rewrite Hf.
    unfold bind at 1. rewrite Hb.
    unfold bind at 1. unfold lift at 1. unfold py_get. rewrite Hd.
    reflexivity.
  - destruct (run_filters_stages (_filters (self s)) event s (Ok filtered) s1)
      as (tf & Htf & Hwf).
    { unfold _filter_event, bind, get in Hf. exact Hf. }
    assert (Hbs : emits (within 4 4) (before_handle filtered)).
    { unfold before_handle. apply emits_get_bind. intros s0.
      destruct (_before_handle_callback _); staged. }
    destruct (Hbs _ _ _ Hb) as (tb & Htb & Hwb).
    exists (tf ++ tb). rewrite Htb, Htf, app_assoc. split; [reflexivity|].
    apply within_app with 3%nat; [lia | exact Hwf |].
    apply within_weaken with 4%nat 4%nat; [lia|lia|exact Hwb].
Qed.

Lemma _handle_event_ok_inv :
  forall (event : pyval) (s s1 : state) (d : pyval),
    _handle_event event s = (Ok d, s1) ->
    handle_event_body event s = (Ok d, s1).
Proof.
  intros event s s1 d H.
  destruct (handle_event_body event s) as [[d'|e] s'] eqn:Hb.
  - rewrite (_handle_event_ok _ _ _ _ Hb) in H. exact H.
  - destruct (_handle_event_raises _ _ _ _ Hb) as (l & _ & Hr).
    rewrite Hr in H. discriminate.
Qed.

(** *** The [try] of [listen] *)

Lemma listen_try_steps :
  forall (event : polled) (s s1 : state),
    _create_header (p_headers event)
      (after s (env s) [Log INFO "RETRIEVED EVENT: %s, headers %s"]) =
      (Ok tt, s1) ->
    listen_try event s =
      _handle_event (p_event event)
        (after s1 (env s1) [Log INFO "HANDLING EVENT"]).
Proof.
  intros event s s1 H. unfold listen_try.
  unfold bind at 1. unfold emit at 1, modify.
  change {| self := self s; env := env s;
            trace := trace s ++ [Log INFO "RETRIEVED EVENT: %s, headers %s"] |}
    with (after s (env s) [Log INFO "RETRIEVED EVENT: %s, headers %s"]).
  unfold bind at 1. rewrite H. reflexivity.
Qed.

Lemma listen_try_header_raises :
  forall (event : polled) (s s1 : state) (e : exn),
    _create_header (p_headers event)
      (after s (env s) [Log INFO "RETRIEVED EVENT: %s, headers %s"]) =
      (Raise e, s1) ->
    listen_try event s = (Raise e, s1).
Proof.
  intros event s s1 e H. unfold listen_try.
  unfold bind at 1. unfold emit at 1, modify.
  change {| self := self s; env := env s;
            trace := trace s ++ [Log INFO "RETRIEVED EVENT: %s, headers %s"] |}
    with (after s (env s) [Log INFO "RETRIEVED EVENT: %s, headers %s"]).
  unfold bind at 1. rewrite H. reflexivity.
Qed.

Lemma commits_app_nil (t1 t2 : list action) :
  commits (t1 ++ t2) = [] -> commits t1 = [] /\ commits t2 = [].
Proof. rewrite commits_app. apply app_eq_nil. Qed.

(** When the [try] returns, the handler was called in it, once, and no
    commit was made. *)
Lemma listen_try_calls_handler :
  forall (event : polled) (s s2 : state) (d : pyval),
    listen_try event s = (Ok d, s2) ->
    exists t1 t2 ev,
      trace s2 = trace s ++ t1 ++ Handle ev :: t2 /\
      commits t1 = [] /\ handled t1 = [] /\
      commits t2 = [] /\ handled t2 = [].
Proof.
  intros event s s2 d H.
  destruct (listen_try_stages event s (Ok d) s2 H) as (t & Ht & Hw).
  destruct (_create_header (p_headers event)
              (after s (env s) [Log INFO "RETRIEVED EVENT: %s, headers %s"]))
    as [[[]|e] s1] eqn:Hh.
  - rewrite (listen_try_steps _ _ _ Hh) in H.
    apply _handle_event_ok_inv in H.
    destruct (handle_event_body_calls_handler _ _ _ _ H)
      as (u1 & u2 & ev & Hu & Hu1 & Hu2).
    destruct (_create_header_stages _ _ _ _ Hh) as (th & Hth & Hwh).
    cbn [trace after] in Hu, Hth. rewrite Hth in Hu.
    exists (([Log INFO "RETRIEVED EVENT: %s, headers %s"] ++ th ++
             [Log INFO "HANDLING EVENT"]) ++ u1), u2, ev.
    assert (Heq : trace s2 =
              trace s ++
              (([Log INFO "RETRIEVED EVENT: %s, headers %s"] ++ th ++
                [Log INFO "HANDLING EVENT"]) ++ u1) ++ Handle ev :: u2).
    { rewrite Hu. rewrite <- !app_assoc. reflexivity. }
    split; [exact Heq|].
    rewrite Ht in Heq. apply app_inv_head in Heq. subst t.
    pose proof (within_no_commit 2 6 _ Hw ltac:(lia)) as Hc.
    apply commits_app_nil in Hc as [Hc1 Hc2].
    change (Handle ev :: u2) with ([Handle ev] ++ u2) in Hc2.
    apply commits_app_nil in Hc2 as [_ Hc2].
    repeat split; try assumption.
    rewrite !handled_app, Hu1.
    rewrite (within_no_handle 2 2 th Hwh) by lia. reflexivity.
  - rewrite (listen_try_header_raises _ _ _ _ Hh) in H. discriminate.
Qed.

(** The polled event carries the record's partition and offset. *)
Lemma polled_event_meta tp record message key :
  p_meta_data (polled_event tp record message key) =
    Some {| m_offset := Some (r_offset record); m_key := key;
            m_topic_partition := Some tp |}.
Proof. reflexivity. Qed.

Lemma after_poll_log (s : state) (w : Env) (added : bool) :
  after (after s w (Poll :: key_log added))
    (env (after s w (Poll :: key_log added)))
    [Log INFO "RETRIEVED EVENT: %s"] =
  at_try s w added.
Proof. rewrite after_after. reflexivity. Qed.

(** A skippable failure of the handling: the iteration logs it, commits
    the record's offset + 1 on its partition and ends normally, so the
    loop goes on. *)
Lemma skippable_failure_commits_and_continues :
  forall (fuel : nat) (s : state) tp record w message key added e s2,
    stopped (self s) = false ->
    polls s tp record w ->
    decode_record record = Ok (message, key, added) ->
    listen_try (polled_event tp record message key)
      (at_try s w added) = (Raise e, s2) ->
    isinstance e SkippableException = true ->
    exists w4 l,
      stage l = None /\
      listen_body s =
        (Ok tt,
         after s2 w4
           [Log INFO "EVENT SKIPPED BECAUSE %s";
            Commit tp (r_offset record + 1); l; Log INFO "Finished event"]) /\
      listen_loop (S fuel) s =
        listen_loop fuel
          (after s2 w4
             [Log INFO "EVENT SKIPPED BECAUSE %s";
              Commit tp (r_offset record + 1); l; Log INFO "Finished event"]).
Proof.
  intros fuel s tp record w message key added e s2 Hrun Hpoll Hdec Htry Hskip.
  pose proof (_get_new_event_record s tp record w message key added Hpoll
                Hdec)
    as Hget.
  rewrite <- after_poll_log in Htry.
  destruct (listen_event_skips _ tp (r_offset record) key _ e s2
              (polled_event_meta tp record message key) Htry Hskip)
    as (w4 & l & Hev & Hl).
  exists w4, l. split; [exact Hl|].
  assert (Hbody : listen_body s =
            (Ok tt,
             after s2 w4
               [Log INFO "EVENT SKIPPED BECAUSE %s";
                Commit tp (r_offset record + 1); l; Log INFO "Finished event"])).
  { rewrite (listen_body_some _ _ _ Hget). exact Hev. }
  split; [exact Hbody|].
  apply listen_loop_continues; assumption.
Qed.

(** *** The loop, record by record *)

(** Where the attributes the audit step reads are bound under the base
    class's names, which [__init__] does not do: for every consumed record
    whose handling ([_create_header], then [_handle_event] with its
    callbacks) returns, and whose audit step returns when an audit sink is
    configured, the iteration calls commit exactly once, with the record's
    offset + 1 on the record's partition, after the handler call; the
    loop goes on. *)
Theorem handled_record_is_committed_once_after_handler :
  forall (fuel : nat) (s : state) tp record w message key added event_data
         s2 w3,
    stopped (self s) = false ->
    polls s tp record w ->
    decode_record record = Ok (message, key, added) ->
    listen_try (polled_event tp record message key)
      (at_try s w added) = (Ok event_data, s2) ->
    audit_returns s2 event_data w3 ->
    exists s3 t1 t2 ev,
      listen_body s = (Ok tt, s3) /\
      listen_loop (S fuel) s = listen_loop fuel s3 /\
      trace s3 = trace s ++ t1 ++ Commit tp (r_offset record + 1) :: t2 /\
      In (Handle ev) t1 /\ commits t1 = [] /\
      commits t2 = [] /\ handled t2 = [].
Proof.
  intros fuel s tp record w message key added event_data s2 w3
         Hrun Hpoll Hdec Htry Haudit.
  pose proof (_get_new_event_record s tp record w message key added Hpoll
                Hdec)
    as Hget.
  destruct (listen_try_calls_handler _ _ _ _ Htry)
    as (u1 & u2 & ev & Hu & Hc1 & Hh1 & Hc2 & Hh2).
  rewrite <- after_poll_log in Htry.
  destruct (listen_event_returns _ tp (r_offset record) key _ event_data s2 w3
              (polled_event_meta tp record message key) Htry Haudit)
    as (w4 & ta & l & Hev & Hl & Hca & Hha).
  eexists.
  exists ((Poll :: key_log added ++ [Log INFO "RETRIEVED EVENT: %s"]) ++
          u1 ++ Handle ev :: u2 ++ ta).
  exists [l; Log INFO "Finished event"], ev.
  assert (Hbody : listen_body s =
            (Ok tt,
             after s2 w4
               (ta ++ [Commit tp (r_offset record + 1); l;
                       Log INFO "Finished event"]))).
  { rewrite (listen_body_some _ _ _ Hget). exact Hev. }
  split; [exact Hbody|].
  split; [apply listen_loop_continues; assumption|].
  split.
  { unfold at_try in Hu. cbn [trace after] in *. rewrite Hu.
    rewrite <- ?app_assoc. cbn [app]. rewrite <- ?app_assoc. reflexivity. }
  split.
  { apply in_or_app. right. apply in_or_app. right. left. reflexivity. }
  split.
  { rewrite !commits_app, Hc1.
    change (Handle ev :: u2 ++ ta) with ([Handle ev] ++ u2 ++ ta).
    rewrite !commits_app, Hc2, Hca. destruct added; reflexivity. }
  split.
  { destruct l; cbn in Hl |- *; try reflexivity; try discriminate. }
  { destruct l; cbn in Hl |- *; try reflexivity; try discriminate. }
Qed.

(** C2.  Inside [_handle_event] an exception that is not skippable
    leaves as a critical one: itself when it is a [CriticalException], a
    [CriticalException] raised from it otherwise.  And for every consumed
    record whose handling raises an exception that is not skippable, the
    iteration commits nothing and the exception leaves the loop. *)
Theorem critical_failure_leaves_loop_without_commit :
  (forall (event : pyval) (s s1 : state) (e : exn),
     handle_event_body event s = (Raise e, s1) ->
     isinstance e SkippableException = false ->
     exists s2,
       _handle_event event s = (Raise (classified e), s2) /\
       isinstance (classified e) CriticalException = true /\
       (isinstance e CriticalException = true -> classified e = e) /\
       (isinstance e CriticalException = false ->
        classified e = new_from CriticalException e) /\
       commits (trace s2) = commits (trace s)) /\
  (forall (fuel : nat) (s : state) tp record w message key added e s2,
     stopped (self s) = false ->
     polls s tp record w ->
     decode_record record = Ok (message, key, added) ->
     listen_try (polled_event tp record message key)
       (at_try s w added) = (Raise e, s2) ->
     isinstance e SkippableException = false ->
     exists s3,
       listen_loop (S fuel) s = (Raise e, s3) /\
       commits (trace s3) = commits (trace s) /\
       env s3 = env s2).
Proof.
  split.
  - intros event s s1 e Hbody Hskip.
    destruct (_handle_event_raises _ _ _ _ Hbody) as (l & Hl & Hr).
    destruct (handle_event_body_stages _ _ _ _ Hbody) as (t & Ht & Hw).
    eexists. split; [exact Hr|].
    split; [apply classified_not_skippable; exact Hskip|].
    split; [|split].
    + intros Hc. unfold classified. rewrite Hskip, Hc. reflexivity.
    + intros Hc. unfold classified. rewrite Hskip, Hc. reflexivity.
    + cbn [trace after]. rewrite Ht, !commits_app.
      rewrite (within_no_commit 3 6 t Hw) by lia.
      destruct l; cbn in Hl |- *; try discriminate; rewrite ?app_nil_r;
        reflexivity.
  - intros fuel s tp record w message key added e s2 Hrun Hpoll Hdec Htry
           Hskip.
    pose proof (_get_new_event_record s tp record w message key added Hpoll
                Hdec)
      as Hget.
    destruct (listen_try_stages _ _ _ _ Htry) as (t & Ht & Hw).
    rewrite <- after_poll_log in Htry.
    destruct (listen_event_propagates _ _ e s2 Htry Hskip)
      as (t' & Hev & Hc' & _).
    exists (after s2 (env s2) t'). split; [|split].
    + apply listen_loop_raises; [exact Hrun|].
      rewrite (listen_body_some _ _ _ Hget). exact Hev.
    + unfold at_try in Ht. cbn [trace after] in *.
      rewrite Ht, !commits_app, Hc'.
      rewrite (within_no_commit 2 6 t Hw) by lia.
      destruct added; cbn; rewrite !app_nil_r; reflexivity.
    + reflexivity.
Qed.

(** C10 (amended).  A consumed event that reaches [_handle_event] and, after the
    filters and the optional before-handle transform, is a dict with no
    [event_type] field makes it raise [InvalidMessageException], which is
    skippable, before the handler is called: the iteration calls no handler,
    commits the record's offset + 1 and the loop goes on. *)
Theorem untyped_event_is_skipped_before_the_handler :
  forall (fuel : nat) (s : state) tp record w message key added s1 filtered
         s2 d s3,
    stopped (self s) = false ->
    polls s tp record w ->
    decode_record record = Ok (message, key, added) ->
    _create_header (r_headers record)
      (after (at_try s w added) w
         [Log INFO "RETRIEVED EVENT: %s, headers %s"]) = (Ok tt, s1) ->
    _filter_event message (after s1 (env s1) [Log INFO "HANDLING EVENT"]) =
      (Ok filtered, s2) ->
    before_handle filtered s2 = (Ok (PDict d), s3) ->
    dict_get d "event_type" = None ->
    exists s4 s5,
      _handle_event message (after s1 (env s1) [Log INFO "HANDLING EVENT"]) =
        (Raise (new InvalidMessageException), s4) /\
      isinstance (new InvalidMessageException) SkippableException = true /\
      listen_loop (S fuel) s = listen_loop fuel s5 /\
      handled (trace s5) = handled (trace s) /\
      commits (trace s5) = commits (trace s) ++ [(tp, r_offset record + 1)].
Proof.
  intros fuel s tp record w message key added s1 filtered s2 d s3
         Hrun Hpoll Hdec Hhdr Hf Hb Hd.
  destruct (handle_event_body_untyped _ _ _ _ _ _ Hf Hb Hd)
    as (Hbody & tb & Htb & Hwb).
  destruct (_handle_event_raises _ _ _ _ Hbody) as (l0 & Hl0 & Hraise).
  change (classified (new InvalidMessageException))
    with (new InvalidMessageException) in Hraise.
  destruct (_create_header_stages _ _ _ _ Hhdr) as (th & Hth & Hwh).
  assert (Htry : listen_try (polled_event tp record message key)
                   (at_try s w added) =
                 (Raise (new InvalidMessageException),
                  after s3 (env s3) [l0])).
  { rewrite (listen_try_steps _ _ s1).
    - exact Hraise.
    - exact Hhdr. }
  destruct (skippable_failure_commits_and_continues fuel s tp record w
              message key added _ _ Hrun Hpoll Hdec Htry eq_refl)
    as (w4 & l & Hl & _ & Hloop).
  eexists. eexists. split; [exact Hraise|]. split; [reflexivity|].
  split; [exact Hloop|].
  unfold at_try in Hth. cbn [trace after] in *. rewrite Htb. cbn [trace].
  rewrite Hth. rewrite !handled_app, !commits_app.
  rewrite (within_no_handle 2 2 th Hwh) by lia.
  rewrite (within_no_handle 3 4 tb Hwb) by lia.
  rewrite (within_no_commit 2 2 th Hwh) by lia.
  rewrite (within_no_commit 3 4 tb Hwb) by lia.
  destruct added; destruct l0; cbn in Hl0; try discriminate;
    destruct l; cbn in Hl; try discriminate;
    cbn; rewrite ?app_nil_r; split; reflexivity.
Qed.

(** C8.  A polled record whose value is not UTF-8 or not JSON: the
    decode error is logged, [_get_new_event] yields the empty result, the
    iteration sleeps and the loop goes on; nothing is committed.  On a
    transport that delivers uncommitted records again, the next poll
    returns the same record. *)
Theorem undecodable_record_is_not_committed :
  forall (fuel : nat) (s : state) tp record w,
    stopped (self s) = false ->
    polls s tp record w ->
    undecodable record ->
    let s1 :=
      after s (asyncio_sleep (1 # 10) w)
        [Poll; Log ERROR "DECODING ERROR: %s - EXCEPTIONS: %s";
         Sleep (1 # 10)] in
    _get_new_event s =
      (Ok None,
       after s w [Poll; Log ERROR "DECODING ERROR: %s - EXCEPTIONS: %s"]) /\
    listen_body s = (Ok tt, s1) /\
    listen_loop (S fuel) s = listen_loop fuel s1 /\
    commits (trace s1) = commits (trace s) /\
    (redelivers_uncommitted -> exists w2, polls s1 tp record w2).
Proof.
  intros fuel s tp record w Hrun Hpoll (body & Hval & Hbad) s1.
  assert (Hdec : exists e,
            decode_record record = Raise e /\
            isinstance_any e [UnicodeDecodeError; JSONDecodeError] = true).
  { unfold decode_record. rewrite Hval.
    destruct Hbad as [Hu | (text & e & Hu & Hj & Hcls)].
    - rewrite Hu. eexists. split; reflexivity.
    - rewrite Hu, Hj. exists e. split; [reflexivity|].
      cbn. rewrite Hcls. apply orb_true_r. }
  destruct Hdec as (e & Hdec & Hcls).
  pose proof (_get_new_event_decode_error s tp record w e Hpoll Hdec Hcls)
    as Hget.
  assert (Hbody : listen_body s = (Ok tt, s1)).
  { rewrite (listen_body_none _ _ Hget). rewrite after_after. reflexivity. }
  split; [exact Hget|]. split; [exact Hbody|].
  split; [apply listen_loop_continues; assumption|].
  split.
  - subst s1. cbn [trace after]. rewrite commits_app. cbn.
    apply app_nil_r.
  - intros Hre. destruct Hpoll as (message_batch & Hp & Hfirst).
    destruct (Hre _ _ _ (1 # 10) Hp) as (w2 & Hp2).
    exists w2, message_batch. split; [exact Hp2|exact Hfirst].
Qed.

(** C9.  [_get_new_event] returns on every state, it never raises.  When
    the poll itself raises, or reading the polled record raises, the result
    is empty, as for an empty batch; a failed poll is logged, and as for an
    empty batch the iteration only sleeps and the loop goes on. *)
Theorem poll_step_never_raises :
  (forall s : state, exists event s', _get_new_event s = (Ok event, s')) /\
  (forall (s : state) tp record w e,
     polls s tp record w ->
     decode_record record = Raise e ->
     exists s', _get_new_event s = (Ok None, s')) /\
  (forall (fuel : nat) (s : state) e w,
     stopped (self s) = false ->
     consumer_getmany TIMEOUT_LISTENER MAX_RECORD (env s) = (Raise e, w) ->
     _get_new_event s =
       (Ok None, after s w [Poll; Log ERROR "Error getting new event: %s"]) /\
     listen_loop (S fuel) s =
       listen_loop fuel
         (after s (asyncio_sleep (1 # 10) w)
            [Poll; Log ERROR "Error getting new event: %s"; Sleep (1 # 10)])) /\
  (forall (fuel : nat) (s : state) message_batch w,
     stopped (self s) = false ->
     consumer_getmany TIMEOUT_LISTENER MAX_RECORD (env s) = (Ok message_batch, w) ->
     first_record message_batch = None ->
     _get_new_event s = (Ok None, after s w [Poll]) /\
     listen_loop (S fuel) s =
       listen_loop fuel
         (after s (asyncio_sleep (1 # 10) w) [Poll; Sleep (1 # 10)])).
Proof.
  split; [exact _get_new_event_returns|]. split; [|split].
  - intros s tp record w e (message_batch & Hpoll & Hfirst) Hdec.
    unfold _get_new_event. mrun. rewrite Hpoll. mrun.
    rewrite Hfirst, Hdec. destruct (isinstance_any e _); mrun; eauto.
  - intros fuel s e w Hrun Hpoll.
    pose proof (_get_new_event_poll_raises s e w Hpoll) as Hget.
    split; [exact Hget|].
    apply listen_loop_continues; [exact Hrun|].
    rewrite (listen_body_none _ _ Hget), after_after. reflexivity.
  - intros fuel s message_batch w Hrun Hpoll Hfirst.
    pose proof (_get_new_event_empty s message_batch w Hpoll Hfirst) as Hget.
    split; [exact Hget|].
    apply listen_loop_continues; [exact Hrun|].
    rewrite (listen_body_none _ _ Hget), after_after. reflexivity.
Qed.

(** *** The order of the steps of an iteration *)

Lemma within_no_filter_before (lo hi : nat) (t : list action) :
  within lo hi t -> (hi < 3)%nat -> filtered_events t = [].
Proof.
  intros [_ Hb] Hhi. induction t as [|a t IH]; [reflexivity|].
  change (a :: t) with ([a] ++ t) in *.
  rewrite stages_app in Hb. apply Forall_app in Hb as [Ha Ht].
  rewrite filtered_events_app, (IH Ht), app_nil_r.
  destruct a; try reflexivity.
  cbn in Ha. inversion Ha; subst. lia.
Qed.

Lemma no_filter_in (t : list action) (ev : pyval) :
  filtered_events t = [] -> ~ In (Filter ev) t.
Proof.
  intros H Hin. apply in_split in Hin as (t1 & t2 & ->).
  rewrite filtered_events_app in H. apply app_eq_nil in H as [_ H].
  cbn in H. discriminate.
Qed.

(** When [_create_header] returns, the last thing it did was to log the
    header it created. *)
Lemma _create_header_logs :
  forall (headers : list (string * pyval)) (s s1 : state),
    _create_header headers s = (Ok tt, s1) ->
    exists t, trace s1 = trace s ++ t ++ [Log INFO "Create header %s"].
Proof.
  intros headers s s1 H. unfold _create_header in H.
  unfold bind at 1 in H.
  destruct (_decode_headers (dict_of_pairs headers)) as [decoded|ke].
  - unfold ret at 1 in H. unfold catch in H.
    match type of H with (match ?m s with _ => _ end) = _ =>
      destruct (m s) as [[[]|e] s2] eqn:Hm end.
    + inversion H; subst. clear H. unfold bind at 1 in Hm. unfold get at 1 in Hm.
      unfold bind at 1 in Hm.
      match type of Hm with (match ?m s with _ => _ end) = _ =>
        destruct (m s) as [[log_header|e] s3] eqn:Hl end; [|discriminate].
      assert (Hs3 : exists t, trace s3 = trace s ++ t).
      { assert (Hw : emits (within 2 2)
                  (if negb (_mongo_connected (self s))
                   then ret (PDict decoded)
                   else
                     creator <-
                       match decoded with
                       | [] =>
                           match base__event_root_mapper_service (self s) with
                           | None => raise (new AttributeError)
                           | Some svc => ret svc
                           end
                       | _ => ret None
                       end ;;
                     match creator with
                     | Some svc => call CreateHeader (create_header svc)
                     | None =>
                         root_id <- lift (py_get (PDict decoded) "root_id") ;;
                         parent_id <- lift (py_get (PDict decoded) "parent_id") ;;
                         event_id <- lift (py_get (PDict decoded) "event_id") ;;
                         ret (PDict [("root_id", root_id);
                                     ("parent_id", parent_id);
                                     ("event_id", event_id)])
                     end)).
        { destruct (negb _); [staged|]. then_at 2%nat.
          - destruct decoded; [|staged].
            destruct (base__event_root_mapper_service _); staged.
          - destruct a as [svc|]; [staged|].
            then_at 2%nat; [staged|]. then_at 2%nat; [staged|].
            then_at 2%nat; staged. }
        destruct (Hw _ _ _ Hl) as (t & Ht & _). exists t. exact Ht. }
      destruct Hs3 as (t & Ht). mrun. inversion Hm; subst. cbn [trace].
      exists t. rewrite Ht, app_assoc. reflexivity.
    + mrun. discriminate.
  - destruct (isinstance ke KeyError); mrun; discriminate.
Qed.

(** What is left of the iteration once the header is created. *)
Definition after_header (event : polled) : M state unit :=
  finally
    (r <- attempt (_handle_event (p_event event)) ;; listen_outcome event r)
    (emit (Log INFO "Finished event")).

Lemma after_header_stages (event : polled) :
  emits (within 3 8) (after_header event).
Proof.
  unfold after_header.
  apply emits_finally with (mid := 8%nat); [lia | | staged].
  then_at 6%nat.
  - apply emits_attempt, _handle_event_stages.
  - apply emits_weaken with 7%nat 8%nat; [lia|lia|apply listen_outcome_stages].
Qed.

Lemma listen_event_after_header :
  forall (event : polled) (s sh : state),
    _create_header (p_headers event)
      (after s (env s) [Log INFO "RETRIEVED EVENT: %s";
                        Log INFO "RETRIEVED EVENT: %s, headers %s"]) =
      (Ok tt, sh) ->
    listen_event event s =
      after_header event (after sh (env sh) [Log INFO "HANDLING EVENT"]).
Proof.
  intros event s sh H. unfold listen_event, after_header.
  unfold bind at 1. unfold emit at 1, modify. unfold finally.
  unfold bind at 1. unfold attempt at 1.
  change {| self := self s; env := env s;
            trace := trace s ++ [Log INFO "RETRIEVED EVENT: %s"] |}
    with (after s (env s) [Log INFO "RETRIEVED EVENT: %s"]).
  rewrite (listen_try_steps event _ sh).
  - unfold bind, attempt. reflexivity.
  - rewrite after_after. exact H.
Qed.

Lemma listen_event_header_raises :
  forall (event : polled) (s sh : state) (e : exn),
    _create_header (p_headers event)
      (after s (env s) [Log INFO "RETRIEVED EVENT: %s";
                        Log INFO "RETRIEVED EVENT: %s, headers %s"]) =
      (Raise e, sh) ->
    listen_event event s =
      finally (listen_outcome event (Raise e))
        (emit (Log INFO "Finished event")) sh.
Proof.
  intros event s sh e H. unfold listen_event.
  unfold bind at 1. unfold emit at 1, modify. unfold finally.
  unfold bind at 1. unfold attempt at 1.
  change {| self := self s; env := env s;
            trace := trace s ++ [Log INFO "RETRIEVED EVENT: %s"] |}
    with (after s (env s) [Log INFO "RETRIEVED EVENT: %s"]).
  rewrite (listen_try_header_raises event _ sh e).
  - reflexivity.
  - rewrite after_after. exact H.
Qed.

(** C5 (amended).  An iteration goes through its steps in the order
    poll, decode, trace header, filters, before-handle transform, handler,
    after-handle callback, audit, commit: the staged actions of its trace
    never step back, and whenever a filter is applied the trace header was
    created and logged before.  A filter that raises rejects the event
    before the handler is called. *)
Theorem iteration_creates_header_before_filters :
  (forall (s : state) (r : result unit) (s' : state),
     listen_body s = (r, s') ->
     exists t,
       trace s' = trace s ++ t /\
       ascending 0 (stages t) = true /\
       forall ev, In (Filter ev) t ->
         exists t1 t2,
           t = t1 ++ Filter ev :: t2 /\
           In (Log INFO "Create header %s") t1) /\
  (forall (event : pyval) (s s1 : state) (e : exn),
     _filter_event event s = (Raise e, s1) ->
     exists s2,
       _handle_event event s = (Raise (classified e), s2) /\
       handled (trace s2) = handled (trace s)).
Proof.
  split.
  - intros s r s' Hbody.
    destruct (listen_body_stages _ _ _ Hbody) as (t & Ht & Hw).
    exists t. split; [exact Ht|]. split; [exact (proj1 Hw)|].
    intros ev Hin.
    destruct (_get_new_event_returns s) as (oe & s1 & Hget).
    destruct (_get_new_event_stages _ _ _ Hget) as (tp & Htp & Hwp).
    pose proof (within_no_filter_before 0 1 tp Hwp ltac:(lia)) as Hnp.
    destruct oe as [event|].
    + rewrite (listen_body_some _ _ _ Hget) in Hbody.
      destruct (_create_header (p_headers event)
                  (after s1 (env s1)
                     [Log INFO "RETRIEVED EVENT: %s";
                      Log INFO "RETRIEVED EVENT: %s, headers %s"]))
        as [[[]|e] sh] eqn:Hh.
      * destruct (_create_header_logs _ _ _ Hh) as (th & Hth).
        destruct (_create_header_stages _ _ _ _ Hh) as (th' & Hth' & Hwh).
        rewrite Hth in Hth'. apply app_inv_head in Hth'. subst th'.
        rewrite (listen_event_after_header _ _ _ Hh) in Hbody.
        destruct (after_header_stages _ _ _ _ Hbody) as (tr & Htr & Hwr).
        cbn [trace after] in Hth, Htr. rewrite Hth, Htp in Htr.
        assert (Heq : t = (tp ++ [Log INFO "RETRIEVED EVENT: %s";
                                  Log INFO "RETRIEVED EVENT: %s, headers %s"]
                              ++ th ++ [Log INFO "Create header %s";
                                        Log INFO "HANDLING EVENT"]) ++ tr).
        { apply (app_inv_head (trace s)). rewrite <- Ht, Htr.
          rewrite <- ?app_assoc. cbn [app]. rewrite <- ?app_assoc.
          reflexivity. }
        rewrite Heq in Hin. apply in_app_or in Hin as [Hin|Hin].
        { exfalso. revert Hin. apply no_filter_in.
          rewrite !filtered_events_app, Hnp.
          pose proof (within_no_filter_before 2 2 _ Hwh ltac:(lia)) as Hnh.
          rewrite filtered_events_app in Hnh.
          apply app_eq_nil in Hnh as [Hnh _]. rewrite Hnh. reflexivity. }
        apply in_split in Hin as (r1 & r2 & Hr).
        exists ((tp ++ [Log INFO "RETRIEVED EVENT: %s";
                        Log INFO "RETRIEVED EVENT: %s, headers %s"]
                    ++ th ++ [Log INFO "Create header %s";
                              Log INFO "HANDLING EVENT"]) ++ r1), r2.
        split.
        { rewrite Heq, Hr. rewrite <- !app_assoc. reflexivity. }
        { apply in_or_app. left. apply in_or_app. right.
          apply in_or_app. right. apply in_or_app. right. left. reflexivity. }
      * exfalso.
        rewrite (listen_event_header_raises _ _ _ _ Hh) in Hbody.
        destruct (_create_header_stages _ _ _ _ Hh) as (th & Hth & Hwh).
        assert (Hfin : emits (within 7 8)
                  (finally (listen_outcome event (Raise e))
                     (emit (Log INFO "Finished event")))).
        { apply emits_finally with (mid := 8%nat); [lia | | staged].
          apply listen_outcome_stages. }
        destruct (Hfin _ _ _ Hbody) as (tr & Htr & Hwr).
        cbn [trace after] in Hth. rewrite Hth, Htp in Htr.
        assert (Heq : t = tp ++ [Log INFO "RETRIEVED EVENT: %s";
                                 Log INFO "RETRIEVED EVENT: %s, headers %s"]
                             ++ th ++ tr).
        { apply (app_inv_head (trace s)). rewrite <- Ht, Htr.
          rewrite <- !app_assoc. reflexivity. }
        rewrite Heq in Hin. revert Hin. apply no_filter_in.
        rewrite !filtered_events_app, Hnp.
        rewrite (within_no_filter_before 2 2 th Hwh) by lia.
        rewrite (within_no_filter_after 7 8 tr Hwr) by lia. reflexivity.
    + exfalso. rewrite (listen_body_none _ _ Hget) in Hbody.
      inversion Hbody; subst. cbn [trace after] in Ht.
      rewrite Htp, <- app_assoc in Ht. apply app_inv_head in Ht. subst t.
      revert Hin. apply no_filter_in.
      rewrite filtered_events_app, Hnp. reflexivity.
  - intros event s s1 e Hf.
    assert (Hbody : handle_event_body event s = (Raise e, s1)).
    { unfold handle_event_body. unfold bind at 1. rewrite Hf. reflexivity. }
    destruct (_handle_event_raises _ _ _ _ Hbody) as (l & Hl & Hr).
    eexists. split; [exact Hr|].
    destruct (run_filters_stages (_filters (self s)) event s (Raise e) s1)
      as (tf & Htf & Hwf).
    { unfold _filter_event, bind, get in Hf. exact Hf. }
    cbn [trace after]. rewrite Htf, !handled_app.
    rewrite (within_no_handle 3 3 tf Hwf) by lia.
    destruct l; cbn in Hl |- *; try discriminate; rewrite ?app_nil_r;
      reflexivity.
Qed.

(** *** Entering the loop *)

(** With the base class's [__started] bound and true, [listen] logs and
    enters the loop. *)
Lemma listen_enters_loop :
  forall (fuel : nat) (s : state),
    base__started (self s) = Some true ->
    listen fuel s =
      listen_loop fuel (after s (env s) [Log INFO "LISTENING EVENT..."]).
Proof.
  intros fuel s H. unfold listen. mrun. rewrite H. mrun. reflexivity.
Qed.

(** On an object as [AIOKafkaConsumerImplementation.__init__] leaves it,
    [listen] stops at its first line: the attribute it reads there is the
    base class's [__started], which the constructor did not bind. *)
Lemma listen_on_constructed_object :
  forall (fuel : nat) topic group_id handlers filters before_handle_callback
         after_handle_callback event_root_mapper_service w,
    let s := {| self := init topic group_id handlers filters
                          before_handle_callback after_handle_callback
                          event_root_mapper_service;
                env := w; trace := [] |} in
    listen fuel s = (Raise (new AttributeError), s).
Proof. intros. reflexivity. Qed.

(** *** Headers, commits and filters on their own *)

Lemma dict_get_set_same {V : Type} (d : list (string * V)) (k : string) (v : V) :
  dict_get (dict_set d k v) k = Some v.
Proof.
  induction d as [|[k0 w0] rest IH]; cbn.
  - rewrite String.eqb_refl. reflexivity.
  - destruct (String.eqb k0 k) eqn:E; cbn; rewrite E; [reflexivity|exact IH].
Qed.

Lemma dict_get_set_other {V : Type} (d : list (string * V)) (k k' : string) (v : V) :
  k <> k' -> dict_get (dict_set d k v) k' = dict_get d k'.
Proof.
  intros Hne. induction d as [|[k0 w0] rest IH]; cbn.
  - destruct (String.eqb k k') eqn:E; [|reflexivity].
    apply String.eqb_eq in E. contradiction.
  - destruct (String.eqb k0 k) eqn:E; cbn.
    + apply String.eqb_eq in E. subst k0.
      destruct (String.eqb k k') eqn:E'; [|reflexivity].
      apply String.eqb_eq in E'. contradiction.
    + destruct (String.eqb k0 k'); [reflexivity|exact IH].
Qed.

(** What [_decode_headers] stores for a header value (app, lines
    105-109): the text of a [bytes] value, any other value as it is. *)
Definition decoded_header (header_value : pyval) : result pyval :=
  match header_value with
  | PBytes b =>
      match utf8_decode b with
      | Ok text => Ok (PStr text)
      | Raise e => Raise e
      end
  | _ => Ok header_value
  end.

Definition trace_keys : list string := ["root_id"; "parent_id"; "event_id"].

Lemma decode_keys_step (key : string) (rest : list string)
  (headers result_ : list (string * pyval)) :
  decode_keys (key :: rest) headers result_ =
    match dict_get headers key with
    | None => decode_keys rest headers result_
    | Some header_value =>
        match decoded_header header_value with
        | Ok v => decode_keys rest headers (dict_set result_ key v)
        | Raise e => Raise e
        end
    end.
Proof.
  cbn [decode_keys]. destruct (dict_get headers key) as [[]|]; cbn; try reflexivity.
  destruct (utf8_decode b); reflexivity.
Qed.

Lemma decode_keys_ok :
  forall (keys : list string) (headers result_ d : list (string * pyval)),
    decode_keys keys headers result_ = Ok d ->
    forall k,
      (In k keys ->
       match dict_get headers k with
       | None => dict_get d k = dict_get result_ k
       | Some v0 => exists v, decoded_header v0 = Ok v /\ dict_get d k = Some v
       end) /\
      (~ In k keys -> dict_get d k = dict_get result_ k).
Proof.
  induction keys as [|key rest IH]; intros headers result_ d H k.
  - cbn in H. injection H as <-. split; [intros []|reflexivity].
  - rewrite decode_keys_step in H.
    destruct (dict_get headers key) as [v0|] eqn:Hkey.
    + destruct (decoded_header v0) as [v|e] eqn:Hdec; [|discriminate].
      destruct (IH _ _ _ H k) as [Hin Hout].
      destruct (in_dec string_dec k rest) as [Hr|Hr].
      * split; [|intros Hn; exfalso; apply Hn; right; exact Hr].
        intros _. specialize (Hin Hr).
        destruct (dict_get headers k) eqn:Hk; [exact Hin|].
        rewrite Hin. apply dict_get_set_other. intros ->. congruence.
      * specialize (Hout Hr). split.
        -- intros [->|Hr']; [|contradiction].
           rewrite Hkey. exists v. split; [exact Hdec|].
           rewrite Hout. apply dict_get_set_same.
        -- intros Hn. rewrite Hout. apply dict_get_set_other.
           intros ->. apply Hn. left. reflexivity.
    + destruct (IH _ _ _ H k) as [Hin Hout].
      destruct (in_dec string_dec k rest) as [Hr|Hr].
      * split; [intros _; exact (Hin Hr)|].
        intros Hn. exfalso. apply Hn. right. exact Hr.
      * split; [|intros _; exact (Hout Hr)].
        intros [->|Hr']; [|contradiction]. rewrite Hkey. exact (Hout Hr).
Qed.

Lemma decode_keys_raises :
  forall (keys : list string) (headers result_ : list (string * pyval)) (e : exn),
    decode_keys keys headers result_ = Raise e ->
    e = new UnicodeDecodeError /\
    exists k b,
      In k keys /\ dict_get headers k = Some (PBytes b) /\ utf8_valid b = false.
Proof.
  induction keys as [|key rest IH]; intros headers result_ e H.
  - discriminate.
  - rewrite decode_keys_step in H.
    destruct (dict_get headers key) as [v0|] eqn:Hkey.
    + destruct (decoded_header v0) as [v|e'] eqn:Hdec.
      * destruct (IH _ _ _ H) as (He & k & b & Hin & Hk & Hb).
        split; [exact He|]. exists k, b. split; [right; exact Hin|]. auto.
      * injection H as <-.
        destruct v0; cbn in Hdec; try discriminate.
        unfold utf8_decode in Hdec.
        destruct (utf8_valid b) eqn:Hb; [discriminate|].
        injection Hdec as <-. split; [reflexivity|].
        exists key, b. split; [left; reflexivity|]. auto.
    + destruct (IH _ _ _ H) as (He & k & b & Hin & Hk & Hb).
      split; [exact He|]. exists k, b. split; [right; exact Hin|]. auto.
Qed.

(** X11.  What [_decode_headers] returns holds the trace keys of its
    argument and nothing else: each of [root_id], [parent_id] and
    [event_id] that the argument has, with a [bytes] value decoded and any
    other value as it is; other keys are dropped. *)
Theorem decode_headers_keeps_the_trace_keys :
  forall (headers d : list (string * pyval)),
    _decode_headers headers = Ok d ->
    (forall k v,
       dict_get d k = Some v ->
       In k trace_keys /\
       exists v0, dict_get headers k = Some v0 /\ decoded_header v0 = Ok v) /\
    (forall k v0,
       In k trace_keys -> dict_get headers k = Some v0 ->
       exists v, decoded_header v0 = Ok v /\ dict_get d k = Some v).
Proof.
  intros headers d H.
  assert (Hkeys : decode_keys trace_keys headers [] = Ok d).
  { destruct headers; [|exact H]. cbn in H. injection H as <-. reflexivity. }
  split.
  - intros k v Hd.
    destruct (decode_keys_ok _ _ _ _ Hkeys k) as [Hin Hout].
    destruct (in_dec string_dec k trace_keys) as [Hk|Hk].
    + split; [exact Hk|]. specialize (Hin Hk).
      destruct (dict_get headers k) as [v0|].
      * destruct Hin as (v' & Hdec & Hd'). exists v0. split; [reflexivity|].
        congruence.
      * rewrite Hin in Hd. discriminate.
    + rewrite (Hout Hk) in Hd. discriminate.
  - intros k v0 Hk Hh.
    destruct (decode_keys_ok _ _ _ _ Hkeys k) as [Hin _].
    specialize (Hin Hk). rewrite Hh in Hin. exact Hin.
Qed.

Lemma _decode_headers_raises :
  forall (headers : list (string * pyval)) (e : exn),
    _decode_headers headers = Raise e ->
    e = new UnicodeDecodeError /\
    exists k b,
      In k trace_keys /\ dict_get headers k = Some (PBytes b) /\
      utf8_valid b = false.
Proof.
  intros headers e H.
  assert (Hkeys : decode_keys trace_keys headers [] = Raise e).
  { destruct headers; [discriminate|exact H]. }
  exact (decode_keys_raises _ _ _ _ Hkeys).
Qed.

(** X12.  [_decode_headers] raises nothing but [UnicodeDecodeError], and
    only for a trace key whose [bytes] value is not UTF-8; it never raises
    the [KeyError] that [_create_header] is prepared for. *)
Theorem decode_headers_raises_only_unicode_error :
  forall (headers : list (string * pyval)) (e : exn),
    _decode_headers headers = Raise e ->
    e = new UnicodeDecodeError /\
    isinstance e KeyError = false /\
    exists k b,
      In k trace_keys /\ dict_get headers k = Some (PBytes b) /\
      utf8_valid b = false.
Proof.
  intros headers e H.
  destruct (_decode_headers_raises _ _ H) as (-> & Hk).
  split; [reflexivity|]. split; [reflexivity|exact Hk].
Qed.

(** X13.  [_create_header] fails in two ways only: with the
    [UnicodeDecodeError] of an undecodable trace header, unwrapped and
    before anything is stored or logged; or, when an audit sink is
    configured and no trace header was decoded, with
    [InvalidMessageException] raised from the error met. *)
Theorem create_header_failures :
  forall (headers : list (string * pyval)) (s s' : state) (e : exn),
    _create_header headers s = (Raise e, s') ->
    (e = new UnicodeDecodeError /\ s' = s /\
     _decode_headers (dict_of_pairs headers) = Raise e) \/
    (exists cause,
       e = new_from InvalidMessageException cause /\
       _mongo_connected (self s) = true /\
       _decode_headers (dict_of_pairs headers) = Ok [] /\
       _headers (self s') = _headers (self s)).
Proof.
  intros headers [c w tr] s' e H. unfold _create_header in H. mrun.
  destruct (_decode_headers (dict_of_pairs headers)) as [d|ke] eqn:Hdec.
  - right. mrun.
    destruct (_mongo_connected c) eqn:Hm; mrun; [|discriminate].
    destruct d as [|kv d]; mrun.
    + destruct (base__event_root_mapper_service c) as [[svc|]|]; mrun.
      * destruct (create_header svc w) as [[h|x] w1]; mrun; [discriminate|].
        injection H as <- <-. eexists. repeat split; reflexivity.
      * discriminate.
      * injection H as <- <-. eexists. repeat split; reflexivity.
    + discriminate.
  - left. destruct (_decode_headers_raises _ _ Hdec) as (-> & _).
    cbn in H. mrun. injection H as <- <-. auto.
Qed.

(** X14.  With decodable headers, and a trace header among them when an
    audit sink is configured, [_create_header] returns without a call to
    the outside.  It stores the decoded headers as they are when no sink
    is configured; with a sink it stores exactly the keys [root_id],
    [parent_id] and [event_id], with [None] for a missing one. *)
Theorem create_header_stores_the_trace_header :
  forall (headers d : list (string * pyval)) (s : state),
    _decode_headers (dict_of_pairs headers) = Ok d ->
    (_mongo_connected (self s) = false \/ d <> []) ->
    let stored :=
      if _mongo_connected (self s) then
        PDict [("root_id", match dict_get d "root_id" with
                           | Some v => v | None => PNone end);
               ("parent_id", match dict_get d "parent_id" with
                             | Some v => v | None => PNone end);
               ("event_id", match dict_get d "event_id" with
                            | Some v => v | None => PNone end)]
      else PDict d in
    _create_header headers s =
      (Ok tt, {| self := set_headers stored (self s); env := env s;
                 trace := trace s ++ [Log INFO "Create header %s"] |}).
Proof.
  intros headers d [c w tr] Hdec Hcase stored. subst stored.
  unfold _create_header. mrun. rewrite Hdec. mrun.
  destruct (_mongo_connected c) eqn:Hm; mrun; [|reflexivity].
  destruct Hcase as [Hcase|Hcase]; [discriminate|].
  destruct d as [|kv d]; [contradiction|]. mrun. reflexivity.
Qed.

Lemma _commit_event_returns :
  forall (event : polled) (s : state),
    exists s',
      _commit_event event s = (Ok tt, s') /\
      self s' = self s /\
      commits (trace s') =
        commits (trace s) ++
        match p_meta_data event with
        | Some {| m_offset := Some offset; m_topic_partition := Some tp |} =>
            [(tp, offset + 1)]
        | _ => []
        end.
Proof.
  intros event [c w tr]. unfold _commit_event. mrun.
  destruct (p_meta_data event) as [[[offset|] key [tp|]]|]; mrun;
    try (eexists; split; [reflexivity|]; split; [reflexivity|];
         cbn [trace]; rewrite ?commits_app; cbn; rewrite ?app_nil_r;
         reflexivity).
  destruct (consumer_commit tp (offset + 1) w) as [[u|e] w1]; mrun;
    eexists; (split; [reflexivity|]); (split; [reflexivity|]);
    cbn [trace]; rewrite ?commits_app; cbn; rewrite ?app_nil_r;
    reflexivity.
Qed.

(** X15.  [_commit_event] never raises.  It asks the broker for one
    commit, of the offset after the event's, when the event has both a
    partition and an offset, and for none otherwise; a commit the broker
    refuses is only logged. *)
Theorem commit_event_never_raises :
  forall (event : polled) (s : state),
    exists s',
      _commit_event event s = (Ok tt, s') /\
      self s' = self s /\
      commits (trace s') =
        commits (trace s) ++
        match p_meta_data event with
        | Some {| m_offset := Some offset; m_topic_partition := Some tp |} =>
            [(tp, offset + 1)]
        | _ => []
        end.
Proof. exact _commit_event_returns. Qed.


(** X17.  [start] and [stop] of the consumer are idempotent: two calls
    in a row behave as one, so that the transport is started, or stopped,
    once. *)
Theorem consumer_start_stop_idempotent :
  forall s : state,
    (start ;;; start) s = start s /\ (stop ;;; stop) s = stop s.
Proof.
  intros [c w tr]. unfold start, stop. mrun.
  destruct (impl__started c) eqn:Hs; mrun.
  - rewrite Hs. split; [reflexivity|].
    destruct (consumer_stop w) as [[u|e] w1]; mrun; reflexivity.
  - rewrite Hs. split; [|reflexivity].
    destruct (consumer_start w) as [[u|e] w1]; mrun; reflexivity.
Qed.

(** X18.  On an object as [__init__] builds it, whatever its arguments,
    [listen] raises [AttributeError] at its first line: the private
    [__started] it reads there is the base class's, which no code binds.
    The consumer is not started and nothing is polled.  A call of [start]
    before does not help: [start] binds the subclass's [__started], and
    [listen] still raises without a poll. *)
Theorem listen_fails_on_a_constructed_object :
  forall (fuel : nat) topic group_id handlers filters before_handle_callback
         after_handle_callback event_root_mapper_service (w : Env)
         (tr : list action),
    let s :=
      {| self := init topic group_id handlers filters before_handle_callback
                   after_handle_callback event_root_mapper_service;
         env := w; trace := tr |} in
    listen fuel s = (Raise (new AttributeError), s) /\
    exists e t,
      fst ((start ;;; listen fuel) s) = Raise e /\
      trace (snd ((start ;;; listen fuel) s)) = tr ++ t /\
      (t = [Start] \/
       (e = new AttributeError /\
        t = [Start; Log INFO "Kafka consumer started for topic: %s"])).
Proof.
  intros. subst s. split; [reflexivity|].
  unfold start, listen, init. mrun. cbn [impl__started negb]. mrun.
  destruct (consumer_start w) as [[u|e] w1];
    cbn [self env trace fst snd base__started set_started].
  - exists (new AttributeError). eexists. cbn [fst snd trace].
    split; [reflexivity|]. rewrite <- app_assoc. split; [reflexivity|].
    right. split; reflexivity.
  - exists e, [Start]. cbn [fst snd trace]. auto.
Qed.


(** *** Counting what a turn of the loop does *)

Definition polls_made (tr : list action) : nat :=
  List.length (filter (fun a => match a with Poll => true | _ => false end) tr).

Definition commits_made (tr : list action) : nat := List.length (commits tr).

Definition handler_calls (tr : list action) : nat := List.length (handled tr).

(** Whatever [m] does, it adds at most [n] actions counted by [mu]. *)
Definition at_most {A} (mu : list action -> nat) (n : nat) (m : M state A)
  : Prop :=
  emits (fun t => (mu t <= n)%nat) m.

Lemma polls_made_app (a b : list action) :
  polls_made (a ++ b) = (polls_made a + polls_made b)%nat.
Proof. unfold polls_made. rewrite filter_app, length_app. reflexivity. Qed.

Lemma commits_made_app (a b : list action) :
  commits_made (a ++ b) = (commits_made a + commits_made b)%nat.
Proof. unfold commits_made. rewrite commits_app, length_app. reflexivity. Qed.

Lemma handler_calls_app (a b : list action) :
  handler_calls (a ++ b) = (handler_calls a + handler_calls b)%nat.
Proof. unfold handler_calls. rewrite handled_app, length_app. reflexivity. Qed.

Section Tally.

Variable mu : list action -> nat.
Hypothesis mu_app : forall a b, mu (a ++ b) = (mu a + mu b)%nat.

Lemma mu_nil : mu [] = O.
Proof. pose proof (mu_app [] []) as H. cbn in H. lia. Qed.

Lemma tally_same {A} (n : nat) (m : M state A) :
  (forall s, exists r, m s = (r, s)) -> at_most mu n m.
Proof.
  intros Hm s r s' H. destruct (Hm s) as (r0 & Hr). rewrite Hr in H.
  inversion H; subst. exists []. rewrite app_nil_r, mu_nil.
  split; [reflexivity|lia].
Qed.

Lemma tally_ret {A} (n : nat) (a : A) : at_most mu n (ret a).
Proof. apply tally_same. intros s. eexists. reflexivity. Qed.

Lemma tally_raise {A} (n : nat) (e : exn) : at_most mu n (raise (A := A) e).
Proof. apply tally_same. intros s. eexists. reflexivity. Qed.

Lemma tally_lift {A} (n : nat) (x : result A) : at_most mu n (lift x).
Proof. apply tally_same. intros s. eexists. reflexivity. Qed.

Lemma tally_get (n : nat) : at_most mu n get.
Proof. apply tally_same. intros s. eexists. reflexivity. Qed.

Lemma tally_with_self (n : nat) (f : consumer -> consumer) :
  at_most mu n (with_self f).
Proof.
  intros s r s' H. unfold with_self, modify in H. inversion H; subst.
  exists []. cbn. rewrite app_nil_r, mu_nil. split; [reflexivity|lia].
Qed.

Lemma tally_emit (n : nat) (a : action) :
  (mu [a] <= n)%nat -> at_most mu n (emit a).
Proof.
  intros Ha s r s' H. unfold emit, modify in H. inversion H; subst.
  exists [a]. split; [reflexivity|exact Ha].
Qed.

Lemma tally_call {A} (n : nat) (a : action) (f : Env -> result A * Env) :
  (mu [a] <= n)%nat -> at_most mu n (call a f).
Proof.
  intros Ha s r s' H. unfold call in H.
  destruct (f (env s)) as [x w]. inversion H; subst.
  exists [a]. split; [reflexivity|exact Ha].
Qed.

Lemma tally_weaken {A} (n n' : nat) (m : M state A) :
  (n <= n')%nat -> at_most mu n m -> at_most mu n' m.
Proof.
  intros Hn Hm s r s' H. destruct (Hm _ _ _ H) as (t & Ht & Hle).
  exists t. split; [exact Ht|lia].
Qed.

Lemma tally_bind {A B} (n k N : nat) (m : M state A) (f : A -> M state B) :
  (n + k <= N)%nat ->
  at_most mu n m -> (forall a, at_most mu k (f a)) ->
  at_most mu N (bind m f).
Proof.
  intros HN Hm Hf s r s' H. unfold bind in H.
  destruct (m s) as [[a|e] s1] eqn:Em.
  - destruct (Hm _ _ _ Em) as (t1 & Ht1 & H1).
    destruct (Hf a _ _ _ H) as (t2 & Ht2 & H2).
    exists (t1 ++ t2). rewrite Ht2, Ht1, app_assoc, mu_app.
    split; [reflexivity|lia].
  - inversion H; subst.
    destruct (Hm _ _ _ Em) as (t1 & Ht1 & H1).
    exists t1. split; [exact Ht1|lia].
Qed.

Lemma tally_catch {A} (n k N : nat) (m : M state A) (h : exn -> M state A) :
  (n + k <= N)%nat ->
  at_most mu n m -> (forall e, at_most mu k (h e)) ->
  at_most mu N (catch m h).
Proof.
  intros HN Hm Hh s r s' H. unfold catch in H.
  destruct (m s) as [[a|e] s1] eqn:Em.
  - inversion H; subst.
    destruct (Hm _ _ _ Em) as (t1 & Ht1 & H1).
    exists t1. split; [exact Ht1|lia].
  - destruct (Hm _ _ _ Em) as (t1 & Ht1 & H1).
    destruct (Hh e _ _ _ H) as (t2 & Ht2 & H2).
    exists (t1 ++ t2). rewrite Ht2, Ht1, app_assoc, mu_app.
    split; [reflexivity|lia].
Qed.

Lemma tally_finally {A} (n k N : nat) (m : M state A) (f : M state unit) :
  (n + k <= N)%nat ->
  at_most mu n m -> at_most mu k f ->
  at_most mu N (finally m f).
Proof.
  intros HN Hm Hf s r s' H. unfold finally in H.
  destruct (m s) as [x s1] eqn:Em.
  destruct (f s1) as [[u|e] s2] eqn:Ef; inversion H; subst;
    destruct (Hm _ _ _ Em) as (t1 & Ht1 & H1);
    destruct (Hf _ _ _ Ef) as (t2 & Ht2 & H2);
    exists (t1 ++ t2); rewrite Ht2, Ht1, app_assoc, mu_app;
    (split; [reflexivity|lia]).
Qed.

Lemma tally_attempt {A} (n : nat) (m : M state A) :
  at_most mu n m -> at_most mu n (attempt m).
Proof.
  intros Hm s r s' H. unfold attempt in H.
  destruct (m s) as [x s1] eqn:Em. inversion H; subst.
  exact (Hm _ _ _ Em).
Qed.

End Tally.

(** A step that only adds what [mu] does not count. *)
Ltac uncounted app_lemma :=
  repeat first
    [ apply (tally_ret _ app_lemma)
    | apply (tally_raise _ app_lemma)
    | apply (tally_lift _ app_lemma)
    | apply (tally_get _ app_lemma)
    | apply (tally_with_self _ app_lemma)
    | apply tally_emit; cbn; lia
    | apply tally_call; cbn; lia
    | apply tally_attempt
    | apply (tally_bind _ app_lemma 0 0 0); [lia| |intros ?]
    | apply (tally_catch _ app_lemma 0 0 0); [lia| |intros ?]
    | match goal with
      | |- at_most _ _ (match ?x with _ => _ end) => destruct x
      end ].

Lemma within_no_handle_after (lo hi : nat) (t : list action) :
  within lo hi t -> (5 < lo)%nat -> handled t = [].
Proof.
  intros [Ha _] Hlo. apply ascending_bound in Ha.
  induction t as [|a t IH]; [reflexivity|].
  change (a :: t) with ([a] ++ t) in *.
  rewrite stages_app in Ha. apply Forall_app in Ha as [Ha Ht].
  rewrite handled_app, (IH Ht), app_nil_r.
  destruct a; try reflexivity.
  cbn in Ha. inversion Ha; subst. lia.
Qed.

Lemma within_no_poll (lo hi : nat) (t : list action) :
  within lo hi t -> (0 < lo)%nat -> polls_made t = O.
Proof.
  intros [Ha _] Hlo. apply ascending_bound in Ha.
  induction t as [|a t IH]; [reflexivity|].
  change (a :: t) with ([a] ++ t) in *.
  rewrite stages_app in Ha. apply Forall_app in Ha as [Ha Ht].
  rewrite polls_made_app, (IH Ht), Nat.add_0_r.
  destruct a; try reflexivity.
  cbn in Ha. inversion Ha; subst. lia.
Qed.

Lemma no_commit_below {A} (lo hi : nat) (m : M state A) :
  emits (within lo hi) m -> (hi < 8)%nat -> at_most commits_made 0 m.
Proof.
  intros Hm Hhi s r s' H. destruct (Hm _ _ _ H) as (t & Ht & Hw).
  exists t. split; [exact Ht|].
  unfold commits_made. rewrite (within_no_commit _ _ _ Hw Hhi). cbn. lia.
Qed.

Lemma no_handle_outside {A} (lo hi : nat) (m : M state A) :
  emits (within lo hi) m -> (hi < 5 \/ 5 < lo)%nat -> at_most handler_calls 0 m.
Proof.
  intros Hm Hcase s r s' H. destruct (Hm _ _ _ H) as (t & Ht & Hw).
  exists t. split; [exact Ht|].
  unfold handler_calls. destruct Hcase as [Hhi|Hlo].
  - rewrite (within_no_handle _ _ _ Hw Hhi). cbn. lia.
  - rewrite (within_no_handle_after _ _ _ Hw Hlo). cbn. lia.
Qed.

Lemma _commit_event_once (event : polled) :
  at_most commits_made 1 (_commit_event event).
Proof.
  intros s r s' H.
  destruct (_commit_event_stages event _ _ _ H) as (t & Ht & _).
  exists t. split; [exact Ht|].
  destruct (_commit_event_returns event s) as (s1 & Hrun & _ & Hc).
  rewrite Hrun in H. inversion H; subst s1.
  rewrite Ht, commits_app in Hc. apply app_inv_head in Hc.
  unfold commits_made. rewrite Hc.
  destruct (p_meta_data event) as [[[offset|] key [tp|]]|]; cbn; lia.
Qed.

Lemma listen_outcome_commits_once (event : polled) (r : result pyval) :
  at_most commits_made 1 (listen_outcome event r).
Proof.
  unfold listen_outcome. destruct r as [event_data|e].
  - unfold listen_else.
    apply (tally_bind _ commits_made_app 0 1 1);
      [lia|apply (tally_get _ commits_made_app)|intros s0].
    apply (tally_bind _ commits_made_app 0 1 1); [lia| |intros ?].
    + destruct (base__event_root_mapper_service (self s0)) as [[svc|]|];
        uncounted commits_made_app.
    + apply _commit_event_once.
  - destruct (isinstance e SkippableException).
    + apply (tally_bind _ commits_made_app 0 1 1); [lia| |intros ?].
      * apply tally_emit. cbn. lia.
      * apply _commit_event_once.
    + apply (tally_weaken _ 0 1); [lia|].
      destruct (isinstance e CriticalException); uncounted commits_made_app.
Qed.

Lemma listen_event_commits_once (event : polled) :
  at_most commits_made 1 (listen_event event).
Proof.
  unfold listen_event.
  apply (tally_bind _ commits_made_app 0 1 1); [lia| |intros ?].
  { apply tally_emit. cbn. lia. }
  apply (tally_finally _ commits_made_app 1 0 1); [lia| |].
  - apply (tally_bind _ commits_made_app 0 1 1); [lia| |intros r].
    + apply tally_attempt.
      apply no_commit_below with 2%nat 6%nat; [apply listen_try_stages|lia].
    + apply listen_outcome_commits_once.
  - apply tally_emit. cbn. lia.
Qed.

Lemma handle_event_body_handles_once (event : pyval) :
  at_most handler_calls 1 (handle_event_body event).
Proof.
  unfold handle_event_body.
  apply (tally_bind _ handler_calls_app 0 1 1); [lia| |intros filtered].
  { unfold _filter_event.
    apply (tally_bind _ handler_calls_app 0 0 0); [lia| |intros s0].
    - apply (tally_get _ handler_calls_app).
    - apply no_handle_outside with 3%nat 3%nat; [apply run_filters_stages|lia]. }
  apply (tally_bind _ handler_calls_app 0 1 1); [lia| |intros ev].
  { unfold before_handle.
    apply (tally_bind _ handler_calls_app 0 0 0); [lia| |intros s0].
    - apply (tally_get _ handler_calls_app).
    - destruct (_before_handle_callback (self s0)); uncounted handler_calls_app. }
  apply (tally_bind _ handler_calls_app 0 1 1); [lia| |intros event_type].
  { uncounted handler_calls_app. }
  apply (tally_bind _ handler_calls_app 0 1 1); [lia| |intros ?].
  { destruct (negb (truthy event_type)); uncounted handler_calls_app. }
  apply (tally_bind _ handler_calls_app 0 1 1); [lia| |intros s1].
  { apply (tally_get _ handler_calls_app). }
  apply (tally_bind _ handler_calls_app 1 0 1); [lia| |intros ?].
  { apply tally_call. cbn. lia. }
  apply (tally_bind _ handler_calls_app 0 0 0); [lia| |intros s2].
  { apply (tally_get _ handler_calls_app). }
  apply (tally_bind _ handler_calls_app 0 0 0); [lia| |intros ?].
  - destruct (_after_handle_callback (self s2)); uncounted handler_calls_app.
  - uncounted handler_calls_app.
Qed.

Lemma listen_event_handles_once (event : polled) :
  at_most handler_calls 1 (listen_event event).
Proof.
  unfold listen_event.
  apply (tally_bind _ handler_calls_app 0 1 1); [lia| |intros ?].
  { apply tally_emit. cbn. lia. }
  apply (tally_finally _ handler_calls_app 1 0 1); [lia| |].
  - apply (tally_bind _ handler_calls_app 1 0 1); [lia| |intros r].
    + apply tally_attempt. unfold listen_try.
      apply (tally_bind _ handler_calls_app 0 1 1); [lia| |intros ?].
      { apply tally_emit. cbn. lia. }
      apply (tally_bind _ handler_calls_app 0 1 1); [lia| |intros ?].
      { apply no_handle_outside with 2%nat 2%nat;
          [apply _create_header_stages|lia]. }
      apply (tally_bind _ handler_calls_app 0 1 1); [lia| |intros ?].
      { apply tally_emit. cbn. lia. }
      unfold _handle_event.
      apply (tally_catch _ handler_calls_app 1 0 1); [lia| |intros e].
      * apply handle_event_body_handles_once.
      * destruct (isinstance e SkippableException);
          [|destruct (isinstance e CriticalException)];
          uncounted handler_calls_app.
    + apply no_handle_outside with 7%nat 8%nat;
        [apply listen_outcome_stages|lia].
  - apply tally_emit. cbn. lia.
Qed.

(** [_get_new_event] polls first, and neither commits nor calls the
    handler. *)
Lemma _get_new_event_polls_first :
  forall (s s1 : state) (r : result (option polled)),
    _get_new_event s = (r, s1) ->
    exists t,
      trace s1 = trace s ++ Poll :: t /\
      polls_made t = O /\ commits t = [] /\ handled t = [].
Proof.
  intros s s1 r H. unfold _get_new_event in H. mrun.
  destruct (consumer_getmany _ _ (env s)) as [[message_batch|e] w]; mrun.
  - destruct (first_record message_batch) as [[tp record]|]; mrun.
    + destruct (decode_record record) as [[[message key] added]|e]; mrun.
      * destruct added; mrun; inversion H; subst; cbn [trace];
          rewrite <- ?app_assoc; eexists; (split; [reflexivity|]);
          repeat split; reflexivity.
      * destruct (isinstance_any e _); mrun; inversion H; subst; cbn [trace];
          rewrite <- ?app_assoc; eexists; (split; [reflexivity|]);
          repeat split; reflexivity.
    + inversion H; subst; cbn [trace]. exists []. auto.
  - inversion H; subst; cbn [trace].
    rewrite <- ?app_assoc; eexists; (split; [reflexivity|]);
      repeat split; reflexivity.
Qed.

(** A turn of the loop polls, and then commits at most once and calls
    the handler at most once. *)
Lemma listen_body_tally :
  forall (s s' : state) (r : result unit),
    listen_body s = (r, s') ->
    exists t,
      trace s' = trace s ++ t /\
      polls_made t = 1%nat /\
      (commits_made t <= 1)%nat /\ (handler_calls t <= 1)%nat.
Proof.
  intros s s' r H. unfold listen_body in H. unfold bind in H.
  destruct (_get_new_event s) as [[event|e] s1] eqn:Hget.
  - destruct (_get_new_event_polls_first _ _ _ Hget)
      as (t1 & Ht1 & Hp1 & Hc1 & Hh1).
    assert (Hrest : exists t2, trace s' = trace s1 ++ t2 /\
              polls_made t2 = O /\
              (commits_made t2 <= 1)%nat /\ (handler_calls t2 <= 1)%nat).
    { destruct event as [event|].
      - destruct (listen_event_commits_once event _ _ _ H) as (t2 & Ht2 & Hc2).
        destruct (listen_event_handles_once event _ _ _ H) as (t2' & Ht2' & Hh2).
        rewrite Ht2 in Ht2'. apply app_inv_head in Ht2'. subst t2'.
        destruct (listen_event_stages event _ _ _ H) as (t3 & Ht3 & Hw3).
        rewrite Ht2 in Ht3. apply app_inv_head in Ht3. subst t3.
        exists t2. split; [exact Ht2|]. split; [|auto].
        apply (within_no_poll _ _ _ Hw3). lia.
      - unfold call in H. inversion H; subst. cbn [trace].
        eexists. split; [reflexivity|]. cbn. lia. }
    destruct Hrest as (t2 & Ht2 & Hp2 & Hc2 & Hh2).
    exists ((Poll :: t1) ++ t2). rewrite Ht2, Ht1, <- app_assoc.
    split; [reflexivity|].
    rewrite polls_made_app, commits_made_app, handler_calls_app.
    unfold commits_made, handler_calls in *.
    change (Poll :: t1) with ([Poll] ++ t1).
    rewrite polls_made_app, commits_app, handled_app, Hc1, Hh1, Hp1, Hp2.
    cbn. lia.
  - destruct (_get_new_event_returns s) as (ev & s2 & Hr). congruence.
Qed.

(** However far the loop gets, it has committed no more often and called
    the handler no more often than it has polled. *)
Lemma listen_loop_tally :
  forall (fuel : nat) (s s' : state) (r : result (option unit)),
    listen_loop fuel s = (r, s') ->
    exists t,
      trace s' = trace s ++ t /\
      (commits_made t <= polls_made t)%nat /\
      (handler_calls t <= polls_made t)%nat.
Proof.
  induction fuel as [|fuel IH]; intros s s' r H.
  - cbn in H. inversion H; subst. exists []. rewrite app_nil_r. cbn. auto.
  - cbn [listen_loop] in H. unfold bind at 1 in H. unfold get in H.
    destruct (stopped (self s)).
    + inversion H; subst. exists []. rewrite app_nil_r. cbn. auto.
    + unfold bind in H.
      destruct (listen_body s) as [[u|e] s1] eqn:Hbody.
      * destruct (listen_body_tally _ _ _ Hbody) as (t1 & Ht1 & Hp1 & Hc1 & Hh1).
        destruct (IH _ _ _ H) as (t2 & Ht2 & Hc2 & Hh2).
        exists (t1 ++ t2). rewrite Ht2, Ht1, app_assoc.
        split; [reflexivity|].
        rewrite polls_made_app, commits_made_app, handler_calls_app. lia.
      * inversion H; subst.
        destruct (listen_body_tally _ _ _ Hbody) as (t1 & Ht1 & Hp1 & Hc1 & Hh1).
        exists t1. split; [exact Ht1|]. lia.
Qed.

Lemma start_uncounted (started : bool) :
  at_most commits_made 0 (if negb started then start else ret tt) /\
  at_most handler_calls 0 (if negb started then start else ret tt).
Proof.
  unfold start. split.
  - destruct (negb started); uncounted commits_made_app.
  - destruct (negb started); uncounted handler_calls_app.
Qed.

Lemma listen_tally :
  forall (fuel : nat) (s s' : state) (r : result (option unit)),
    listen fuel s = (r, s') ->
    exists t,
      trace s' = trace s ++ t /\
      (commits_made t <= polls_made t)%nat /\
      (handler_calls t <= polls_made t)%nat.
Proof.
  intros fuel s s' r H. unfold listen in H. unfold bind at 1 in H.
  unfold get in H.
  destruct (base__started (self s)) as [started|].
  - destruct (start_uncounted started) as [Hc Hh].
    unfold bind in H.
    destruct ((if negb started then start else ret tt) s) as [[u|e] s1] eqn:E1.
    + destruct (Hc _ _ _ E1) as (t1 & Ht1 & Hc1).
      destruct (Hh _ _ _ E1) as (t1' & Ht1' & Hh1).
      rewrite Ht1 in Ht1'. apply app_inv_head in Ht1'. subst t1'.
      unfold emit, modify in H.
      destruct (listen_loop_tally _ _ _ _ H) as (t2 & Ht2 & Hc2 & Hh2).
      cbn [trace] in Ht2.
      exists ((t1 ++ [Log INFO "LISTENING EVENT..."]) ++ t2).
      rewrite Ht2, Ht1, <- !app_assoc. split; [reflexivity|].
      rewrite !app_assoc.
      rewrite !polls_made_app, !commits_made_app, !handler_calls_app.
      cbn. lia.
    + inversion H; subst.
      destruct (Hc _ _ _ E1) as (t1 & Ht1 & Hc1).
      destruct (Hh _ _ _ E1) as (t1' & Ht1' & Hh1).
      rewrite Ht1 in Ht1'. apply app_inv_head in Ht1'. subst t1'.
      exists t1. split; [exact Ht1|]. lia.
  - inversion H; subst. exists []. rewrite app_nil_r. cbn. auto.
Qed.

(** X19.  Every turn of the loop of [listen] polls once, and then calls
    the handler at most once and commits at most once.  So however long
    [listen] runs and however it ends, the commits it has requested and
    the calls of the handler it has made are each no more than the polls
    it has made. *)
Theorem listen_handles_and_commits_at_most_once_per_poll :
  (forall s : state,
     exists t,
       trace (snd (listen_body s)) = trace s ++ t /\
       polls_made t = 1%nat /\
       (commits_made t <= 1)%nat /\ (handler_calls t <= 1)%nat) /\
  (forall (fuel : nat) (s : state),
     exists t,
       trace (snd (listen fuel s)) = trace s ++ t /\
       (commits_made t <= polls_made t)%nat /\
       (handler_calls t <= polls_made t)%nat).
Proof.
  split.
  - intros s. destruct (listen_body s) as [r s'] eqn:H.
    exact (listen_body_tally _ _ _ H).
  - intros fuel s. destruct (listen fuel s) as [r s'] eqn:H.
    exact (listen_tally _ _ _ _ H).
Qed.


(** *** What the loop leaves as it is *)

(** [_stop] (adapter, lines 86-94), the handler of SIGINT and SIGTERM:
    [sys.exit(0)] leaves the process and is the right-hand outcome. *)
Definition set_stopped (b : bool) (c : consumer) : consumer :=
  {| impl__topic := impl__topic c; impl__group_id := impl__group_id c;
     handlers := handlers c; _filters := _filters c;
     _before_handle_callback := _before_handle_callback c;
     _after_handle_callback := _after_handle_callback c;
     impl__event_root_mapper_service := impl__event_root_mapper_service c;
     _mongo_connected := _mongo_connected c; stopped := b;
     _body := _body c; _headers := _headers c;
     impl__started := impl__started c;
     base__started := base__started c;
     base__event_root_mapper_service := base__event_root_mapper_service c;
     base__topic := base__topic c |}.

Definition _stop (s : state) : (unit + Z) * state :=
  if stopped (self s) then (inr 0, s)
  else
    (inl tt,
     {| self := set_stopped true (self s); env := env s;
        trace := trace s ++
          [Log WARNING
             "This worker will stop after completing the current job. Press Ctrl+C or send kill -9 %s to force stop"] |}).

(** [c'] is [c] with, at most, another [_headers]. *)
Definition same_but_headers (c c' : consumer) : Prop :=
  exists h, c' = set_headers h c.

(** Whatever [m] does, it changes no attribute of the consumer but
    [_headers]. *)
Definition keeps {A} (m : M state A) : Prop :=
  forall s r s', m s = (r, s') -> same_but_headers (self s) (self s').

Lemma same_but_headers_refl (c : consumer) : same_but_headers c c.
Proof. exists (_headers c). destruct c. reflexivity. Qed.

Lemma same_but_headers_trans (c1 c2 c3 : consumer) :
  same_but_headers c1 c2 -> same_but_headers c2 c3 -> same_but_headers c1 c3.
Proof. intros (h1 & ->) (h2 & ->). exists h2. reflexivity. Qed.

Lemma keeps_ret {A} (a : A) : keeps (ret a).
Proof. intros s r s' H. inversion H; subst. apply same_but_headers_refl. Qed.

Lemma keeps_raise {A} (e : exn) : keeps (raise (A := A) e).
Proof. intros s r s' H. inversion H; subst. apply same_but_headers_refl. Qed.

Lemma keeps_lift {A} (x : result A) : keeps (lift x).
Proof. intros s r s' H. inversion H; subst. apply same_but_headers_refl. Qed.

Lemma keeps_get : keeps get.
Proof. intros s r s' H. inversion H; subst. apply same_but_headers_refl. Qed.

Lemma keeps_emit (a : action) : keeps (emit a).
Proof. intros s r s' H. inversion H; subst. apply same_but_headers_refl. Qed.

Lemma keeps_call {A} (a : action) (f : Env -> result A * Env) : keeps (call a f).
Proof.
  intros s r s' H. unfold call in H. destruct (f (env s)) as [x w].
  inversion H; subst. apply same_but_headers_refl.
Qed.

Lemma keeps_set_headers (h : pyval) : keeps (with_self (set_headers h)).
Proof. intros s r s' H. inversion H; subst. exists h. reflexivity. Qed.

Lemma keeps_bind {A B} (m : M state A) (k : A -> M state B) :
  keeps m -> (forall a, keeps (k a)) -> keeps (bind m k).
Proof.
  intros Hm Hk s r s' H. unfold bind in H.
  destruct (m s) as [[a|e] s1] eqn:Em.
  - eapply same_but_headers_trans; [exact (Hm _ _ _ Em)|exact (Hk a _ _ _ H)].
  - inversion H; subst. exact (Hm _ _ _ Em).
Qed.

Lemma keeps_catch {A} (m : M state A) (h : exn -> M state A) :
  keeps m -> (forall e, keeps (h e)) -> keeps (catch m h).
Proof.
  intros Hm Hh s r s' H. unfold catch in H.
  destruct (m s) as [[a|e] s1] eqn:Em.
  - inversion H; subst. exact (Hm _ _ _ Em).
  - eapply same_but_headers_trans; [exact (Hm _ _ _ Em)|exact (Hh e _ _ _ H)].
Qed.

Lemma keeps_finally {A} (m : M state A) (f : M state unit) :
  keeps m -> keeps f -> keeps (finally m f).
Proof.
  intros Hm Hf s r s' H. unfold finally in H.
  destruct (m s) as [x s1] eqn:Em.
  destruct (f s1) as [[u|e] s2] eqn:Ef; inversion H; subst;
    (eapply same_but_headers_trans; [exact (Hm _ _ _ Em)|exact (Hf _ _ _ Ef)]).
Qed.

Lemma keeps_attempt {A} (m : M state A) : keeps m -> keeps (attempt m).
Proof.
  intros Hm s r s' H. unfold attempt in H.
  destruct (m s) as [x s1] eqn:Em. inversion H; subst. exact (Hm _ _ _ Em).
Qed.

Lemma run_filters_keeps (filters : list (pyval -> Env -> result pyval * Env))
  (event : pyval) : keeps (run_filters filters event).
Proof.
  revert event. induction filters as [|f rest IH]; intros event; cbn.
  - apply keeps_ret.
  - apply keeps_bind; [apply keeps_call|intros ev; apply IH].
Qed.

Ltac kept :=
  repeat first
    [ apply keeps_ret | apply keeps_raise | apply keeps_lift | apply keeps_get
    | apply keeps_emit | apply keeps_call | apply keeps_set_headers
    | apply run_filters_keeps
    | apply keeps_attempt
    | apply keeps_bind; [|intros ?]
    | apply keeps_catch; [|intros ?]
    | apply keeps_finally
    | match goal with
      | |- keeps (match ?x with _ => _ end) => destruct x
      end ].

Lemma listen_body_keeps : keeps listen_body.
Proof.
  unfold listen_body, _get_new_event, listen_event, listen_try,
    listen_outcome, listen_else, _create_header, _handle_event,
    handle_event_body, _filter_event, before_handle, _commit_event.
  kept.
Qed.

(** While the flag is down the loop ends by an exception or not at all. *)
Lemma listen_loop_runs_on :
  forall (fuel : nat) (s s' : state) (r : result (option unit)),
    stopped (self s) = false ->
    listen_loop fuel s = (r, s') ->
    r <> Ok (Some tt) /\ same_but_headers (self s) (self s').
Proof.
  induction fuel as [|fuel IH]; intros s s' r Hs H.
  - cbn in H. inversion H; subst.
    split; [discriminate|apply same_but_headers_refl].
  - cbn [listen_loop] in H. unfold bind at 1 in H. unfold get in H.
    rewrite Hs in H. unfold bind in H.
    destruct (listen_body s) as [[u|e] s1] eqn:Hbody.
    + pose proof (listen_body_keeps _ _ _ Hbody) as Hk.
      destruct (IH s1 s' r) as [Hr Hk'].
      * destruct Hk as (h & ->). exact Hs.
      * exact H.
      * split; [exact Hr|].
        eapply same_but_headers_trans; eassumption.
    + inversion H; subst. split; [discriminate|].
      exact (listen_body_keeps _ _ _ Hbody).
Qed.

(** X20.  Nothing the loop of [listen] does sets the stop flag, or any
    attribute of the consumer but [_headers]: entered with the flag down,
    the loop does not return, it ends by an exception or goes on.  The
    flag is set by the signal handler [_stop]; after its first call the
    loop returns at its next test, without another poll. *)
Theorem listen_loop_ends_only_by_signal_or_exception :
  forall (fuel : nat) (s : state),
    stopped (self s) = false ->
    fst (listen_loop fuel s) <> Ok (Some tt) /\
    same_but_headers (self s) (self (snd (listen_loop fuel s))) /\
    stopped (self (snd (listen_loop fuel s))) = false /\
    fst (_stop s) = inl tt /\
    listen_loop (S fuel) (snd (_stop s)) = (Ok (Some tt), snd (_stop s)) /\
    fst (_stop (snd (_stop s))) = inr 0.
Proof.
  intros fuel s Hs.
  destruct (listen_loop fuel s) as [r s'] eqn:H.
  destruct (listen_loop_runs_on _ _ _ _ Hs H) as [Hr Hk].
  split; [exact Hr|]. split; [exact Hk|]. split.
  - destruct Hk as (h & Hk). cbn [snd]. rewrite Hk. exact Hs.
  - unfold _stop. rewrite Hs. cbn. auto.
Qed.



(** *** The event of a record *)

(** X21.  The event [_get_new_event] decodes from a record is the parsed
    JSON value of the record.  When that is a dict with both [event_type]
    and [payload], the event has the decoded record key under [key], over
    any [key] the message had, and every other field as parsed; any other
    value is left as parsed.  A missing or empty record key gives
    [None]. *)
Theorem decoded_event_carries_the_record_key :
  forall (record : consumer_record) (message : pyval) (key : option string)
         (added : bool),
    decode_record record = Ok (message, key, added) ->
    exists body text parsed,
      r_value record = Some body /\
      utf8_decode body = Ok text /\
      json_loads text = Ok parsed /\
      (key = None <-> (r_key record = None \/ r_key record = Some [])) /\
      (forall k, key = Some k ->
                 exists b, r_key record = Some b /\ utf8_decode b = Ok k) /\
      (added = true <->
       exists d, parsed = PDict d /\
                 dict_get d "event_type" <> None /\
                 dict_get d "payload" <> None) /\
      (added = true ->
       py_get message "key" =
         Ok (match key with Some k => PStr k | None => PNone end) /\
       forall k, k <> "key" -> py_get message k = py_get parsed k) /\
      (added = false -> message = parsed).
Proof.
  intros record message key added H. unfold decode_record in H.
  destruct (r_value record) as [body|]; [|discriminate].
  destruct (utf8_decode body) as [text|e] eqn:Htext; [|discriminate].
  destruct (json_loads text) as [parsed|e] eqn:Hjson; [|discriminate].
  exists body, text, parsed.
  split; [reflexivity|]. split; [exact Htext|]. split; [exact Hjson|].
  assert (Hkey : exists key0,
            match r_key record with
            | Some (b :: k) =>
                match utf8_decode (b :: k) with
                | Ok s => Ok (Some s)
                | Raise e => Raise e
                end
            | _ => Ok None
            end = Ok key0 /\
            (key0 = None <-> (r_key record = None \/ r_key record = Some [])) /\
            (forall k, key0 = Some k ->
                       exists b, r_key record = Some b /\ utf8_decode b = Ok k)).
  { destruct (r_key record) as [[|b k]|].
    - exists None. split; [reflexivity|]. split; [|discriminate].
      split; [intros _; right; reflexivity|reflexivity].
    - destruct (utf8_decode (b :: k)) as [x|e] eqn:Hx; [|discriminate].
      exists (Some x). split; [reflexivity|]. split.
      + split; [discriminate|]. intros [H0|H0]; discriminate.
      + intros k0 Hk0. injection Hk0 as <-. exists (b :: k). auto.
    - exists None. split; [reflexivity|]. split; [|discriminate].
      split; [intros _; left; reflexivity|reflexivity]. }
  destruct Hkey as (key0 & Hk0 & Hnone & Hsome). rewrite Hk0 in H.
  assert (Hplain : forall p : pyval,
            (forall d, p = PDict d ->
                       dict_get d "event_type" = None \/
                       dict_get d "payload" = None) ->
            Ok (p, key0, false) = Ok (message, key, added) ->
            (key = None <-> (r_key record = None \/ r_key record = Some [])) /\
            (forall k, key = Some k ->
                       exists b, r_key record = Some b /\ utf8_decode b = Ok k) /\
            (added = true <->
             exists d, p = PDict d /\
                       dict_get d "event_type" <> None /\
                       dict_get d "payload" <> None) /\
            (added = true ->
             py_get message "key" =
               Ok (match key with Some k => PStr k | None => PNone end) /\
             forall k, k <> "key" -> py_get message k = py_get p k) /\
            (added = false -> message = p)).
  { intros p Hp Heq. injection Heq as <- <- <-.
    split; [exact Hnone|]. split; [exact Hsome|]. split.
    - split; [discriminate|]. intros (d & Hd & H1 & H2).
      destruct (Hp d Hd); contradiction.
    - split; [discriminate|reflexivity]. }
  destruct parsed as [| | | | | | |d| |];
    try (apply Hplain; [intros d Hd; discriminate|exact H]).
  destruct (dict_get d "event_type") eqn:Het;
    [destruct (dict_get d "payload") eqn:Hpl|].
  - injection H as <- <- <-.
    split; [exact Hnone|]. split; [exact Hsome|]. split.
    + split; [|reflexivity]. intros _. exists d.
      rewrite Het, Hpl. repeat split; discriminate.
    + split; [|discriminate]. intros _. split.
      * cbn [py_get]. rewrite dict_get_set_same. reflexivity.
      * intros k Hk. cbn [py_get]. rewrite dict_get_set_other; [reflexivity|].
        intros Heq. apply Hk. symmetry. exact Heq.
  - apply Hplain; [|exact H]. intros d' Hd. injection Hd as <-. right. exact Hpl.
  - apply Hplain; [|exact H]. intros d' Hd. injection Hd as <-. left. exact Het.
Qed.

(** A record that has no value, or whose key is not UTF-8 while its value
    decodes. *)
Definition unreadable (record : consumer_record) : Prop :=
  r_value record = None \/
  exists body text parsed b k,
    r_value record = Some body /\
    utf8_decode body = Ok text /\
    json_loads text = Ok parsed /\
    r_key record = Some (b :: k) /\
    utf8_valid (b :: k) = false.

(** X22.  A record without a value, or with a key that is not UTF-8,
    gives no event: [_get_new_event] logs an error and returns the empty
    dict, and the turn of the loop ends with the sleep, without a commit
    and without a call of the handler. *)
Theorem unreadable_record_gives_no_event :
  forall (s : state) tp record w,
    polls s tp record w ->
    unreadable record ->
    exists template,
      _get_new_event s = (Ok None, after s w [Poll; Log ERROR template]) /\
      listen_body s =
        (Ok tt,
         after s (asyncio_sleep (1 # 10) w)
           [Poll; Log ERROR template; Sleep (1 # 10)]).
Proof.
  intros s tp record w Hpoll Hbad.
  assert (Hget : exists template,
            _get_new_event s = (Ok None, after s w [Poll; Log ERROR template])).
  { destruct Hbad as [Hv|(body & text & parsed & b & k & Hv & Ht & Hj & Hk & Hb)].
    - destruct Hpoll as (message_batch & Hmany & Hfirst).
      exists "Error getting new event: %s".
      unfold _get_new_event. mrun. rewrite Hmany. mrun. rewrite Hfirst.
      unfold decode_record. rewrite Hv. cbn. mrun.
      unfold after. rewrite <- app_assoc. reflexivity.
    - exists "DECODING ERROR: %s - EXCEPTIONS: %s".
      apply (_get_new_event_decode_error s tp record w (new UnicodeDecodeError));
        [exact Hpoll| |reflexivity].
      unfold decode_record. rewrite Hv, Ht, Hj, Hk.
      unfold utf8_decode at 1. rewrite Hb. reflexivity. }
  destruct Hget as (template & Hget). exists template.
  split; [exact Hget|].
  rewrite (listen_body_none _ _ Hget). rewrite after_after. reflexivity.
Qed.



(** *** Skipped records and the batch *)

(** X24.  When the handling of a polled record raises an instance of
    [SkippableException] (from a filter, a callback, the handler or the
    check of the event type), the turn of the loop ends normally: the
    offset after the record's is committed, once, and the loop goes on
    with the next poll. *)
Theorem skippable_failure_is_committed_and_skipped :
  forall (fuel : nat) (s : state) tp record w message key added e s2,
    stopped (self s) = false ->
    polls s tp record w ->
    decode_record record = Ok (message, key, added) ->
    listen_try (polled_event tp record message key)
      (at_try s w added) = (Raise e, s2) ->
    isinstance e SkippableException = true ->
    exists s3,
      listen_body s = (Ok tt, s3) /\
      listen_loop (S fuel) s = listen_loop fuel s3 /\
      commits (trace s3) = commits (trace s) ++ [(tp, r_offset record + 1)].
Proof.
  intros fuel s tp record w message key added e s2 Hs Hpoll Hdec Htry Hskip.
  destruct (skippable_failure_commits_and_continues fuel s tp record w message
              key added e s2 Hs Hpoll Hdec Htry Hskip)
    as (w4 & l & Hl & Hbody & Hloop).
  eexists. split; [exact Hbody|]. split; [exact Hloop|].
  destruct (listen_try_stages _ _ _ _ Htry) as (t & Ht & Hw).
  unfold after. cbn [trace]. rewrite Ht. unfold at_try, after. cbn [trace].
  rewrite !commits_app. rewrite (within_no_commit _ _ _ Hw) by lia.
  destruct l; try discriminate; destruct added; cbn; rewrite ?app_nil_r;
    reflexivity.
Qed.

(** X25.  Of a polled batch one record is taken: the first record of the
    first partition that has any.  The partitions before it are empty,
    and the records behind it and the partitions behind its own are not
    looked at; a batch of empty partitions gives no record. *)
Theorem first_record_of_the_batch :
  forall items : batch,
    match first_record items with
    | Some (tp, record) =>
        exists before rest behind,
          items = before ++ (tp, record :: rest) :: behind /\
          Forall (fun p => snd p = []) before
    | None => Forall (fun p => snd p = []) items
    end.
Proof.
  induction items as [|[tp [|record rest]] items IH]; cbn [first_record].
  - constructor.
  - destruct (first_record items) as [[tp' record']|].
    + destruct IH as (before & rest & behind & -> & Hall).
      exists ((tp, []) :: before), rest, behind. split; [reflexivity|].
      constructor; [reflexivity|exact Hall].
    + constructor; [reflexivity|exact IH].
  - exists [], rest, items. split; [reflexivity|constructor].
Qed.



(** *** A handled record on a consumer as the constructor leaves it *)

Lemma listen_try_keeps (event : polled) : keeps (listen_try event).
Proof.
  unfold listen_try, _create_header, _handle_event, handle_event_body,
    _filter_event, before_handle.
  kept.
Qed.

(** The [else] branch of [listen] reads [self.__event_root_mapper_service]
    first (app, line 150): unbound, the read raises, and the [finally]
    clause logs. *)
Lemma listen_event_audit_unbound :
  forall (event : polled) (s : state) event_data s2,
    listen_try event (after s (env s) [Log INFO "RETRIEVED EVENT: %s"]) =
      (Ok event_data, s2) ->
    base__event_root_mapper_service (self s2) = None ->
    listen_event event s =
      (Raise (new AttributeError),
       after s2 (env s2) [Log INFO "Finished event"]).
Proof.
  intros event s event_data s2 Htry Hnone.
  unfold listen_event. unfold bind at 1. unfold emit at 1, modify.
  unfold finally. unfold bind at 1. unfold attempt.
  change {| self := self s; env := env s;
            trace := trace s ++ [Log INFO "RETRIEVED EVENT: %s"] |}
    with (after s (env s) [Log INFO "RETRIEVED EVENT: %s"]).
  rewrite Htry. cbn [listen_outcome].
  unfold listen_else. unfold bind at 1. unfold get at 1.
  rewrite Hnone. unfold bind at 1. unfold raise at 1.
  unfold emit, modify, after. reflexivity.
Qed.

(** C1.  The code does not do what the claim says.  On every consumer on
    which the base class's [__event_root_mapper_service] is unbound, as
    [__init__] leaves it, a consumed record whose handling returns is not
    committed: after the handler call the [else] branch of [listen] reads
    that attribute (app, line 150), [AttributeError] ends the loop, and no
    commit is requested for the record. *)
Theorem handled_record_is_not_committed_on_a_constructed_consumer :
  forall (fuel : nat) (s : state) tp record w message key added event_data
         s2,
    stopped (self s) = false ->
    base__event_root_mapper_service (self s) = None ->
    polls s tp record w ->
    decode_record record = Ok (message, key, added) ->
    listen_try (polled_event tp record message key)
      (at_try s w added) = (Ok event_data, s2) ->
    exists s3 t ev,
      listen_loop (S fuel) s = (Raise (new AttributeError), s3) /\
      trace s3 = trace s ++ t /\
      In (Handle ev) t /\
      handled t = [ev] /\
      commits t = [].
Proof.
  intros fuel s tp record w message key added event_data s2
         Hrun Hnone Hpoll Hdec Htry.
  pose proof (_get_new_event_record s tp record w message key added Hpoll
                Hdec)
    as Hget.
  destruct (listen_try_calls_handler _ _ _ _ Htry)
    as (u1 & u2 & ev & Hu & Hc1 & Hh1 & Hc2 & Hh2).
  assert (Hnone2 : base__event_root_mapper_service (self s2) = None).
  { destruct (listen_try_keeps _ _ _ _ Htry) as (h & Hk).
    cbn [at_try after self] in Hk. rewrite Hk. exact Hnone. }
  rewrite <- after_poll_log in Htry.
  pose proof (listen_event_audit_unbound _ _ _ _ Htry Hnone2) as Hev.
  assert (Hbody : listen_body s =
            (Raise (new AttributeError),
             after s2 (env s2) [Log INFO "Finished event"])).
  { rewrite (listen_body_some _ _ _ Hget). exact Hev. }
  exists (after s2 (env s2) [Log INFO "Finished event"]).
  exists ((Poll :: key_log added ++ [Log INFO "RETRIEVED EVENT: %s"]) ++
          (u1 ++ Handle ev :: u2) ++ [Log INFO "Finished event"]).
  exists ev.
  split; [apply listen_loop_raises; assumption|].
  split.
  { unfold at_try in Hu. cbn [trace after] in *. rewrite Hu.
    rewrite <- ?app_assoc. cbn [app]. rewrite <- ?app_assoc. reflexivity. }
  split.
  { apply in_or_app. right. apply in_or_app. left.
    apply in_or_app. right. left. reflexivity. }
  split.
  { rewrite !handled_app, Hh1.
    change (Handle ev :: u2) with ([Handle ev] ++ u2).
    rewrite !handled_app, Hh2. destruct added; reflexivity. }
  { rewrite !commits_app, Hc1.
    change (Handle ev :: u2) with ([Handle ev] ++ u2).
    rewrite !commits_app, Hc2. destruct added; reflexivity. }
Qed.


End Consumer.

(** *** A broker, handlers and records for the examples *)

(** One partition of one topic; the broker delivers its records from the
    committed offset on (the transport of [redelivers_uncommitted]). *)
Record broker : Type := mkBroker {
  records : list consumer_record;
  committed : Z
}.

Definition events_0 : topic_partition :=
  {| tp_topic := "events"; tp_partition := 0 |}.

Definition getmany (timeout_ms max_records : Z) (w : broker)
  : result batch * broker :=
  match firstn (Z.to_nat max_records)
          (filter (fun r => committed w <=? r_offset r) (records w)) with
  | [] => (Ok [], w)
  | pending => (Ok [(events_0, pending)], w)
  end.

Definition getmany_down (timeout_ms max_records : Z) (w : broker)
  : result batch * broker :=
  (Raise (new KafkaConnectionError), w).

Definition commit (tp : topic_partition) (next_offset : Z) (w : broker)
  : result unit * broker :=
  (Ok tt, {| records := records w; committed := next_offset |}).

Definition idle (seconds : Q) (w : broker) : broker := w.

(** Stands for [json.loads] in the examples, which name their texts
    instead of spelling them in JSON. *)
Definition stub_loads (text : string) : result pyval :=
  if String.eqb text "created" then
    Ok (PDict [("event_type", PStr "user.created");
               ("payload", PDict [("id", PStr "u1")])])
  else if String.eqb text "untyped" then
    Ok (PDict [("payload", PDict [("id", PStr "u1")])])
  else Raise (new JSONDecodeError).

Definition accept (event : pyval) (w : broker) : result unit * broker :=
  (Ok tt, w).

Definition crash (event : pyval) (w : broker) : result unit * broker :=
  (Raise (new ValueError), w).

Definition pass (event : pyval) (w : broker) : result pyval * broker :=
  (Ok event, w).

Definition reject (event : pyval) (w : broker) : result pyval * broker :=
  (Raise (new SkippableException), w).

Definition mongo_down : service broker :=
  {| create_header := fun w => (Raise (new OSError), w);
     save_header := fun _ _ _ _ _ w => (Raise (new OSError), w) |}.

(** A started object whose private attributes are readable under the
    base class's names too, with the topic and the audit sink the
    constructor stored: the object [listen] and [_create_header] expect. *)
Definition with_base (c : consumer broker) : consumer broker :=
  {| impl__topic := impl__topic _ c; impl__group_id := impl__group_id _ c;
     handlers := handlers _ c; _filters := _filters _ c;
     _before_handle_callback := _before_handle_callback _ c;
     _after_handle_callback := _after_handle_callback _ c;
     impl__event_root_mapper_service := impl__event_root_mapper_service _ c;
     _mongo_connected := _mongo_connected _ c; stopped := stopped _ c;
     _body := _body _ c; _headers := _headers _ c;
     impl__started := true;
     base__started := Some true;
     base__event_root_mapper_service :=
       Some (impl__event_root_mapper_service _ c);
     base__topic := Some (impl__topic _ c) |}.

Definition plain : consumer broker :=
  with_base (init broker "events" "workers" accept None None None None).

Definition crashing : consumer broker :=
  with_base (init broker "events" "workers" crash None None None None).

Definition filtering : consumer broker :=
  with_base (init broker "events" "workers" accept (Some [pass]) None None
               None).

Definition audited : consumer broker :=
  with_base (init broker "events" "workers" accept None None None
               (Some mongo_down)).

Definition record_with (text : string) (headers : list (string * pyval))
  : consumer_record :=
  {| r_value := Some (list_byte_of_string text);
     r_key := Some (list_byte_of_string "u1");
     r_offset := 7;
     r_headers := headers |}.

Definition trace_headers : list (string * pyval) :=
  [("root_id", PBytes (list_byte_of_string "r-1"))].

Definition created : consumer_record := record_with "created" trace_headers.
Definition untyped : consumer_record := record_with "untyped" trace_headers.

(** A value that is not UTF-8, and a trace header that is not. *)
Definition garbled : consumer_record :=
  {| r_value := Some [Init.Byte.xff; Init.Byte.xfe];
     r_key := None; r_offset := 7; r_headers := [] |}.

Definition bad_header : consumer_record :=
  record_with "created" [("root_id", PBytes [Init.Byte.xff])].

(** The state at the head of the loop, with [record] next on the
    partition. *)
Definition facing (c : consumer broker) (record : consumer_record)
  : state broker :=
  {| self := c;
     env := {| records := [record]; committed := 7 |};
     trace := [] |}.

Definition created_event : pyval :=
  PDict [("event_type", PStr "user.created");
         ("payload", PDict [("id", PStr "u1")]);
         ("key", PStr "u1")].

(** The position of the first action of [tr] that satisfies [p]. *)
Fixpoint index_of (p : action -> bool) (tr : list action) : option nat :=
  match tr with
  | [] => None
  | a :: rest =>
      if p a then Some O
      else match index_of p rest with Some i => Some (S i) | None => None end
  end.

Definition created_header (a : action) : bool :=
  match a with
  | Log INFO template => String.eqb template "Create header %s"
  | _ => false
  end.

Definition applied_filter (a : action) : bool :=
  match a with Filter _ => true | _ => false end.

Definition start_ok (w : broker) : result unit * broker := (Ok tt, w).

Lemma getmany_redelivers : redelivers_uncommitted broker 1000 10 getmany idle.
Proof.
  intros w w1 message_batch seconds H. exists w1.
  unfold getmany in H |- *.
  destruct (firstn _ _) eqn:E; inversion H; subst; unfold idle;
    rewrite E; reflexivity.
Qed.

(** *** The properties on these examples *)

(** An object as [__init__] builds it, without filters, callbacks or audit
    sink. *)
Definition constructed : consumer broker :=
  init broker "events" "workers" accept None None None None.

(** On an object whose attributes are bound under the base class's names
    too. *)
Lemma handled_record_is_committed_once_after_handler_witness :
  exists s3 t1 t2 ev,
    listen_body broker 1000 10 getmany commit stub_loads idle
      (facing plain created) = (Ok tt, s3) /\
    listen_loop broker 1000 10 getmany commit stub_loads idle 1
      (facing plain created) =
      listen_loop broker 1000 10 getmany commit stub_loads idle 0 s3 /\
    trace broker s3 =
      trace broker (facing plain created) ++
      t1 ++ Commit events_0 (r_offset created + 1) :: t2 /\
    In (Handle ev) t1 /\ commits t1 = [] /\
    commits t2 = [] /\ handled t2 = [].
Proof.
  eapply (handled_record_is_committed_once_after_handler broker 1000 10
            getmany commit stub_loads idle 0 (facing plain created)
            events_0 created _ created_event (Some "u1")).
  - reflexivity.
  - eexists. split; reflexivity.
  - reflexivity.
  - reflexivity.
  - reflexivity.
Defined.

(** On such an object with an audit sink that cannot save, the handler
    returns, the handling completes, and the iteration ends with the
    sink's error and without a commit: [save_header] is awaited before
    [_commit_event] and is not guarded. *)
Lemma audit_failure_leaves_handled_record_uncommitted :
  let s := facing audited created in
  let r := listen_body broker 1000 10 getmany commit stub_loads idle s in
  (exists s2,
     listen_try broker (polled_event events_0 created created_event (Some "u1"))
       (at_try broker s (env broker s) true) = (Ok created_event, s2)) /\
  fst r = Raise (new OSError) /\
  handled (trace broker (snd r)) = [created_event] /\
  commits (trace broker (snd r)) = [].
Proof.
  cbv zeta. split; [eexists; reflexivity|]. repeat split; reflexivity.
Qed.

Lemma critical_failure_leaves_loop_without_commit_witness :
  exists s3,
    listen_loop broker 1000 10 getmany commit stub_loads idle 1
      (facing crashing created) =
      (Raise (new_from CriticalException (new ValueError)), s3) /\
    commits (trace broker s3) = [].
Proof.
  edestruct (proj2 (critical_failure_leaves_loop_without_commit broker 1000 10
                      getmany commit stub_loads idle)
               O (facing crashing created) events_0 created)
    as (s3 & H1 & H2 & _).
  - reflexivity.
  - eexists. split; reflexivity.
  - reflexivity.
  - reflexivity.
  - reflexivity.
  - exists s3. split; [exact H1|exact H2].
Defined.

(** C3 fails on the code: a trace header that is not UTF-8 makes
    [_decode_headers] raise [UnicodeDecodeError]; [_create_header] turns
    only [KeyError] into [InvalidMessageException], so the error is not
    skippable: it ends [listen], and the record is neither handled nor
    committed. *)
Lemma undecodable_trace_header_ends_listen :
  let r := listen broker 1000 10 start_ok getmany commit stub_loads idle 3
             (facing plain bad_header) in
  _decode_headers (dict_of_pairs (r_headers bad_header)) =
    Raise (new UnicodeDecodeError) /\
  fst (_create_header broker (r_headers bad_header)
         {| self := init broker "events" "workers" accept None None None None;
            env := {| records := [bad_header]; committed := 7 |};
            trace := [] |}) = Raise (new UnicodeDecodeError) /\
  isinstance (new UnicodeDecodeError) SkippableException = false /\
  fst r = Raise (new UnicodeDecodeError) /\
  handled (trace broker (snd r)) = [] /\
  commits (trace broker (snd r)) = [].
Proof. cbv zeta. repeat split; reflexivity. Qed.

Lemma iteration_creates_header_before_filters_witness :
  let s := facing filtering created in
  let r := listen_body broker 1000 10 getmany commit stub_loads idle s in
  exists t,
    trace broker (snd r) = trace broker s ++ t /\
    ascending 0 (stages t) = true /\
    forall ev, In (Filter ev) t ->
      exists t1 t2,
        t = t1 ++ Filter ev :: t2 /\ In (Log INFO "Create header %s") t1.
Proof.
  cbv zeta.
  apply (proj1 (iteration_creates_header_before_filters broker 1000 10
                  getmany commit stub_loads idle)
           (facing filtering created)
           (fst (listen_body broker 1000 10 getmany commit stub_loads idle
                   (facing filtering created)))).
  apply surjective_pairing.
Defined.

(** C5 as stated fails: the trace header is created (fifth action of
    the iteration) before the filter is applied (seventh); and when the
    trace header cannot be decoded, a filter that would reject the event
    is never applied. *)
Lemma header_is_created_before_filter_is_applied :
  let body := listen_body broker 1000 10 getmany commit stub_loads idle in
  let t := trace broker (snd (body (facing filtering created))) in
  let rejecting :=
    with_base (init broker "events" "workers" accept (Some [reject]) None
                 None None) in
  index_of created_header t = Some 4%nat /\
  index_of applied_filter t = Some 6%nat /\
  fst (body (facing rejecting bad_header)) = Raise (new UnicodeDecodeError) /\
  filtered_events (trace broker (snd (body (facing rejecting bad_header)))) = [].
Proof. cbv zeta. repeat split; reflexivity. Qed.

Lemma untyped_event_is_skipped_before_the_handler_witness :
  exists s5,
    listen_loop broker 1000 10 getmany commit stub_loads idle 1
      (facing constructed untyped) =
      listen_loop broker 1000 10 getmany commit stub_loads idle 0 s5 /\
    handled (trace broker s5) = [] /\
    commits (trace broker s5) = [(events_0, 8)].
Proof.
  edestruct (untyped_event_is_skipped_before_the_handler broker 1000 10
               getmany commit stub_loads idle O (facing constructed untyped)
               events_0 untyped)
    as (s4 & s5 & _ & _ & H1 & H2 & H3).
  - reflexivity.
  - eexists. split; reflexivity.
  - reflexivity.
  - reflexivity.
  - reflexivity.
  - reflexivity.
  - reflexivity.
  - exists s5. split; [exact H1|]. split; [exact H2|exact H3].
Defined.

Lemma undecodable_record_is_not_committed_witness :
  let s := facing plain garbled in
  let s1 :=
    after broker s (env broker s)
      [Poll; Log ERROR "DECODING ERROR: %s - EXCEPTIONS: %s"; Sleep (1 # 10)] in
  listen_body broker 1000 10 getmany commit stub_loads idle s = (Ok tt, s1) /\
  commits (trace broker s1) = [] /\
  exists w2, polls broker 1000 10 getmany s1 events_0 garbled w2.
Proof.
  cbv zeta.
  destruct (undecodable_record_is_not_committed broker 1000 10 getmany commit
              stub_loads idle O (facing plain garbled) events_0 garbled
              (env broker (facing plain garbled)))
    as (_ & Hbody & _ & Hcommits & Hagain).
  - reflexivity.
  - eexists. split; reflexivity.
  - exists [Init.Byte.xff; Init.Byte.xfe].
    split; [reflexivity | left; reflexivity].
  - split; [exact Hbody|]. split; [exact Hcommits|].
    apply Hagain. exact getmany_redelivers.
Defined.

Lemma poll_step_never_raises_witness :
  let s := facing plain created in
  _get_new_event broker 1000 10 getmany_down stub_loads s =
    (Ok None,
     after broker s (env broker s)
       [Poll; Log ERROR "Error getting new event: %s"]) /\
  listen_loop broker 1000 10 getmany_down commit stub_loads idle 1 s =
    listen_loop broker 1000 10 getmany_down commit stub_loads idle 0
      (after broker s (env broker s)
         [Poll; Log ERROR "Error getting new event: %s"; Sleep (1 # 10)]).
Proof.
  cbv zeta.
  apply (proj1 (proj2 (proj2 (poll_step_never_raises broker 1000 10
                                getmany_down commit stub_loads idle)))
           O (facing plain created) (new KafkaConnectionError)
           (env broker (facing plain created))).
  - reflexivity.
  - reflexivity.
Defined.

(** *** Examples for the properties of headers, records and the loop *)

(** A record deleted by compaction: it has a key and no value. *)
Definition tombstone : consumer_record :=
  {| r_value := None; r_key := Some (list_byte_of_string "u1");
     r_offset := 7; r_headers := [] |}.

(** One trace header among headers of another kind. *)
Lemma decode_headers_keeps_the_trace_keys_witness :
  let headers := [("source", PStr "billing");
                  ("root_id", PBytes (list_byte_of_string "r-1"))] in
  let d := [("root_id", PStr "r-1")] in
  _decode_headers headers = Ok d /\
  (forall k v,
     dict_get d k = Some v ->
     In k trace_keys /\
     exists v0, dict_get headers k = Some v0 /\ decoded_header v0 = Ok v) /\
  (forall k v0,
     In k trace_keys -> dict_get headers k = Some v0 ->
     exists v, decoded_header v0 = Ok v /\ dict_get d k = Some v).
Proof.
  cbv zeta. split; [reflexivity|].
  apply (decode_headers_keeps_the_trace_keys
           [("source", PStr "billing");
            ("root_id", PBytes (list_byte_of_string "r-1"))]
           [("root_id", PStr "r-1")]).
  reflexivity.
Defined.

Lemma decode_headers_raises_only_unicode_error_witness :
  let headers := [("root_id", PBytes [Init.Byte.xff])] in
  _decode_headers headers = Raise (new UnicodeDecodeError) /\
  new UnicodeDecodeError = new UnicodeDecodeError /\
  isinstance (new UnicodeDecodeError) KeyError = false /\
  exists k b,
    In k trace_keys /\ dict_get headers k = Some (PBytes b) /\
    utf8_valid b = false.
Proof.
  cbv zeta. split; [reflexivity|].
  apply (decode_headers_raises_only_unicode_error
           [("root_id", PBytes [Init.Byte.xff])] (new UnicodeDecodeError)).
  reflexivity.
Defined.

(** The trace header of [bad_header] is not UTF-8. *)
Lemma create_header_failures_witness :
  let s := facing plain bad_header in
  _create_header broker (r_headers bad_header) s =
    (Raise (new UnicodeDecodeError), s) /\
  ((new UnicodeDecodeError = new UnicodeDecodeError /\ s = s /\
    _decode_headers (dict_of_pairs (r_headers bad_header)) =
      Raise (new UnicodeDecodeError)) \/
   (exists cause,
      new UnicodeDecodeError = new_from InvalidMessageException cause /\
      _mongo_connected broker (self broker s) = true /\
      _decode_headers (dict_of_pairs (r_headers bad_header)) = Ok [] /\
      _headers broker (self broker s) = _headers broker (self broker s))).
Proof.
  cbv zeta. split; [reflexivity|].
  apply (create_header_failures broker (r_headers bad_header)
           (facing plain bad_header) (facing plain bad_header)
           (new UnicodeDecodeError)).
  reflexivity.
Defined.

(** With an audit sink and the one trace header [root_id]. *)
Lemma create_header_stores_the_trace_header_witness :
  _create_header broker trace_headers (facing audited created) =
    (Ok tt,
     {| self :=
          set_headers broker
            (PDict [("root_id", PStr "r-1"); ("parent_id", PNone);
                    ("event_id", PNone)])
            audited;
        env := {| records := [created]; committed := 7 |};
        trace := [Log INFO "Create header %s"] |}).
Proof.
  apply (create_header_stores_the_trace_header broker trace_headers
           [("root_id", PStr "r-1")] (facing audited created)).
  - reflexivity.
  - right. discriminate.
Defined.

(** Two turns on a record that is handled and committed. *)
Lemma listen_loop_ends_only_by_signal_or_exception_witness :
  let s := facing plain created in
  let run := listen_loop broker 1000 10 getmany commit stub_loads idle in
  fst (run 2%nat s) <> Ok (Some tt) /\
  same_but_headers broker (self broker s) (self broker (snd (run 2%nat s))) /\
  stopped broker (self broker (snd (run 2%nat s))) = false /\
  fst (_stop broker s) = inl tt /\
  run 3%nat (snd (_stop broker s)) = (Ok (Some tt), snd (_stop broker s)) /\
  fst (_stop broker (snd (_stop broker s))) = inr 0.
Proof.
  cbv zeta.
  apply (listen_loop_ends_only_by_signal_or_exception broker 1000 10 getmany
           commit stub_loads idle 2 (facing plain created)).
  reflexivity.
Defined.

Lemma decoded_event_carries_the_record_key_witness :
  decode_record stub_loads created = Ok (created_event, Some "u1", true) /\
  exists body text parsed,
    r_value created = Some body /\
    utf8_decode body = Ok text /\
    stub_loads text = Ok parsed /\
    (Some "u1" = None <-> (r_key created = None \/ r_key created = Some [])) /\
    (forall k, Some "u1" = Some k ->
               exists b, r_key created = Some b /\ utf8_decode b = Ok k) /\
    (true = true <->
     exists d, parsed = PDict d /\
               dict_get d "event_type" <> None /\
               dict_get d "payload" <> None) /\
    (true = true ->
     py_get created_event "key" = Ok (PStr "u1") /\
     forall k, k <> "key" -> py_get created_event k = py_get parsed k) /\
    (true = false -> created_event = parsed).
Proof.
  split; [reflexivity|].
  apply (decoded_event_carries_the_record_key stub_loads created
           created_event (Some "u1") true).
  reflexivity.
Defined.

Lemma unreadable_record_gives_no_event_witness :
  let s := facing plain tombstone in
  exists template,
    _get_new_event broker 1000 10 getmany stub_loads s =
      (Ok None, after broker s (env broker s) [Poll; Log ERROR template]) /\
    listen_body broker 1000 10 getmany commit stub_loads idle s =
      (Ok tt,
       after broker s (idle (1 # 10) (env broker s))
         [Poll; Log ERROR template; Sleep (1 # 10)]).
Proof.
  cbv zeta.
  apply (unreadable_record_gives_no_event broker 1000 10 getmany commit
           stub_loads idle (facing plain tombstone) events_0 tombstone).
  - eexists. split; reflexivity.
  - left. reflexivity.
Defined.


(** A consumer whose one filter rejects every event. *)
Definition rejecting : consumer broker :=
  with_base (init broker "events" "workers" accept (Some [reject]) None None
               None).

Lemma skippable_failure_is_committed_and_skipped_witness :
  exists s3,
    listen_body broker 1000 10 getmany commit stub_loads idle
      (facing rejecting created) = (Ok tt, s3) /\
    listen_loop broker 1000 10 getmany commit stub_loads idle 1
      (facing rejecting created) =
      listen_loop broker 1000 10 getmany commit stub_loads idle 0 s3 /\
    commits (trace broker s3) = [(events_0, 8)].
Proof.
  edestruct (skippable_failure_is_committed_and_skipped broker 1000 10
               getmany commit stub_loads idle O (facing rejecting created)
               events_0 created)
    as (s3 & H1 & H2 & H3).
  - reflexivity.
  - eexists. split; reflexivity.
  - reflexivity.
  - reflexivity.
  - reflexivity.
  - exists s3. split; [exact H1|]. split; [exact H2|exact H3].
Defined.



(** The same object after [_BackendKafkaConsumer__started] was bound from
    outside, so that [listen] gets past its first line. *)
Definition entering (c : consumer broker) : consumer broker :=
  {| impl__topic := impl__topic _ c; impl__group_id := impl__group_id _ c;
     handlers := handlers _ c; _filters := _filters _ c;
     _before_handle_callback := _before_handle_callback _ c;
     _after_handle_callback := _after_handle_callback _ c;
     impl__event_root_mapper_service := impl__event_root_mapper_service _ c;
     _mongo_connected := _mongo_connected _ c; stopped := stopped _ c;
     _body := _body _ c; _headers := _headers _ c;
     impl__started := impl__started _ c;
     base__started := Some (impl__started _ c);
     base__event_root_mapper_service := base__event_root_mapper_service _ c;
     base__topic := base__topic _ c |}.

(** The loop on a constructed object handles the record and ends with
    [AttributeError] and without a commit; so does [listen] once its first
    line is passed. *)
Lemma handled_record_is_not_committed_on_a_constructed_consumer_witness :
  (exists s3 t ev,
     listen_loop broker 1000 10 getmany commit stub_loads idle 1
       (facing constructed created) = (Raise (new AttributeError), s3) /\
     trace broker s3 = trace broker (facing constructed created) ++ t /\
     In (Handle ev) t /\
     handled t = [ev] /\
     commits t = []) /\
  (let r := listen broker 1000 10 start_ok getmany commit stub_loads idle 3
              (facing (entering constructed) created) in
   fst r = Raise (new AttributeError) /\
   handled (trace broker (snd r)) = [created_event] /\
   commits (trace broker (snd r)) = []).
Proof.
  split.
  - eapply (handled_record_is_not_committed_on_a_constructed_consumer broker
              1000 10 getmany commit stub_loads idle 0
              (facing constructed created) events_0 created _ created_event
              (Some "u1")).
    + reflexivity.
    + reflexivity.
    + eexists. split; reflexivity.
    + reflexivity.
    + reflexivity.
  - cbv zeta. repeat split; reflexivity.
Defined.

(** Stands for [json.loads] on the text of a JSON array. *)
Definition loads_array (text : string) : result pyval :=
  Ok (PList [PInt 1]).

Definition array_record : consumer_record := record_with "[1]" trace_headers.

(** C10 as stated fails: a decoded event that is a JSON array has no
    [event_type] field and reaches [_handle_event]; there [event.get]
    raises [AttributeError], which is promoted to [CriticalException]:
    the record is not skipped, it is not committed and the loop ends. *)
Lemma array_event_is_not_skipped :
  let s := facing constructed array_record in
  let r := listen_loop broker 1000 10 getmany commit loads_array idle 1 s in
  decode_record loads_array array_record =
    Ok (PList [PInt 1], Some "u1", false) /\
  fst (_handle_event broker (PList [PInt 1]) s) =
    Raise (new_from CriticalException (new AttributeError)) /\
  isinstance (new_from CriticalException (new AttributeError))
    SkippableException = false /\
  fst r = Raise (new_from CriticalException (new AttributeError)) /\
  handled (trace broker (snd r)) = [] /\
  commits (trace broker (snd r)) = [].
Proof. cbv zeta. repeat split; reflexivity. Qed.

End Consumer.
